(** * faf-cli: the local project scanner and the type-aware slot scorer

    A shallow embedding of
      - [src/engines/local-project-scanner.ts]  (module [Scanner]): the
        directory walk, by path on a file system and by recursion on a
        finite tree of directory entries, the language classifier, the
        aggregation of [scanLanguages] and the README probe;
      - [src/generators/faf-generator-championship.ts]  (module
        [Generator]): the tables, [inferProjectType], the writes to
        [contextSlotsFilled] in source order, the scoring block, and
        [generateFafFromProject] as a function of what its awaited calls
        return or throw;
      - [src/utils/yaml-generator.ts]  (module [Yaml]): the quoting of a
        value and its inverse, the key files and the slot counts of the
        generated content;
      - [src/engines/ai-readme-analyzer.ts]  (module [Analyzer]): the
        reading of a model's reply;
    followed by the properties of the completeness pipeline.

    Numbers.  A score and a percentage are binary64 values
    ([PrimFloat.float]), computed with the operations of the source, in
    their order; counters and byte sizes are integers ([Z]).  Where a
    property bounds a rounding, the number a binary64 value is, is a
    rational ([Q]).

    Objects.  A table written as an object literal is an association list;
    a lookup under a computed key finds an own property, one inherited from
    [Object.prototype], or nothing.  [contextSlotsFilled] is a finite map
    from slot names to strings; [languageBytes] is an association list in
    insertion order, which is the order [Object.entries] iterates in. *)

From Stdlib Require Import ZArith QArith Qabs Qpower List String Ascii Bool Lia Lqa.
From Stdlib Require Import Floats Uint63 Zpower.
From Stdlib Require Import Sorted Permutation.
From stdpp Require Import gmap strings.

Open Scope string_scope.

(** ** JavaScript primitives used by both files *)
Module JS.

(** The number an integer below 2^53 in magnitude denotes. *)
Definition float_of_Z (n : Z) : float :=
  if (n <? 0)%Z then PrimFloat.opp (PrimFloat.of_uint63 (Uint63.of_Z (- n)))
  else PrimFloat.of_uint63 (Uint63.of_Z n).

(** [Math.round] on a binary64 number: the nearest integer, halves going
    up; NaN, the infinities and numbers that already are integers are
    returned unchanged, and a result of zero keeps the sign of its
    argument. *)
Definition Math_round (x : float) : float :=
  match Prim2SF x with
  | S754_finite s m e =>
      if (0 <=? e)%Z then x
      else
        (* x = +-m / 2^-e, so floor (x + 1/2) = floor ((+-2m + 2^-e) / 2^(1-e)) *)
        let d := Z.shiftl 1 (- e) in
        let num := if s then (d - 2 * Z.pos m)%Z else (2 * Z.pos m + d)%Z in
        let n := Z.shiftr num (1 - e) in
        if (n =? 0)%Z then (if s then PrimFloat.opp 0%float else 0%float)
        else float_of_Z n
  | _ => x
  end.

(** [Math.min] on two numbers: NaN if either is NaN, and of two zeros the
    negative one. *)
Definition isNegativeZero (x : float) : bool :=
  match Prim2SF x with
  | S754_zero s => s
  | _ => false
  end.

Definition Math_min (x y : float) : float :=
  if PrimFloat.is_nan x then x
  else if PrimFloat.is_nan y then y
  else if PrimFloat.ltb y x then y
  else if PrimFloat.ltb x y then x
  else if isNegativeZero x then x else y.

(** The integer a number denotes, when it is a finite integer. *)
Definition integerValue (x : float) : option Z :=
  match Prim2SF x with
  | S754_zero _ => Some 0%Z
  | S754_finite s m e =>
      let sign := if s then (-1)%Z else 1%Z in
      if (0 <=? e)%Z then Some (sign * Z.shiftl (Z.pos m) e)%Z
      else
        let d := Z.shiftl 1 (- e) in
        if (Z.land (Z.pos m) (d - 1) =? 0)%Z
        then Some (sign * Z.shiftr (Z.pos m) (- e))%Z
        else None
  | _ => None
  end.

(** Truthiness of a slot value: [undefined] and the empty string are
    falsy. *)
Definition truthy (v : option string) : bool :=
  match v with
  | Some s => negb (String.eqb s EmptyString)
  | None => false
  end.

(** [String.prototype.toLowerCase] on ASCII letters. *)
Definition lowerAscii (c : ascii) : ascii :=
  let n := nat_of_ascii c in
  if (65 <=? n)%nat && (n <=? 90)%nat then ascii_of_nat (n + 32) else c.

Fixpoint toLowerCase (s : string) : string :=
  match s with
  | EmptyString => EmptyString
  | String c rest => String (lowerAscii c) (toLowerCase rest)
  end.

(** [s.replace(/\s+/g, '-')] on ASCII white space: every run of white
    space becomes one dash. *)
Definition isSpace (c : ascii) : bool :=
  let n := nat_of_ascii c in
  (n =? 32)%nat || ((9 <=? n)%nat && (n <=? 13)%nat).

Fixpoint dashSpaces (inRun : bool) (s : string) : string :=
  match s with
  | EmptyString => EmptyString
  | String c rest =>
      if isSpace c
      then (if inRun then dashSpaces true rest
            else String "-"%char (dashSpaces true rest))
      else String c (dashSpaces false rest)
  end.

(** [String.prototype.startsWith] and [String.prototype.includes]. *)
Fixpoint startsWith (needle s : string) : bool :=
  match needle, s with
  | EmptyString, _ => true
  | String c needle', String d s' => Ascii.eqb c d && startsWith needle' s'
  | String _ _, EmptyString => false
  end.

Fixpoint contains (needle s : string) : bool :=
  startsWith needle s ||
  match s with
  | EmptyString => false
  | String _ s' => contains needle s'
  end.

(** [Array.prototype.includes] on an array of strings. *)
Definition includes (l : list string) (x : string) : bool :=
  existsb (String.eqb x) l.

(** Own-property lookup in an object literal used as a table. *)
Fixpoint prop {A : Type} (table : list (string * A)) (key : string) : option A :=
  match table with
  | [] => None
  | (k, v) :: rest => if String.eqb k key then Some v else prop rest key
  end.

(** What an object literal inherits from [Object.prototype]: each name with
    the text of its value, [String(value)].  The values are functions, and
    [Object.prototype] itself for [__proto__]: all truthy, none a string or
    an array. *)
Definition native (name : string) : string :=
  "function " ++ name ++ "() { [native code] }".

Definition Object_prototype : list (string * string) :=
  [ ("constructor", native "Object");
    ("__defineGetter__", native "__defineGetter__");
    ("__defineSetter__", native "__defineSetter__");
    ("hasOwnProperty", native "hasOwnProperty");
    ("__lookupGetter__", native "__lookupGetter__");
    ("__lookupSetter__", native "__lookupSetter__");
    ("isPrototypeOf", native "isPrototypeOf");
    ("propertyIsEnumerable", native "propertyIsEnumerable");
    ("toString", native "toString");
    ("valueOf", native "valueOf");
    ("__proto__", "[object Object]");
    ("toLocaleString", native "toLocaleString") ].

(** [table[key]] on an object literal: an own property, an inherited one
    (with its text), or [undefined]. *)
Inductive Property (A : Type) : Type :=
| Own (value : A)
| Inherited (text : string)
| Undefined.

Arguments Own {A} value.
Arguments Inherited {A} text.
Arguments Undefined {A}.

Definition get {A : Type} (table : list (string * A)) (key : string)
  : Property A :=
  match prop table key with
  | Some value => Own value
  | None =>
      match prop Object_prototype key with
      | Some text => Inherited text
      | None => Undefined
      end
  end.

(** A call that returns or throws. *)
Inductive Error : Type :=
| InvalidProjectRoot      (* the [Error] the generator throws itself *)
| TypeError               (* thrown by the language *)
| Rejected.               (* thrown by a collaborator *)

Inductive Result (A : Type) : Type :=
| Ok (value : A)
| Throw (error : Error).

Arguments Ok {A} value.
Arguments Throw {A} error.

Definition bind {A B : Type} (r : Result A) (k : A -> Result B) : Result B :=
  match r with
  | Ok value => k value
  | Throw error => Throw error
  end.

(** [try { r } catch { fallback }]. *)
Definition recover {A : Type} (r : Result A) (fallback : A) : A :=
  match r with
  | Ok value => value
  | Throw _ => fallback
  end.

(** A value [JSON.parse] returns. *)
#[warnings="-register-all"]
Inductive Json : Type :=
| JNull
| JBool (b : bool)
| JNumber (x : float)
| JString (s : string)
| JArray (items : list Json)
| JObject (fields : list (string * Json)).

(** Truthiness of a value; [None] is [undefined]. *)
Definition truthyJson (v : option Json) : bool :=
  match v with
  | None | Some JNull => false
  | Some (JBool b) => b
  | Some (JNumber x) => negb (PrimFloat.eqb x 0) && negb (PrimFloat.is_nan x)
  | Some (JString s) => negb (String.eqb s EmptyString)
  | Some (JArray _) | Some (JObject _) => true
  end.

(** An own property of a parsed object: of duplicate keys the last wins. *)
Definition field (fields : list (string * Json)) (key : string) : option Json :=
  prop (rev fields) key.

(** [value.key], for a key that no prototype defines: a [TypeError] on
    [null] and [undefined], [undefined] on a primitive or an array. *)
Definition getProp (value : option Json) (key : string) : Result (option Json) :=
  match value with
  | None | Some JNull => Throw TypeError
  | Some (JObject fields) => Ok (field fields key)
  | Some _ => Ok None
  end.

(** [value?.key]. *)
Definition optProp (value : option Json) (key : string) : option Json :=
  match value with
  | Some (JObject fields) => field fields key
  | _ => None
  end.

(** Truthiness of [value?.includes(needle)]: [undefined] on [null] and
    [undefined], the method of a string or of an array, and a [TypeError]
    on every other value, which has no callable [includes]. *)
Definition optIncludes (value : option Json) (needle : string) : Result bool :=
  match value with
  | None | Some JNull => Ok false
  | Some (JString s) => Ok (contains needle s)
  | Some (JArray items) =>
      Ok (existsb (fun item => match item with
                               | JString s => String.eqb s needle
                               | _ => false
                               end) items)
  | Some _ => Throw TypeError
  end.

(** The own properties [{...value}] copies, index keys apart. *)
Definition spread (value : option Json) : list (string * Json) :=
  match value with
  | Some (JObject fields) => fields
  | _ => []
  end.

(** A string held by a value; a value that is not a string is taken as
    absent (its conversion to text is not modelled). *)
Definition jsonText (v : option Json) : option string :=
  match v with
  | Some (JString s) => Some s
  | _ => None
  end.

(** [String.prototype.toUpperCase] on ASCII letters. *)
Definition upperAscii (c : ascii) : ascii :=
  let n := nat_of_ascii c in
  if (97 <=? n)%nat && (n <=? 122)%nat then ascii_of_nat (n - 32) else c.

Fixpoint toUpperCase (s : string) : string :=
  match s with
  | EmptyString => EmptyString
  | String c rest => String (upperAscii c) (toUpperCase rest)
  end.

(** [for (const x of xs) { try { return f(x) } catch { continue } }]: what
    the first element gives for which [f] does not throw. *)
Fixpoint firstOf {A B : Type} (f : A -> option B) (xs : list A) : option B :=
  match xs with
  | [] => None
  | x :: rest =>
      match f x with
      | Some y => Some y
      | None => firstOf f rest
      end
  end.

End JS.
(** ** Node's [path] module (POSIX), on the paths the scanner builds *)
Module Path.

Definition isSlash (c : ascii) : bool := Ascii.eqb c "/"%char.
Definition isDot (c : ascii) : bool := Ascii.eqb c "."%char.

(** [path.join dir name] for a normalized [dir] and an entry name. *)
Definition join (dir name : string) : string := dir ++ "/" ++ name.

(** [path.basename]: what follows the last slash. *)
Fixpoint afterLastSlash (p cur : string) : string :=
  match p with
  | EmptyString => cur
  | String c rest =>
      if isSlash c then afterLastSlash rest EmptyString
      else afterLastSlash rest (cur ++ String c EmptyString)
  end.

Definition basename (p : string) : string := afterLastSlash p EmptyString.

(** The suffix of [s] that starts at its last dot. *)
Fixpoint fromLastDot (s : string) : option string :=
  match s with
  | EmptyString => None
  | String c rest =>
      match fromLastDot rest with
      | Some e => Some e
      | None => if isDot c then Some s else None
      end
  end.

(** [path.extname]: from the last dot of the basename to its end; empty
    when there is no dot, when the only dot is the first character, and for
    the name [..]. *)
Definition extname (p : string) : string :=
  match basename p with
  | EmptyString => EmptyString
  | String c rest =>
      match fromLastDot rest with
      | Some e => if String.eqb (String c rest) ".." then EmptyString else e
      | None => EmptyString
      end
  end.

End Path.

(** ** The local project scanner *)
Module Scanner.
Import JS.

Definition EXTENSION_TO_LANGUAGE : list (string * string) :=
  [ (".c", "C"); (".h", "C"); (".cpp", "C++"); (".cc", "C++");
    (".cxx", "C++"); (".hpp", "C++"); (".hh", "C++"); (".hxx", "C++");
    (".c++", "C++"); (".m", "Objective-C"); (".mm", "Objective-C++");
    (".js", "JavaScript"); (".mjs", "JavaScript"); (".cjs", "JavaScript");
    (".jsx", "JavaScript"); (".ts", "TypeScript"); (".tsx", "TypeScript");
    (".mts", "TypeScript"); (".cts", "TypeScript"); (".html", "HTML");
    (".htm", "HTML"); (".css", "CSS"); (".scss", "SCSS"); (".sass", "Sass");
    (".less", "Less"); (".svelte", "Svelte"); (".vue", "Vue");
    (".rs", "Rust"); (".go", "Go"); (".zig", "Zig"); (".swift", "Swift");
    (".kt", "Kotlin"); (".kts", "Kotlin"); (".java", "Java");
    (".scala", "Scala"); (".clj", "Clojure"); (".groovy", "Groovy");
    (".gradle", "Groovy"); (".py", "Python"); (".pyw", "Python");
    (".pyi", "Python"); (".rb", "Ruby"); (".erb", "Ruby"); (".php", "PHP");
    (".pl", "Perl"); (".pm", "Perl"); (".lua", "Lua"); (".r", "R");
    (".R", "R"); (".jl", "Julia"); (".sh", "Shell"); (".bash", "Shell");
    (".zsh", "Shell"); (".fish", "Shell"); (".ps1", "PowerShell");
    (".bat", "Batchfile"); (".cmd", "Batchfile"); (".json", "JSON");
    (".yaml", "YAML"); (".yml", "YAML"); (".toml", "TOML"); (".xml", "XML");
    (".ini", "INI"); (".cu", "Cuda"); (".cuh", "Cuda"); (".metal", "Metal");
    (".glsl", "GLSL"); (".vert", "GLSL"); (".frag", "GLSL");
    (".wgsl", "WGSL"); (".hlsl", "HLSL"); (".cmake", "CMake"); (".cs", "C#");
    (".fs", "F#"); (".vb", "Visual Basic"); (".ex", "Elixir");
    (".exs", "Elixir"); (".erl", "Erlang"); (".hrl", "Erlang");
    (".hs", "Haskell"); (".lhs", "Haskell"); (".ml", "OCaml");
    (".mli", "OCaml"); (".dart", "Dart"); (".sol", "Solidity"); (".v", "V");
    (".nim", "Nim"); (".d", "D"); (".cr", "Crystal"); (".md", "Markdown");
    (".rst", "reStructuredText"); (".tex", "TeX"); (".latex", "TeX") ].

Definition FILENAME_TO_LANGUAGE : list (string * string) :=
  [ ("Dockerfile", "Dockerfile"); ("Makefile", "Makefile");
    ("CMakeLists.txt", "CMake"); ("Rakefile", "Ruby"); ("Gemfile", "Ruby");
    ("Vagrantfile", "Ruby"); ("Justfile", "Just"); ("Taskfile.yml", "YAML") ].

Definition SKIP_DIRS : list string :=
  [ "node_modules"; ".git"; ".svn"; ".hg"; "dist"; "build"; "out"; ".next";
    ".nuxt"; "__pycache__"; ".pytest_cache"; ".mypy_cache"; "venv"; ".venv";
    "env"; ".env"; "vendor"; "target"; ".cargo"; "coverage"; ".idea";
    ".vscode"; "tmp"; "temp"; "logs"; ".cache"; ".parcel-cache"; ".turbo";
    ".output"; "bower_components"; "jspm_packages"; "zig-cache"; "zig-out" ].

Definition SKIP_EXTENSIONS : list string :=
  [ ".png"; ".jpg"; ".jpeg"; ".gif"; ".ico"; ".svg"; ".webp"; ".bmp"; ".mp3";
    ".mp4"; ".wav"; ".avi"; ".mov"; ".flac"; ".ogg"; ".zip"; ".tar"; ".gz";
    ".bz2"; ".xz"; ".7z"; ".rar"; ".woff"; ".woff2"; ".ttf"; ".eot"; ".otf";
    ".pdf"; ".doc"; ".docx"; ".xls"; ".xlsx"; ".exe"; ".dll"; ".so";
    ".dylib"; ".o"; ".obj"; ".a"; ".lock"; ".lockb"; ".map"; ".min.js";
    ".min.css"; ".pyc"; ".pyo"; ".class"; ".db"; ".sqlite"; ".sqlite3" ].

Definition EXCLUDE_FROM_PERCENTAGES : list string :=
  [ "JSON"; "YAML"; "TOML"; "XML"; "INI"; "Markdown"; "reStructuredText";
    "TeX" ].

(** [Set.prototype.has] on a set of strings. *)
Definition has (set : list string) (x : string) : bool := includes set x.

(** *** The directory walk *)

(** What [readdir] with [withFileTypes] reports of an entry: its name and
    the type of the entry itself.  Of [isFile], [isDirectory] and
    [isSymbolicLink] exactly one holds, or none for a FIFO, socket or
    device; for a symbolic link it is [isSymbolicLink], whatever the link
    points to. *)
Inductive Kind : Type :=
| IsFile
| IsDirectory
| IsSymbolicLink
| IsOther.

Record Dirent := {
  dirent_name : string;
  dirent_kind : Kind
}.

(** The file system as the scanner reads it, by path: what [fs.readdir],
    [fs.stat] (the size), [fs.access] and [fs.readFile] resolve with;
    [None] and [false] are calls that throw.  A path may run through
    symbolic links, so nothing makes the listings behind a path finite. *)
Record FileSystem := {
  readdir : string -> option (list Dirent);
  stat : string -> option Z;
  access : string -> bool;
  readFile : string -> option string
}.

Definition startsWithDot (name : string) : bool :=
  match name with
  | String c _ => Path.isDot c
  | EmptyString => false
  end.

(** One turn of the loop of [walkDirectory] over [entries]; [calls] are the
    calls of [callback] made so far, [None] once the recursion, [walk], has
    not returned. *)
Definition visitEntry (walk : string -> option (list (string * Z)))
    (fs : FileSystem) (dirPath : string)
    (calls : option (list (string * Z))) (entry : Dirent)
  : option (list (string * Z)) :=
  match calls with
  | None => None
  | Some calls =>
      let fullPath := Path.join dirPath (dirent_name entry) in
      match dirent_kind entry with
      | IsDirectory =>
          if has SKIP_DIRS (dirent_name entry) || startsWithDot (dirent_name entry)
          then Some calls
          else
            match walk fullPath with
            | Some more => Some (calls ++ more)%list
            | None => None
            end
      | IsFile =>
          match stat fs fullPath with
          | Some size => Some (calls ++ [(fullPath, size)])%list
          | None => Some calls
          end
      | IsSymbolicLink | IsOther => Some calls
      end
  end.

(** [walkDirectory] on the file system: the calls [callback(fullPath,
    {size})] it makes, in order, when the recursion is at most [fuel] deep,
    and [None] when it is deeper. *)
Fixpoint walkDirectoryOn (fs : FileSystem) (fuel : nat) (dirPath : string)
  : option (list (string * Z)) :=
  match fuel with
  | O => None
  | S fuel =>
      match readdir fs dirPath with
      | None => Some []
      | Some entries =>
          fold_left (visitEntry (walkDirectoryOn fs fuel) fs dirPath) entries
            (Some [])
      end
  end.

(** A finite directory tree: each entry with what the file system answers
    for it, the size of a file and the listing of a directory ([None]: the
    call throws).  A symbolic link is a leaf: what lies behind it is not
    part of the tree. *)
#[warnings="-register-all"]
Inductive Entry : Type :=
| File (name : string) (size : option Z)
| Directory (name : string) (entries : option (list Entry))
| Symlink (name : string) (target : string)
| Other (name : string).

Definition entryName (e : Entry) : string :=
  match e with
  | File name _ | Directory name _ | Symlink name _ | Other name => name
  end.

Definition direntOf (e : Entry) : Dirent :=
  {| dirent_name := entryName e;
     dirent_kind :=
       match e with
       | File _ _ => IsFile
       | Directory _ _ => IsDirectory
       | Symlink _ _ => IsSymbolicLink
       | Other _ => IsOther
       end |}.

(** [walkDirectory] on a finite tree, by recursion on the tree: the calls
    of [callback] for the entry [entry] of the directory [dirPath]. *)
Fixpoint walkEntry (dirPath : string) (entry : Entry) : list (string * Z) :=
  let fullPath := Path.join dirPath (entryName entry) in
  match entry with
  | Directory name entries =>
      if has SKIP_DIRS name || startsWithDot name then []
      else
        match entries with
        | None => []
        | Some entries =>
            (fix walkEntries (l : list Entry) : list (string * Z) :=
               match l with
               | [] => []
               | e :: l => (walkEntry fullPath e ++ walkEntries l)%list
               end) entries
        end
  | File _ (Some size) => [(fullPath, size)]
  | File _ None => []
  | Symlink _ _ => []
  | Other _ => []
  end.

Definition walkEntries (dirPath : string) (entries : list Entry)
  : list (string * Z) :=
  flat_map (walkEntry dirPath) entries.

Definition walkDirectory (dirPath : string) (listing : option (list Entry))
  : list (string * Z) :=
  match listing with
  | None => []
  | Some entries => walkEntries dirPath entries
  end.

(** [table[key]] where a language is expected: the languages of the tables
    are non-empty strings; an inherited value is truthy and, used as a key
    of [languageBytes], becomes its text. *)
Definition languageAt (table : list (string * string)) (key : string)
  : option string :=
  match get table key with
  | Own language => Some language
  | Inherited text => Some text
  | Undefined => None
  end.

(** The language of a file, [None] when the callback returns early. *)
Definition classify (filePath : string) : option string :=
  let ext := toLowerCase (Path.extname filePath) in
  let basename := Path.basename filePath in
  if has SKIP_EXTENSIONS ext then None
  else
    match languageAt EXTENSION_TO_LANGUAGE ext with
    | Some language => Some language
    | None => languageAt FILENAME_TO_LANGUAGE basename
    end.

Record LanguageData := { bytes : Z; files : Z }.

(** [languageBytes]: an object whose keys keep their insertion order. *)
Fixpoint addFile (languageBytes : list (string * LanguageData))
    (language : string) (size : Z) : list (string * LanguageData) :=
  match languageBytes with
  | [] => [(language, {| bytes := 0 + size; files := 0 + 1 |})]
  | (key, data) :: rest =>
      if String.eqb key language
      then (key, {| bytes := bytes data + size; files := files data + 1 |}) :: rest
      else (key, data) :: addFile rest language size
  end.

Record ScanState := {
  languageBytes : list (string * LanguageData);
  totalFiles : Z;
  totalBytes : Z
}.

Definition emptyScan : ScanState :=
  {| languageBytes := []; totalFiles := 0; totalBytes := 0 |}.

(** The callback [scanLanguages] passes to [walkDirectory]. *)
Definition onFile (st : ScanState) (visit : string * Z) : ScanState :=
  let '(filePath, size) := visit in
  match classify filePath with
  | None => st
  | Some language =>
      {| languageBytes := addFile (languageBytes st) language size;
         totalFiles := totalFiles st + 1;
         totalBytes := totalBytes st + size |}
  end.

Record LanguageBreakdown := {
  language : string;
  lbBytes : Z;
  percentage : float;
  fileCount : Z
}.

(** [Array.prototype.sort] with [(a, b) => b.bytes - a.bytes]: a stable
    sort by decreasing bytes. *)
Fixpoint insertByBytes (x : LanguageBreakdown) (l : list LanguageBreakdown)
  : list LanguageBreakdown :=
  match l with
  | [] => [x]
  | y :: rest =>
      if (lbBytes x <? lbBytes y)%Z then y :: insertByBytes x rest
      else x :: y :: rest
  end.

Definition sortByBytes (l : list LanguageBreakdown) : list LanguageBreakdown :=
  fold_right insertByBytes [] l.

Definition notExcluded (entry : string * LanguageData) : bool :=
  negb (has EXCLUDE_FROM_PERCENTAGES (fst entry)).

Definition codeTotalBytes (languageBytes : list (string * LanguageData)) : Z :=
  fold_left (fun sum entry => (sum + bytes (snd entry))%Z)
    (List.filter notExcluded languageBytes) 0%Z.

(** The percentage is computed in binary64, as the source does: the
    division, then the multiplication by 100.  A byte count below 2^53 is
    a binary64 number. *)
Definition toBreakdown (codeTotal : Z) (entry : string * LanguageData)
  : LanguageBreakdown :=
  {| language := fst entry;
     lbBytes := bytes (snd entry);
     percentage :=
       if (0 <? codeTotal)%Z
       then (float_of_Z (bytes (snd entry)) / float_of_Z codeTotal * 100)%float
       else 0%float;
     fileCount := files (snd entry) |}.

Record LanguageResult := {
  languages : list LanguageBreakdown;
  primaryLanguage : string;
  resultFiles : Z;
  resultBytes : Z
}.

Definition summarize (st : ScanState) : LanguageResult :=
  let codeTotal := codeTotalBytes (languageBytes st) in
  let languages :=
    sortByBytes
      (map (toBreakdown codeTotal)
         (List.filter notExcluded (languageBytes st))) in
  {| languages := languages;
     primaryLanguage :=
       match languages with
       | first :: _ => language first
       | [] => "Unknown"
       end;
     resultFiles := totalFiles st;
     resultBytes := totalBytes st |}.

(** [scanLanguages] on a project root with the given listing. *)
Definition scanVisits (visits : list (string * Z)) : ScanState :=
  fold_left onFile visits emptyScan.

Definition scanLanguages (projectRoot : string)
    (listing : option (list Entry)) : LanguageResult :=
  summarize (scanVisits (walkDirectory projectRoot listing)).

(** *** The README probe *)

Definition README_CANDIDATES : list string :=
  [ "README.md"; "readme.md"; "Readme.md"; "README.rst"; "README.txt"; "README" ].

Definition findReadme (fs : FileSystem) (projectRoot : string) : option string :=
  List.find (fun fullPath => access fs fullPath)
    (map (Path.join projectRoot) README_CANDIDATES).

Record ReadmeContext := {
  readme_exists : bool;
  readme_name : option string;
  readme_description : option string;
  readme_who : option string;
  readme_what : option string;
  readme_why : option string;
  readme_where : option string;
  readme_when : option string;
  readme_how : option string
}.

Definition absentReadme : ReadmeContext :=
  {| readme_exists := false; readme_name := None; readme_description := None;
     readme_who := None; readme_what := None; readme_why := None;
     readme_where := None; readme_when := None; readme_how := None |}.

(** [parseReadme]; [parse] is the structural parser of the content, which
    is not modelled. *)
Definition parseReadme (fs : FileSystem) (parse : string -> ReadmeContext)
    (projectRoot : string) : ReadmeContext :=
  match findReadme fs projectRoot with
  | None => absentReadme
  | Some readmePath =>
      match readFile fs readmePath with
      | None => absentReadme
      | Some content =>
          let parsed := parse content in
          {| readme_exists := true;
             readme_name := readme_name parsed;
             readme_description := readme_description parsed;
             readme_who := readme_who parsed;
             readme_what := readme_what parsed;
             readme_why := readme_why parsed;
             readme_where := readme_where parsed;
             readme_when := readme_when parsed;
             readme_how := readme_how parsed |}
      end
  end.

(** [LocalScanResult], as far as the generator reads it. *)
Record LocalScanResult := {
  scan_primaryLanguage : string;
  scan_languageStrings : list string;
  scan_readme : ReadmeContext;
  scan_hasLicense : bool;
  scan_licenseName : option string;
  scan_hasTests : bool;
  scan_hasCiCd : bool;
  scan_cicdPlatform : option string;
  scan_hasDocker : bool;
  scan_topLevelPaths : list string     (* topLevelStructure.map(f => f.path) *)
}.

(** *** License, tests, CI/CD and Docker *)

Definition licenseFiles : list string :=
  [ "LICENSE"; "LICENSE.md"; "LICENSE.txt"; "LICENCE"; "LICENCE.md"; "COPYING" ].

Definition identifyLicense (content : string) : string :=
  let upper := toUpperCase content in
  if contains "MIT LICENSE" upper || contains "PERMISSION IS HEREBY GRANTED" upper
  then "MIT"
  else if contains "APACHE LICENSE" upper && contains "VERSION 2.0" upper
  then "Apache-2.0"
  else if contains "GNU GENERAL PUBLIC LICENSE" upper && contains "VERSION 3" upper
  then "GPL-3.0"
  else if contains "GNU GENERAL PUBLIC LICENSE" upper && contains "VERSION 2" upper
  then "GPL-2.0"
  else if contains "GNU LESSER GENERAL PUBLIC" upper then "LGPL"
  else if contains "BSD 2-CLAUSE" upper || contains "SIMPLIFIED BSD" upper
  then "BSD-2-Clause"
  else if contains "BSD 3-CLAUSE" upper || contains "NEW BSD" upper
  then "BSD-3-Clause"
  else if contains "ISC LICENSE" upper then "ISC"
  else if contains "MOZILLA PUBLIC LICENSE" upper then "MPL-2.0"
  else if contains "UNLICENSE" upper || contains "PUBLIC DOMAIN" upper
  then "Unlicense"
  else if contains "CREATIVE COMMONS" upper then "CC"
  else "Custom".

Record LicenseResult := {
  hasLicense : bool;
  licenseName : option string
}.

Definition detectLicense (fs : FileSystem) (projectRoot : string)
  : LicenseResult :=
  match firstOf (fun name => readFile fs (Path.join projectRoot name))
          licenseFiles with
  | Some content =>
      {| hasLicense := true; licenseName := Some (identifyLicense content) |}
  | None => {| hasLicense := false; licenseName := None |}
  end.

Definition testDirs : list string :=
  [ "test"; "tests"; "__tests__"; "spec"; "specs"; "test_"; "testing" ].

Definition testConfigs : list string :=
  [ "jest.config.js"; "jest.config.ts"; "vitest.config.ts";
    "pytest.ini"; "setup.cfg"; "tox.ini";
    "cypress.config.js"; "playwright.config.ts";
    ".rspec" ].

(** [isDirectory path] is [(await fs.stat(path)).isDirectory()], of what
    the path resolves to; [None] when [fs.stat] throws. *)
Definition detectTests (fs : FileSystem) (isDirectory : string -> option bool)
    (projectRoot : string) : bool :=
  existsb (fun dir =>
             match isDirectory (Path.join projectRoot dir) with
             | Some true => true
             | _ => false
             end) testDirs
  || existsb (fun config => access fs (Path.join projectRoot config))
       testConfigs.

Definition ciChecks : list (string * string) :=
  [ (".github/workflows", "GitHub Actions");
    (".gitlab-ci.yml", "GitLab CI");
    ("Jenkinsfile", "Jenkins");
    (".circleci/config.yml", "CircleCI");
    (".travis.yml", "Travis CI");
    ("azure-pipelines.yml", "Azure Pipelines");
    ("bitbucket-pipelines.yml", "Bitbucket Pipelines");
    (".drone.yml", "Drone CI") ].

Record CiCdResult := {
  hasCiCd : bool;
  platform : option string
}.

Definition detectCiCd (fs : FileSystem) (projectRoot : string) : CiCdResult :=
  match firstOf (fun check =>
                   if access fs (Path.join projectRoot (fst check))
                   then Some (snd check) else None) ciChecks with
  | Some platform => {| hasCiCd := true; platform := Some platform |}
  | None => {| hasCiCd := false; platform := None |}
  end.

Definition dockerFiles : list string :=
  [ "Dockerfile"; "docker-compose.yml"; "docker-compose.yaml"; ".dockerignore" ].

Definition detectDocker (fs : FileSystem) (projectRoot : string) : bool :=
  existsb (fun file => access fs (Path.join projectRoot file)) dockerFiles.

(** *** The top-level structure *)

Record StructureEntry := {
  entry_path : string;
  entry_type : string;      (* 'file' or 'dir' *)
  entry_size : Z
}.

(** One turn of the loop of [scanTopLevelStructure]: the entry pushed, if
    any. *)
Definition topLevelEntry (fs : FileSystem) (projectRoot : string)
    (entry : Dirent) : option StructureEntry :=
  let name := dirent_name entry in
  if startsWithDot name && negb (String.eqb name ".github")
     && negb (String.eqb name ".devops")
  then None
  else
    match stat fs (Path.join projectRoot name) with
    | Some size =>
        let isDirectory :=
          match dirent_kind entry with
          | IsDirectory => true
          | _ => false
          end in
        Some {| entry_path := name;
                entry_type := if isDirectory then "dir" else "file";
                entry_size := if isDirectory then 0 else size |}
    | None => None
    end.

Fixpoint pushed {A B : Type} (f : A -> option B) (xs : list A) : list B :=
  match xs with
  | [] => []
  | x :: rest =>
      match f x with
      | Some y => y :: pushed f rest
      | None => pushed f rest
      end
  end.

(** [results.sort((a, b) => a.path.localeCompare(b.path))]: a stable sort;
    [localeCompare a b] tells whether [a.localeCompare(b)] is positive in
    the collation of the host, which is not modelled. *)
Fixpoint insertByPath (localeCompare : string -> string -> bool)
    (x : StructureEntry) (l : list StructureEntry) : list StructureEntry :=
  match l with
  | [] => [x]
  | y :: rest =>
      if localeCompare (entry_path x) (entry_path y)
      then y :: insertByPath localeCompare x rest
      else x :: y :: rest
  end.

Definition scanTopLevelStructure (localeCompare : string -> string -> bool)
    (fs : FileSystem) (projectRoot : string) : list StructureEntry :=
  match readdir fs projectRoot with
  | Some entries =>
      fold_right (insertByPath localeCompare) []
        (pushed (topLevelEntry fs projectRoot) entries)
  | None => []
  end.

(** *** The quality score *)

Record QualityFactors := {
  has_description : bool;
  has_readme : bool;
  has_license : bool;
  has_tests : bool;
  has_cicd : bool;
  has_docker : bool;
  has_multiple_languages : bool;
  has_structured_readme : bool
}.

Definition calculateQualityScore (factors : QualityFactors)
    (langResult : LanguageResult) (readmeResult : ReadmeContext) : Z :=
  let score := 0%Z in
  let score := if has_readme factors then (score + 15)%Z else score in
  let score := if has_description factors then (score + 15)%Z else score in
  let score := if has_structured_readme factors then (score + 10)%Z else score in
  let score := if has_license factors then (score + 10)%Z else score in
  let score := if has_tests factors then (score + 10)%Z else score in
  let score := if has_cicd factors then (score + 10)%Z else score in
  let score := if has_docker factors then (score + 5)%Z else score in
  let languageCount := List.length (languages langResult) in
  let score :=
    if (3 <=? languageCount)%nat then (score + 10)%Z
    else if (2 <=? languageCount)%nat then (score + 5)%Z
    else score in
  let score :=
    if (50 <=? resultFiles langResult)%Z then (score + 10)%Z
    else if (20 <=? resultFiles langResult)%Z then (score + 7)%Z
    else if (5 <=? resultFiles langResult)%Z then (score + 3)%Z
    else score in
  let wCount :=
    List.length
      (List.filter truthy
         [ readme_who readmeResult; readme_what readmeResult;
           readme_why readmeResult; readme_where readmeResult;
           readme_when readmeResult; readme_how readmeResult ]) in
  let score := if (3 <=? wCount)%nat then (score + 5)%Z else score in
  Z.min 100 score.

(** The tiers, with their emoji in UTF-8. *)
Definition getScoreTier (score : Z) : string :=
  if (100 <=? score)%Z then "🏆 Trophy"
  else if (99 <=? score)%Z then "🥇 Gold"
  else if (95 <=? score)%Z then "🥈 Silver"
  else if (85 <=? score)%Z then "🥉 Bronze"
  else if (70 <=? score)%Z then "🟢 Green"
  else if (55 <=? score)%Z then "🟡 Yellow"
  else if (0 <? score)%Z then "🔴 Red"
  else "🤍 White".

(** The quality factors [scan] computes from the results of its parts;
    [sectionCount] is the number of keys of [readmeResult.sections]. *)
Definition qualityFactors (languageResult : LanguageResult)
    (readmeResult : ReadmeContext) (sectionCount : nat)
    (licenseResult : LicenseResult) (hasTests : bool)
    (cicdResult : CiCdResult) (hasDocker : bool) : QualityFactors :=
  {| has_description := truthy (readme_description readmeResult);
     has_readme := readme_exists readmeResult;
     has_license := hasLicense licenseResult;
     has_tests := hasTests;
     has_cicd := hasCiCd cicdResult;
     has_docker := hasDocker;
     has_multiple_languages :=
       (2 <=? List.length (languages languageResult))%nat;
     has_structured_readme := (3 <=? sectionCount)%nat |}.

(** The quality score and tier of [scan]. *)
Definition scanQuality (languageResult : LanguageResult)
    (readmeResult : ReadmeContext) (sectionCount : nat)
    (licenseResult : LicenseResult) (hasTests : bool)
    (cicdResult : CiCdResult) (hasDocker : bool) : Z * string :=
  let factors :=
    qualityFactors languageResult readmeResult sectionCount licenseResult
      hasTests cicdResult hasDocker in
  let qualityScore :=
    calculateQualityScore factors languageResult readmeResult in
  (qualityScore, getScoreTier qualityScore).

End Scanner.
(** ** The generator: slot tables, slot filling and the type-aware scorer *)
Module Generator.
Import JS Scanner.

Definition SLOT_CATEGORY_MAP : list (string * string) :=
  [ ("project_name", "project"); ("project_goal", "project");
    ("main_language", "project");
    ("framework", "frontend");
    ("backend", "backend"); ("server", "backend"); ("api_type", "backend");
    ("database", "backend");
    ("hosting", "universal"); ("cicd", "universal");
    ("build_tool", "universal"); ("package_manager", "universal");
    ("test_framework", "universal"); ("linter", "universal");
    ("who", "human"); ("what", "human"); ("why", "human");
    ("where", "human"); ("when", "human"); ("how", "human") ].

Definition puh := ["project"; "universal"; "human"].
Definition pbh := ["project"; "backend"; "human"].
Definition pbuh := ["project"; "backend"; "universal"; "human"].
Definition pfuh := ["project"; "frontend"; "universal"; "human"].
Definition pfh := ["project"; "frontend"; "human"].
Definition all_categories :=
  ["project"; "frontend"; "backend"; "universal"; "human"].
Definition ph := ["project"; "human"].

Definition TYPE_APPLICABLE_CATEGORIES : list (string * list string) :=
  [ ("cli", puh); ("cli-tool", puh); ("cli-ts", puh); ("cli-js", puh);
    ("library", puh); ("npm-package", puh); ("pip-package", puh);
    ("crate", puh); ("typescript", puh);
    ("data-science", pbh); ("ml-model", pbh); ("mcp-server", pbh);
    ("backend-api", pbuh); ("node-api", pbuh); ("node-api-ts", pbuh);
    ("python-api", pbuh); ("python-app", pbh); ("python-generic", pbh);
    ("go-api", pbuh); ("rust-api", pbuh);
    ("frontend", pfuh); ("react", pfuh); ("react-ts", pfuh); ("vue", pfuh);
    ("vue-ts", pfuh); ("svelte", pfuh); ("svelte-ts", pfuh);
    ("angular", pfuh); ("static-html", pfh);
    ("fullstack", all_categories); ("fullstack-ts", all_categories);
    ("nextjs", all_categories); ("django", all_categories);
    ("rails", all_categories);
    ("mobile", pfh); ("react-native", pfh); ("flutter", pfh); ("ios", pfh);
    ("android", pfh);
    ("desktop", pfh); ("electron", pfh); ("tauri", pfh);
    ("terraform", ph); ("kubernetes", ph); ("docker", ph);
    ("infrastructure", ph);
    ("documentation", ph); ("cookbook", ph) ].

(** [getApplicableSlots]: the slots whose category the type declares.  For
    a type that names an inherited property, [categories] is a function (or
    [Object.prototype]) without a method [includes], and the first call of
    the filter throws. *)
Definition categoriesOf (projectType : string) : Result (list string) :=
  match get TYPE_APPLICABLE_CATEGORIES projectType with
  | Own categories => Ok categories
  | Inherited _ => Throw TypeError
  | Undefined => Ok all_categories
  end.

Definition slotApplies (categories : list string) (slot : string) : bool :=
  match prop SLOT_CATEGORY_MAP slot with
  | Some category => includes categories category
  | None => false
  end.

Definition getApplicableSlots (projectType : string) : Result (list string) :=
  bind (categoriesOf projectType) (fun categories =>
  let allSlots := map fst SLOT_CATEGORY_MAP in
  Ok (List.filter (slotApplies categories) allSlots)).

(** Maps AI-suggested project types to the keys of the table above. *)
Definition AI_TYPE_TO_FAF_TYPE : list (string * string) :=
  [ ("cli", "cli"); ("library", "library"); ("web-app", "frontend");
    ("api", "backend-api"); ("mobile-app", "mobile");
    ("desktop-app", "desktop"); ("framework", "library"); ("tool", "cli");
    ("plugin", "library"); ("data-science", "data-science");
    ("devops", "infrastructure") ].

(** [DetectionResult] of the framework detector. *)
Record DetectionResult := {
  fw_framework : string;
  fw_language : option string;
  fw_ecosystem : option string
}.

(** Truthiness of [TYPE_APPLICABLE_CATEGORIES[key]]: an array and an
    inherited value are truthy. *)
Definition isTypeKey (key : string) : bool :=
  match get TYPE_APPLICABLE_CATEGORIES key with
  | Own _ | Inherited _ => true
  | Undefined => false
  end.

Definition inferProjectType (scanResult : LocalScanResult)
    (aiProjectType : option string) (frameworkResult : option DetectionResult)
    (originalType : option string) : string :=
  let fromAI :=
    match aiProjectType with
    | Some ai =>
        if truthy (Some ai) then
          match get AI_TYPE_TO_FAF_TYPE ai with
          | Own mapped | Inherited mapped =>
              (* an inherited [mapped] is looked up under its text *)
              if truthy (Some mapped) && isTypeKey mapped then Some mapped
              else if isTypeKey ai then Some ai else None
          | Undefined => if isTypeKey ai then Some ai else None
          end
        else None
    | None => None
    end in
  match fromAI with
  | Some t => t
  | None =>
      let fromFramework :=
        match frameworkResult with
        | Some r =>
            if truthy (Some (fw_framework r)) then
              let fw := dashSpaces false (toLowerCase (fw_framework r)) in
              if isTypeKey fw then Some fw else None
            else None
        | None => None
        end in
      match fromFramework with
      | Some t => t
      | None =>
          if includes ["C"; "C++"; "Rust"; "Go"; "Zig"]
               (scan_primaryLanguage scanResult)
          then "library"
          else
            match originalType with
            | Some t =>
                if truthy (Some t) && isTypeKey t then t else "fullstack"
            | None => "fullstack"
            end
      end
  end.

Definition technicalSlots : list string :=
  [ "project_name"; "project_goal"; "main_language"; "framework";
    "backend"; "server"; "api_type"; "database"; "hosting";
    "cicd"; "build_tool"; "package_manager"; "test_framework"; "linter" ].

Definition humanSlots : list string :=
  [ "who"; "what"; "why"; "where"; "when"; "how" ].

(** [contextSlotsFilled]: slot name to value. *)
Definition filled (slots : gmap string string) (slot : string) : bool :=
  truthy (slots !! slot).

(** *** Slot filling *)

Record GenerateOptions := {
  opt_projectType : option string;
  opt_projectRoot : option string;   (* [None]: missing, or not a string *)
  opt_projectName : option string;
  opt_projectGoal : option string;
  opt_mainLanguage : option string;
  opt_framework : option string;
  opt_hosting : option string
}.

Record AIReadmeResult := {
  ai_description : string;
  ai_who : option string;
  ai_what : option string;
  ai_why : option string;
  ai_where : option string;
  ai_when : option string;
  ai_how : option string;
  ai_projectType : option string
}.

(** [fabAnalysis.context]. *)
Record FabContext := {
  ctx_projectName : option string;
  ctx_projectGoal : option string;
  ctx_mainLanguage : option string;
  ctx_framework : option string;
  ctx_backend : option string;
  ctx_server : option string;
  ctx_apiType : option string;
  ctx_database : option string;
  ctx_hosting : option string;
  ctx_cicd : option string;
  ctx_buildTool : option string;
  ctx_packageManager : option string;
  ctx_testFramework : option string;
  ctx_linter : option string;
  ctx_targetUser : option string;
  ctx_coreProblem : option string;
  ctx_missionPurpose : option string;
  ctx_deploymentMarket : option string;
  ctx_timeline : option string;
  ctx_approach : option string
}.

(** [humanContext.who.value] and the like. *)
Record HumanContext := {
  hc_who : option string;
  hc_what : option string;
  hc_why : option string;
  hc_where : option string;
  hc_when : option string;
  hc_how : option string
}.

(** The name and description read from a manifest. *)
Record Manifest := {
  manifest_name : option string;
  manifest_description : option string
}.

(** Truthiness of the entries of [deps] the generator looks at. *)
Record Deps := {
  dep_chalk : bool; dep_colors : bool; dep_ora : bool;
  dep_inquirer : bool; dep_prompts : bool; dep_enquirer : bool;
  dep_commander : bool; dep_yargs : bool; dep_oclif : bool;
  dep_typescript : bool; dep_typesNode : bool;
  dep_jest : bool; dep_mocha : bool; dep_vitest : bool
}.

(** Everything the slot-filling part of [generateFafFromProject] reads. *)
Record SlotSources := {
  options : GenerateOptions;
  scanResult : LocalScanResult;
  frameworkResult : option DetectionResult;
  aiResult : option AIReadmeResult;
  fabContext : option FabContext;
  humanContext : option HumanContext;
  isRustCLI : bool;
  cargoTomlData : Manifest;
  isNodeCLI : bool;
  deps : Deps;
  enginesNode : option string;          (* packageData.engines?.node *)
  githubWorkflowsExists : bool;
  isBunProject : bool;
  packageData : Manifest;
  pyprojectData : Manifest
}.

(** [slots[slot] = value]. *)
Definition assign (slot value : string) (slots : gmap string string)
  : gmap string string :=
  <[slot := value]> slots.

(** [if (value) slots[slot] = value]. *)
Definition assignIf (value : option string) (slot : string)
    (slots : gmap string string) : gmap string string :=
  match value with
  | Some v => if truthy (Some v) then <[slot := v]> slots else slots
  | None => slots
  end.

(** [if (value && !slots[slot]) slots[slot] = value]. *)
Definition fillIfEmpty (value : option string) (slot : string)
    (slots : gmap string string) : gmap string string :=
  match value with
  | Some v =>
      if truthy (Some v) && negb (filled slots slot)
      then <[slot := v]> slots else slots
  | None => slots
  end.

(** [if (!slots[slot]) slots[slot] = value]. *)
Definition assignIfEmpty (slot value : string)
    (slots : gmap string string) : gmap string string :=
  if filled slots slot then slots else <[slot := value]> slots.

(** [if (condition) ...]. *)
Definition when (condition : bool)
    (op : gmap string string -> gmap string string)
    (slots : gmap string string) : gmap string string :=
  if condition then op slots else slots.

(** [value && value !== excluded]. *)
Definition unless (excluded : string) (value : option string) : option string :=
  match value with
  | Some v => if String.eqb v excluded then None else Some v
  | None => None
  end.

(** Quick mode: what the user gave explicitly. *)
Definition quickMode (o : GenerateOptions)
  : list (gmap string string -> gmap string string) :=
  [ assignIf (opt_projectGoal o) "project_goal";
    assignIf (opt_projectName o) "project_name";
    assignIf (opt_mainLanguage o) "main_language";
    assignIf (unless "none" (opt_framework o)) "framework";
    assignIf (unless "cloud" (opt_hosting o)) "hosting" ].

(** Primary language from the scan. *)
Definition scannedLanguage (scan : LocalScanResult)
  : list (gmap string string -> gmap string string) :=
  [ assignIf (unless "Unknown" (Some (scan_primaryLanguage scan))) "main_language" ].

(** Framework detection results. *)
Definition detectedFramework (frameworkResult : option DetectionResult)
  : list (gmap string string -> gmap string string) :=
  match frameworkResult with
  | Some r =>
      if negb (String.eqb (fw_framework r) "Unknown") then
        [ assignIfEmpty "framework" (fw_framework r);
          fillIfEmpty (fw_language r) "main_language";
          assignIf (fw_ecosystem r) "package_manager" ]
      else []
  | None => []
  end.

(** AI results. *)
Definition aiContext (aiResult : option AIReadmeResult)
  : list (gmap string string -> gmap string string) :=
  match aiResult with
  | Some ai =>
      [ fillIfEmpty (Some (ai_description ai)) "project_goal";
        fillIfEmpty (ai_who ai) "who";
        fillIfEmpty (ai_what ai) "what";
        fillIfEmpty (ai_why ai) "why";
        fillIfEmpty (ai_where ai) "where";
        fillIfEmpty (ai_when ai) "when";
        fillIfEmpty (ai_how ai) "how";
        assignIf (ai_projectType ai) "_ai_project_type" ]
  | None => []
  end.

(** Local README-derived context. *)
Definition readmeContext (readme : ReadmeContext)
  : list (gmap string string -> gmap string string) :=
  if readme_exists readme then
    [ fillIfEmpty (readme_name readme) "project_name";
      fillIfEmpty (readme_description readme) "project_goal";
      fillIfEmpty (readme_who readme) "who";
      fillIfEmpty (readme_what readme) "what";
      fillIfEmpty (readme_why readme) "why";
      fillIfEmpty (readme_where readme) "where";
      fillIfEmpty (readme_when readme) "when";
      fillIfEmpty (readme_how readme) "how" ]
  else [].

Definition buildToolOf (topFiles : list string) : option string :=
  if includes topFiles "CMakeLists.txt" then Some "CMake"
  else if includes topFiles "Makefile" then Some "Make"
  else if includes topFiles "meson.build" then Some "Meson"
  else if includes topFiles "build.gradle" || includes topFiles "build.gradle.kts"
  then Some "Gradle"
  else if includes topFiles "pom.xml" then Some "Maven"
  else if includes topFiles "build.zig" then Some "Zig Build"
  else None.

(** License, CI/CD, tests, Docker and build tool. *)
Definition detectedSignals (scan : LocalScanResult)
  : list (gmap string string -> gmap string string) :=
  [ when (scan_hasLicense scan) (assignIf (scan_licenseName scan) "license");
    when (scan_hasCiCd scan) (assignIf (scan_cicdPlatform scan) "cicd");
    when (scan_hasTests scan) (assign "test_framework" "Detected (tests/ directory)");
    when (scan_hasDocker scan) (assignIfEmpty "hosting" "Docker");
    match buildToolOf (scan_topLevelPaths scan) with
    | Some tool => assignIfEmpty "build_tool" tool
    | None => fun slots => slots
    end ].

(** "Framework detector can provide additional context". *)
Definition frameworkFallback (frameworkResult : option DetectionResult)
  : list (gmap string string -> gmap string string) :=
  match frameworkResult with
  | Some r => [ assignIfEmpty "framework" (fw_framework r) ]
  | None => []
  end.

(** Championship context extraction. *)
Definition championshipContext (context : option FabContext)
  : list (gmap string string -> gmap string string) :=
  match context with
  | Some ctx =>
      [ fillIfEmpty (ctx_projectName ctx) "project_name";
        fillIfEmpty (ctx_projectGoal ctx) "project_goal";
        assignIf (ctx_mainLanguage ctx) "main_language";
        assignIf (ctx_framework ctx) "framework";
        assignIf (ctx_backend ctx) "backend";
        assignIf (ctx_server ctx) "server";
        assignIf (ctx_apiType ctx) "api_type";
        assignIf (ctx_database ctx) "database";
        assignIf (ctx_hosting ctx) "hosting";
        assignIf (ctx_cicd ctx) "cicd";
        assignIf (ctx_buildTool ctx) "build_tool";
        assignIf (ctx_packageManager ctx) "package_manager";
        assignIf (ctx_testFramework ctx) "test_framework";
        assignIf (ctx_linter ctx) "linter";
        fillIfEmpty (ctx_targetUser ctx) "who";
        fillIfEmpty (ctx_coreProblem ctx) "what";
        fillIfEmpty (ctx_missionPurpose ctx) "why";
        fillIfEmpty (ctx_deploymentMarket ctx) "where";
        fillIfEmpty (ctx_timeline ctx) "when";
        fillIfEmpty (ctx_approach ctx) "how" ]
  | None => []
  end.

(** RELENTLESS human context extraction. *)
Definition relentlessContext (humanContext : option HumanContext)
  : list (gmap string string -> gmap string string) :=
  match humanContext with
  | Some hc =>
      [ fillIfEmpty (hc_who hc) "who";
        fillIfEmpty (hc_what hc) "what";
        fillIfEmpty (hc_why hc) "why";
        fillIfEmpty (hc_where hc) "where";
        fillIfEmpty (hc_when hc) "when";
        fillIfEmpty (hc_how hc) "how" ]
  | None => []
  end.

(** Rust CLI: smart slot assignment. *)
Definition rustCli (isRustCLI : bool) (cargoTomlData : Manifest)
  : list (gmap string string -> gmap string string) :=
  if isRustCLI then
    [ assign "framework" "CLI";
      assign "api_type" "CLI";
      assign "hosting" "crates.io / Binary distribution";
      assign "backend" "Rust";
      assign "main_language" "Rust";
      assign "build_tool" "Cargo";
      assign "package_manager" "Cargo";
      assign "runtime" "Native binary";
      assign "css_framework" "N/A (CLI)";
      assign "ui_library" "N/A (CLI)";
      assign "database" "N/A (CLI)";
      assign "frontend" "N/A (CLI)";
      fillIfEmpty (manifest_name cargoTomlData) "project_name";
      fillIfEmpty (manifest_description cargoTomlData) "project_goal" ]
  else [].

Definition terminalUi (d : Deps) : option string :=
  if dep_chalk d then Some "chalk (terminal colors)"
  else if dep_colors d then Some "colors"
  else if dep_ora d then Some "ora"
  else None.

Definition interactiveUi (d : Deps) : option string :=
  if dep_inquirer d then Some "inquirer (interactive prompts)"
  else if dep_prompts d then Some "prompts"
  else if dep_enquirer d then Some "enquirer"
  else None.

Definition cliFramework (d : Deps) : option string :=
  if dep_commander d then Some "commander"
  else if dep_yargs d then Some "yargs"
  else if dep_oclif d then Some "oclif"
  else None.

Definition testFramework (d : Deps) : option string :=
  if dep_jest d then Some "Jest"
  else if dep_mocha d then Some "Mocha"
  else if dep_vitest d then Some "Vitest"
  else None.

(** Node.js CLI: smart slot reuse. *)
Definition nodeCli (src : SlotSources)
  : list (gmap string string -> gmap string string) :=
  if isNodeCLI src then
    [ assign "framework" "CLI";
      assign "api_type" "CLI";
      assign "hosting" "npm registry";
      assign "backend" "Node.js";
      assignIf (terminalUi (deps src)) "css_framework";
      assignIf (interactiveUi (deps src)) "ui_library";
      assignIf (cliFramework (deps src)) "cli_framework";
      if isBunProject src then assign "runtime" "Bun"
      else if truthy (enginesNode src)
      then assign "runtime" ("Node.js " ++ default EmptyString (enginesNode src))
      else assign "runtime" "Node.js v16+";
      when (isBunProject src) (assign "package_manager" "Bun");
      when (dep_typescript (deps src) || dep_typesNode (deps src))
        (assign "build_tool" "TypeScript (tsc)");
      assignIf (testFramework (deps src)) "test_framework";
      when (githubWorkflowsExists src) (assign "cicd" "GitHub Actions") ]
  else [].

(** Bun detection, for every project. *)
Definition bunProject (isBunProject : bool)
  : list (gmap string string -> gmap string string) :=
  if isBunProject then
    [ assign "runtime" "Bun"; assign "package_manager" "Bun" ]
  else [].

(** package.json, pyproject.toml and README data, in that order. *)
Definition manifests (src : SlotSources)
  : list (gmap string string -> gmap string string) :=
  let readme := scan_readme (scanResult src) in
  let readmeData (field : option string) :=
    if readme_exists readme then field else None in
  [ fillIfEmpty (manifest_name (packageData src)) "project_name";
    fillIfEmpty (manifest_description (packageData src)) "project_goal";
    fillIfEmpty (manifest_name (pyprojectData src)) "project_name";
    fillIfEmpty (manifest_description (pyprojectData src)) "project_goal";
    fillIfEmpty (readmeData (readme_name readme)) "project_name";
    fillIfEmpty (readmeData (readme_description readme)) "project_goal";
    fillIfEmpty (readmeData (readme_who readme)) "who" ].

(** The writes to [contextSlotsFilled], in the order of the source. *)
Definition contributions (src : SlotSources)
  : list (gmap string string -> gmap string string) :=
  (quickMode (options src)
   ++ scannedLanguage (scanResult src)
   ++ detectedFramework (frameworkResult src)
   ++ aiContext (aiResult src)
   ++ readmeContext (scan_readme (scanResult src))
   ++ detectedSignals (scanResult src)
   ++ frameworkFallback (frameworkResult src)
   ++ championshipContext (fabContext src)
   ++ relentlessContext (humanContext src)
   ++ rustCli (isRustCLI src) (cargoTomlData src)
   ++ nodeCli src
   ++ bunProject (isBunProject src)
   ++ manifests src)%list.

Definition applyAll (ops : list (gmap string string -> gmap string string))
    (slots : gmap string string) : gmap string string :=
  fold_left (fun slots op => op slots) ops slots.

(** [contextSlotsFilled] when the scoring starts. *)
Definition fillSlots (src : SlotSources) : gmap string string :=
  applyAll (contributions src) ∅.

(** The part of [fabAnalysis.qualityMetrics] and of [tsContext] the
    scorer reads. *)
Record QualityMetrics := {
  highestGrade : string;
  intelligenceDepth : float;
  filesCovered : Z
}.

Record TypeScriptContext := { strictMode : bool }.

(** First pass: count the applicable slots of one list. *)
Definition countApplicable (applicableSlots slots : list string) : Z :=
  fold_left
    (fun n slot => if includes applicableSlots slot then (n + 1)%Z else n)
    slots 0%Z.

(** Second pass: each applicable, filled slot adds [points * slotScale]. *)
Definition scoreFilled (applicableSlots : list string)
    (slots : gmap string string) (points slotScale : float)
    (names : list string) (acc : Z * float) : Z * float :=
  fold_left
    (fun '(n, score) slot =>
       if includes applicableSlots slot && filled slots slot
       then ((n + 1)%Z, (score + points * slotScale)%float)
       else (n, score))
    names acc.

Definition gradeBonus (grade : string) (score : float) : float :=
  if String.eqb grade "EXCEPTIONAL" then (score + 20)%float
  else if String.eqb grade "PROFESSIONAL" then (score + 15)%float
  else if String.eqb grade "GOOD" then (score + 10)%float
  else if String.eqb grade "BASIC" then (score + 5)%float
  else score.

Definition depthBonus (depth : float) (score : float) : float :=
  if PrimFloat.ltb 80 depth then (score + 15)%float
  else if PrimFloat.ltb 60 depth then (score + 10)%float
  else if PrimFloat.ltb 40 depth then (score + 5)%float
  else score.

Definition typescriptBonus (tsContext : option TypeScriptContext)
    (score : float) : float :=
  match tsContext with
  | Some ts =>
      let score := (score + 5)%float in
      if strictMode ts then (score + 5)%float else score
  | None => score
  end.

Record ScoringResult := {
  technicalFilled : Z;
  humanFilled : Z;
  totalSlots : Z;          (* totalApplicable *)
  naSlots : Z;             (* naSlotCount *)
  applicableMaxRaw : Z;
  slotScale : float;
  enhancedScore : float;
  fafScore : float;
  slotBasedPercentage : float
}.

(** The type-aware scoring block of [generateFafFromProject], from the
    applicable slots on. *)
Definition scoreApplicable (applicableSlots : list string)
    (slots : gmap string string) (qualityMetrics : QualityMetrics)
    (tsContext : option TypeScriptContext) : ScoringResult :=
  let applicableTechCount := countApplicable applicableSlots technicalSlots in
  let applicableHumanCount := countApplicable applicableSlots humanSlots in
  let maxSlotPoints := 86%float in
  let applicableMaxRaw := (applicableTechCount * 4 + applicableHumanCount * 5)%Z in
  let slotScale :=
    if (0 <? applicableMaxRaw)%Z
    then (maxSlotPoints / float_of_Z applicableMaxRaw)%float
    else 1%float in
  let technicalPass :=
    scoreFilled applicableSlots slots 4 slotScale technicalSlots (0%Z, 0%float) in
  let technicalFilled := fst technicalPass in
  let humanPass :=
    scoreFilled applicableSlots slots 5 slotScale humanSlots
      (0%Z, snd technicalPass) in
  let humanFilled := fst humanPass in
  let enhancedScore := snd humanPass in
  let totalApplicable := (applicableTechCount + applicableHumanCount)%Z in
  let totalFilled := (technicalFilled + humanFilled)%Z in
  let naSlotCount := (20 - totalApplicable)%Z in
  let enhancedScore := gradeBonus (highestGrade qualityMetrics) enhancedScore in
  let enhancedScore := depthBonus (intelligenceDepth qualityMetrics) enhancedScore in
  let enhancedScore := typescriptBonus tsContext enhancedScore in
  let fafScore := Math_min (Math_round enhancedScore) 99 in
  {| technicalFilled := technicalFilled;
     humanFilled := humanFilled;
     totalSlots := totalApplicable;
     naSlots := naSlotCount;
     applicableMaxRaw := applicableMaxRaw;
     slotScale := slotScale;
     enhancedScore := enhancedScore;
     fafScore := fafScore;
     slotBasedPercentage :=
       if (0 <? totalApplicable)%Z
       then Math_round (float_of_Z totalFilled / float_of_Z totalApplicable * 100)%float
       else 0%float |}.

(** The scoring block with the call of [getApplicableSlots] before it. *)
Definition scoreSlots (inferredType : string) (slots : gmap string string)
    (qualityMetrics : QualityMetrics)
    (tsContext : option TypeScriptContext) : Result ScoringResult :=
  bind (getApplicableSlots inferredType) (fun applicableSlots =>
  Ok (scoreApplicable applicableSlots slots qualityMetrics tsContext)).

(** *** [generateFafFromProject] *)

(** [call x <- r; k]: [k] runs on what [r] returns; what [r] throws
    propagates. *)
Notation "'call' x <- r ; k" := (bind r (fun x => k))
  (at level 10, x name, r at level 100, k at level 200, only parsing).

Record FabFormatsAnalysis := {
  fab_context : option FabContext;
  fab_qualityMetrics : QualityMetrics
}.

(** The fallback of the generator when [processFiles] throws. *)
Definition emptyAnalysis : FabFormatsAnalysis :=
  {| fab_context :=
       Some {| ctx_projectName := None; ctx_projectGoal := None;
               ctx_mainLanguage := None; ctx_framework := None;
               ctx_backend := None; ctx_server := None; ctx_apiType := None;
               ctx_database := None; ctx_hosting := None; ctx_cicd := None;
               ctx_buildTool := None; ctx_packageManager := None;
               ctx_testFramework := None; ctx_linter := None;
               ctx_targetUser := None; ctx_coreProblem := None;
               ctx_missionPurpose := None; ctx_deploymentMarket := None;
               ctx_timeline := None; ctx_approach := None |};
     fab_qualityMetrics :=
       {| highestGrade := "MINIMAL"; intelligenceDepth := 0%float;
          filesCovered := 0%Z |} |}.

(** What the calls awaited by [generateFafFromProject] return or throw.
    The helpers of [file-utils], the framework detector, the FAB-FORMATS
    processor and the relentless extractor are collaborators: each is given
    by the outcome of its call. *)
Record Project := {
  p_options : GenerateOptions;
  p_scan : LocalScanResult;                        (* scanner.scan() *)
  p_fs : FileSystem;
  p_detectFramework : Result DetectionResult;      (* detector.detect() *)
  p_findPackageJson : Result (option string);
  p_readPackageJson : Result Json;                 (* readFile, JSON.parse *)
  p_findPyprojectToml : Result (option string);
  p_readPyprojectToml : Result Manifest;           (* readFile, the matches *)
  p_findRequirementsTxt : Result (option string);
  p_processFiles : Result FabFormatsAnalysis;
  p_extractFromProject : Result (option HumanContext);
  p_findTsConfig : Result (option string);
  p_analyzeTsConfig : Result (option TypeScriptContext);
  p_bunLockb : bool;                               (* access of bun.lockb *)
  p_analyzeReadmeWithAI :
    string -> list string -> string -> option AIReadmeResult;
  p_readCargoToml : Result string;
  p_cargoFields : string -> Manifest;              (* the two matches *)
  p_githubWorkflows : bool                         (* access of .github/workflows *)
}.

(** The AI-assisted README analysis: it reads [README.md], whatever name
    the scanner found the README under. *)
Definition aiReadmeAnalysis (fs : FileSystem)
    (analyzeReadmeWithAI : string -> list string -> string -> option AIReadmeResult)
    (projectRoot : string) (scanResult : LocalScanResult)
  : option AIReadmeResult :=
  if readme_exists (scan_readme scanResult) then
    match readFile fs (Path.join projectRoot "README.md") with
    | Some readmeContent =>
        let projectName :=
          if truthy (readme_name (scan_readme scanResult))
          then default EmptyString (readme_name (scan_readme scanResult))
          else Path.basename projectRoot in
        analyzeReadmeWithAI readmeContent (scan_languageStrings scanResult)
          projectName
    | None => None
    end
  else None.

(** [deps], and the truthiness of [deps?.name]. *)
Definition depsOf (packageData : Json) : Result (list (string * Json)) :=
  call dependencies <- getProp (Some packageData) "dependencies";
  call devDependencies <- getProp (Some packageData) "devDependencies";
  Ok (spread dependencies ++ spread devDependencies)%list.

Definition dep (deps : list (string * Json)) (name : string) : bool :=
  truthyJson (field deps name).

Definition depFlags (deps : list (string * Json)) : Deps :=
  {| dep_chalk := dep deps "chalk"; dep_colors := dep deps "colors";
     dep_ora := dep deps "ora"; dep_inquirer := dep deps "inquirer";
     dep_prompts := dep deps "prompts"; dep_enquirer := dep deps "enquirer";
     dep_commander := dep deps "commander"; dep_yargs := dep deps "yargs";
     dep_oclif := dep deps "oclif"; dep_typescript := dep deps "typescript";
     dep_typesNode := dep deps "@types/node"; dep_jest := dep deps "jest";
     dep_mocha := dep deps "mocha"; dep_vitest := dep deps "vitest" |}.

(** Truthiness of [isNodeCLI]; the operands of [||] are evaluated from the
    left, up to the first truthy one. *)
Definition nodeCliDetection (packageData : Json) (deps : list (string * Json))
  : Result bool :=
  call bin <- getProp (Some packageData) "bin";
  if truthyJson bin then Ok true else
  call name <- getProp (Some packageData) "name";
  call nameHasCli <- optIncludes name "cli";
  if nameHasCli then Ok true else
  call keywords <- getProp (Some packageData) "keywords";
  call hasCli <- optIncludes keywords "cli";
  if hasCli then Ok true else
  call hasCommandLine <- optIncludes keywords "command-line";
  if hasCommandLine then Ok true else
  Ok (dep deps "commander" || dep deps "yargs" || dep deps "oclif"
      || dep deps "inquirer").

Definition rustCliDetection (cargoContent : string) : bool :=
  contains "[bin]" cargoContent || contains "clap" cargoContent
  || contains "structopt" cargoContent || contains "argh" cargoContent.

Definition noManifest : Manifest :=
  {| manifest_name := None; manifest_description := None |}.

Record FafData := {
  fafData_slots : gmap string string;
  fafData_projectType : string;
  fafData_scoring : ScoringResult
}.

(** [generateFafFromProject], up to the data it hands to the YAML
    generator. *)
Definition generateFafFromProject (p : Project) : Result FafData :=
  match opt_projectRoot (p_options p) with
  | None => Throw InvalidProjectRoot
  | Some projectRoot =>
  if negb (truthy (Some projectRoot)) then Throw InvalidProjectRoot else
  let scanResult := p_scan p in
  let frameworkResult :=
    recover (call r <- p_detectFramework p ; Ok (Some r)) None in
  call packageJsonPath <- p_findPackageJson p;
  let packageData :=
    match packageJsonPath with
    | Some _ => recover (p_readPackageJson p) (JObject [])
    | None => JObject []
    end in
  call pyprojectPath <- p_findPyprojectToml p;
  let pyprojectData :=
    match pyprojectPath with
    | Some _ => recover (p_readPyprojectToml p) noManifest
    | None => noManifest
    end in
  call requirementsPath <- p_findRequirementsTxt p;
  let fabAnalysis := recover (p_processFiles p) emptyAnalysis in
  let humanContext := recover (p_extractFromProject p) None in
  call tsConfigPath <- p_findTsConfig p;
  call tsContext <-
    match tsConfigPath with
    | Some _ => p_analyzeTsConfig p
    | None => Ok None
    end;
  let isBunProject := p_bunLockb p in
  let aiResult :=
    aiReadmeAnalysis (p_fs p) (p_analyzeReadmeWithAI p) projectRoot scanResult in
  call deps <- depsOf packageData;
  let cargo :=
    recover (call content <- p_readCargoToml p;
             Ok (rustCliDetection content, p_cargoFields p content))
      (false, noManifest) in
  call isNodeCLI <- nodeCliDetection packageData deps;
  let slots :=
    fillSlots
      {| options := p_options p;
         scanResult := scanResult;
         frameworkResult := frameworkResult;
         aiResult := aiResult;
         fabContext := fab_context fabAnalysis;
         humanContext := humanContext;
         isRustCLI := fst cargo;
         cargoTomlData := snd cargo;
         isNodeCLI := isNodeCLI;
         deps := depFlags deps;
         enginesNode :=
           jsonText (optProp (optProp (Some packageData) "engines") "node");
         githubWorkflowsExists := p_githubWorkflows p;
         isBunProject := isBunProject;
         packageData :=
           {| manifest_name := jsonText (optProp (Some packageData) "name");
              manifest_description :=
                jsonText (optProp (Some packageData) "description") |};
         pyprojectData := pyprojectData |} in
  let inferredType :=
    inferProjectType scanResult (slots !! "_ai_project_type") frameworkResult
      (opt_projectType (p_options p)) in
  call scoring <-
    scoreSlots inferredType slots (fab_qualityMetrics fabAnalysis) tsContext;
  Ok {| fafData_slots := slots;
        fafData_projectType := inferredType;
        fafData_scoring := scoring |}
  end.

End Generator.


(** ** The YAML generator: the helpers of [src/utils/yaml-generator.ts] *)
Module Yaml.
Import JS.

Definition quote : ascii := ascii_of_nat 34.
Definition apostrophe : ascii := ascii_of_nat 39.
Definition backslash : ascii := ascii_of_nat 92.

(** [s.startsWith(c)] and [s.endsWith(c)] for one character. *)
Definition startsWithChar (c : ascii) (s : string) : bool :=
  match s with
  | String d _ => Ascii.eqb c d
  | EmptyString => false
  end.

Fixpoint endsWithChar (c : ascii) (s : string) : bool :=
  match s with
  | EmptyString => false
  | String d EmptyString => Ascii.eqb c d
  | String _ rest => endsWithChar c rest
  end.

(** [s.slice(1, -1)]: without the first and the last character; empty for
    a string of one character. *)
Fixpoint withoutLast (s : string) : string :=
  match s with
  | EmptyString => EmptyString
  | String _ EmptyString => EmptyString
  | String c rest => String c (withoutLast rest)
  end.

Definition slice_1_minus_1 (s : string) : string :=
  match s with
  | EmptyString => EmptyString
  | String _ rest => withoutLast rest
  end.

(** [s.replace(/\\"/g, '"')]: every backslash that a quote follows is
    dropped, from the left. *)
Fixpoint unescapeQuotes (s : string) : string :=
  match s with
  | String c (String d rest as tail) =>
      if Ascii.eqb c backslash && Ascii.eqb d quote
      then String quote (unescapeQuotes rest)
      else String c (unescapeQuotes tail)
  | _ => s
  end.

(** [s.replace(/"/g, '\\"')]: a backslash before every quote. *)
Fixpoint escapeQuotes (s : string) : string :=
  match s with
  | EmptyString => EmptyString
  | String c rest =>
      if Ascii.eqb c quote
      then String backslash (String quote (escapeQuotes rest))
      else String c (escapeQuotes rest)
  end.

Definition unescapeFromYaml (value : string) : string :=
  if negb (truthy (Some value)) then value
  else
    let unquoted :=
      if (startsWithChar quote value && endsWithChar quote value)
         || (startsWithChar apostrophe value && endsWithChar apostrophe value)
      then slice_1_minus_1 value
      else value in
    unescapeQuotes unquoted.

(** [s.includes(c)] for one character. *)
Fixpoint includesChar (c : ascii) (s : string) : bool :=
  match s with
  | EmptyString => false
  | String d rest => Ascii.eqb c d || includesChar c rest
  end.

(** [cleaned.match(/^[\d\-[\]{}]/)]: the first character is a digit, a
    dash, a bracket or a brace. *)
Definition startsSpecial (s : string) : bool :=
  match s with
  | EmptyString => false
  | String c _ =>
      let n := nat_of_ascii c in
      ((48 <=? n)%nat && (n <=? 57)%nat)
      || Ascii.eqb c "-"%char || Ascii.eqb c "["%char || Ascii.eqb c "]"%char
      || Ascii.eqb c "{"%char || Ascii.eqb c "}"%char
  end.

Definition needsQuotes (cleaned : string) : bool :=
  includesChar ":"%char cleaned || includesChar "-"%char cleaned
  || includesChar "["%char cleaned || includesChar "#"%char cleaned
  || includesChar "|"%char cleaned || includesChar ">"%char cleaned
  || startsSpecial cleaned.

(** [escapeForYaml]; [clean] is the removal of the markdown (the four
    replacements and the trim), which is not modelled. *)
Definition escapeForYaml (clean : string -> string) (value : option string)
  : option string :=
  match value with
  | Some v =>
      if truthy (Some v) then
        let cleaned := clean v in
        if startsWithChar quote cleaned && endsWithChar quote cleaned
        then Some cleaned
        else if needsQuotes cleaned
        then Some (String quote (escapeQuotes cleaned ++ String quote EmptyString))
        else Some cleaned
      else None
  | None => None
  end.

(** [projectData], as far as the helpers below read it. *)
Record ProjectData := {
  pd_projectName : string;
  pd_projectGoal : option string;
  pd_mainLanguage : option string;
  pd_framework : option string;
  pd_backend : option string;
  pd_apiType : option string;
  pd_server : option string;
  pd_database : option string;
  pd_hosting : option string;
  pd_buildTool : option string;
  pd_packageManager : option string;
  pd_cicd : option string;
  pd_fafScore : float;
  pd_slotBasedPercentage : float;
  pd_projectType : option string;
  pd_totalSlots : option float;
  pd_naSlots : option float;
  pd_targetUser : option string;
  pd_coreProblem : option string;
  pd_missionPurpose : option string;
  pd_deploymentMarket : option string;
  pd_timeline : option string;
  pd_approach : option string
}.

(** [value && value !== excluded]. *)
Definition usable (excluded : string) (value : option string) : list string :=
  match value with
  | Some v => if truthy (Some v) && negb (String.eqb v excluded) then [v] else []
  | None => []
  end.

Definition generateStackString (data : ProjectData) : string :=
  let parts :=
    (usable "None" (pd_framework data)
     ++ usable "Unknown" (pd_mainLanguage data)
     ++ usable "None" (pd_buildTool data)
     ++ usable "None" (pd_hosting data)
     ++ usable "None" (pd_backend data))%list in
  let joined := String.concat "/" parts in
  if truthy (Some joined) then joined else "Not specified".

Definition getConfidenceLevel (percentage : float) : string :=
  if PrimFloat.leb 90 percentage then "VERY_HIGH"
  else if PrimFloat.leb 80 percentage then "HIGH"
  else if PrimFloat.leb 70 percentage then "GOOD"
  else if PrimFloat.leb 60 percentage then "MODERATE"
  else "LOW".

(** Truthiness of [value?.toLowerCase().includes(needle)]. *)
Definition lowerIncludes (value : option string) (needle : string) : bool :=
  match value with
  | Some v => contains needle (toLowerCase v)
  | None => false
  end.

(** [value?.toLowerCase() === text]. *)
Definition lowerIs (value : option string) (text : string) : bool :=
  match value with
  | Some v => String.eqb (toLowerCase v) text
  | None => false
  end.

Definition detectKeyFiles (data : ProjectData) : list string :=
  let files :=
    if lowerIncludes (pd_framework data) "svelte"
    then ["+page.svelte"; "+layout.svelte"; "app.html"]
    else if lowerIncludes (pd_framework data) "react"
    then ["App.tsx"; "index.tsx"]
    else if lowerIncludes (pd_framework data) "vue"
    then ["App.vue"; "main.ts"]
    else if lowerIncludes (pd_mainLanguage data) "python"
    then ["main.py"; "requirements.txt"]
    else if lowerIncludes (pd_mainLanguage data) "rust"
    then
      (["Cargo.toml"; "src/main.rs"]
       ++ if match pd_projectType data with
             | Some t => String.eqb t "cli"
             | None => false
             end
             || lowerIncludes (pd_framework data) "cli"
          then ["src/commands/"; "README.md"]
          else [])%list
    else if lowerIncludes (pd_mainLanguage data) "go"
    then ["go.mod"; "main.go"; "cmd/"]
    else if lowerIncludes (pd_mainLanguage data) "zig"
    then ["build.zig"; "src/main.zig"]
    else [] in
  let isJsTs :=
    lowerIncludes (pd_mainLanguage data) "javascript"
    || lowerIncludes (pd_mainLanguage data) "typescript" in
  let files :=
    if isJsTs then (files ++ ["package.json"; "tsconfig.json"])%list
    else files in
  let files :=
    if lowerIs (pd_mainLanguage data) "c" || lowerIs (pd_mainLanguage data) "c++"
    then (files ++ ["CMakeLists.txt"; "Makefile"])%list
    else files in
  let files :=
    if negb (includes files "README.md") then (files ++ ["README.md"])%list
    else files in
  firstn 5 files.

(** Truthiness of a number: zero and NaN are falsy. *)
Definition truthyNumber (x : option float) : bool :=
  match x with
  | Some x => negb (PrimFloat.eqb x 0) && negb (PrimFloat.is_nan x)
  | None => false
  end.

(** [x || fallback] on numbers. *)
Definition numberOr (x : option float) (fallback : float) : float :=
  match x with
  | Some y => if truthyNumber x then y else fallback
  | None => fallback
  end.

(** The slot counts at the head of [generateFafContent]. *)
Definition totalSlotsCount (projectData : ProjectData) : float :=
  numberOr (pd_totalSlots projectData) 21.

Definition naCount (projectData : ProjectData) : float :=
  numberOr (pd_naSlots projectData) 0.

Definition filledSlotsCount (projectData : ProjectData) : float :=
  Math_round
    (pd_slotBasedPercentage projectData / 100 * totalSlotsCount projectData)%float.

(** [!value || value === 'None']. *)
Definition missingOrNone (value : option string) : bool :=
  negb (truthy value)
  || match value with
     | Some v => String.eqb v "None"
     | None => false
     end.

Definition missingSlots (projectData : ProjectData) : list string :=
  ((if negb (truthy (pd_targetUser projectData)) then ["Target users"] else [])
   ++ (if negb (truthy (pd_coreProblem projectData)) then ["Core problem"] else [])
   ++ (if negb (truthy (pd_timeline projectData)) then ["Timeline"] else [])
   ++ (if missingOrNone (pd_cicd projectData) then ["CI/CD pipeline"] else [])
   ++ (if missingOrNone (pd_database projectData) then ["Database"] else []))%list.

(** [context_quality.missing_context] and [context_quality.handoff_ready]. *)
Definition missing_context (projectData : ProjectData) : list string :=
  if (0 <? List.length (missingSlots projectData))%nat
  then missingSlots projectData
  else ["None - fully specified!"].

Definition handoff_ready (projectData : ProjectData) : bool :=
  PrimFloat.ltb 70 (pd_slotBasedPercentage projectData).

End Yaml.

(** ** The data [generateFafFromProject] hands to [generateFafContent] *)
Module Handover.
Import JS Scanner Generator Yaml.

(** [value || undefined]. *)
Definition orUndefined (value : option string) : option string :=
  if truthy value then value else None.

(** [a || b]. *)
Definition orElse (a b : option string) : option string :=
  if truthy a then a else b.

(** The object [fafData] of [generateFafFromProject], as far as
    [ProjectData] holds it. *)
Definition fafData (projectRoot : string) (slots : gmap string string)
    (inferredType : string) (scoring : ScoringResult) : ProjectData :=
  {| pd_projectName :=
       if filled slots "project_name" then default EmptyString (slots !! "project_name")
       else Path.basename projectRoot;
     pd_projectGoal := orUndefined (slots !! "project_goal");
     pd_mainLanguage := orUndefined (slots !! "main_language");
     pd_framework := orUndefined (slots !! "framework");
     pd_backend := orUndefined (slots !! "backend");
     pd_apiType := orUndefined (slots !! "api_type");
     pd_server :=
       orUndefined (orElse (slots !! "runtime") (slots !! "server"));
     pd_database := orUndefined (slots !! "database");
     pd_hosting := orUndefined (slots !! "hosting");
     pd_buildTool := orUndefined (slots !! "build_tool");
     pd_packageManager := orUndefined (slots !! "package_manager");
     pd_cicd := orUndefined (slots !! "cicd");
     pd_fafScore := fafScore scoring;
     pd_slotBasedPercentage := slotBasedPercentage scoring;
     pd_projectType := Some inferredType;
     pd_totalSlots := Some (float_of_Z (totalSlots scoring));
     pd_naSlots := Some (float_of_Z (naSlots scoring));
     pd_targetUser := slots !! "who";
     pd_coreProblem := slots !! "what";
     pd_missionPurpose := slots !! "why";
     pd_deploymentMarket := slots !! "where";
     pd_timeline := slots !! "when";
     pd_approach := slots !! "how" |}.

End Handover.

(** ** [src/engines/ai-readme-analyzer.ts] *)
Module Analyzer.
Import JS.

Inductive Source : Type := anthropic | openrouter.

(** The object [parseAIResponse] builds.  The interface declares strings;
    the fields hold whatever values the reply held. *)
Record AIReadmeResult := {
  ai_description : Json;
  ai_who : Json;
  ai_what : Json;
  ai_why : Json;
  ai_where : Json;
  ai_when : Json;
  ai_how : Json;
  ai_topics : list Json;
  ai_projectType : Json;
  ai_source : Source
}.

(** [String.prototype.indexOf] and [lastIndexOf] of one character, [None]
    for -1. *)
Fixpoint indexOf (c : ascii) (s : string) : option nat :=
  match s with
  | EmptyString => None
  | String d rest =>
      if Ascii.eqb d c then Some 0%nat else option_map S (indexOf c rest)
  end.

Fixpoint lastIndexOf (c : ascii) (s : string) : option nat :=
  match s with
  | EmptyString => None
  | String d rest =>
      match lastIndexOf c rest with
      | Some i => Some (S i)
      | None => if Ascii.eqb d c then Some 0%nat else None
      end
  end.

(** [String.prototype.substring]: the smaller index is the start. *)
Definition substring (indexStart indexEnd : nat) (s : string) : string :=
  String.substring (Nat.min indexStart indexEnd)
    (Nat.max indexStart indexEnd - Nat.min indexStart indexEnd) s.

(** "Also handle case where response starts with { directly". *)
Definition braces (jsonStr : string) : string :=
  match indexOf "{" jsonStr, lastIndexOf "}" jsonStr with
  | Some braceStart, Some braceEnd =>
      substring braceStart (braceEnd + 1) jsonStr
  | _, _ => jsonStr
  end.

(** [value || fallback]. *)
Definition orJson (value : option Json) (fallback : Json) : Json :=
  match value with
  | Some v => if truthyJson (Some v) then v else fallback
  | None => fallback
  end.

(** [Array.isArray(value) ? value : []]. *)
Definition arrayOr_empty (value : option Json) : list Json :=
  match value with
  | Some (JArray items) => items
  | _ => []
  end.

(** The object literal of [parseAIResponse]; reading a property of [null]
    throws. *)
Definition resultOf (parsed : Json) (source : Source) : Result AIReadmeResult :=
  bind (getProp (Some parsed) "description") (fun description =>
  bind (getProp (Some parsed) "who") (fun who =>
  bind (getProp (Some parsed) "what") (fun what =>
  bind (getProp (Some parsed) "why") (fun why =>
  bind (getProp (Some parsed) "where") (fun where_ =>
  bind (getProp (Some parsed) "when") (fun when_ =>
  bind (getProp (Some parsed) "how") (fun how =>
  bind (getProp (Some parsed) "topics") (fun topics =>
  bind (getProp (Some parsed) "projectType") (fun projectType =>
  Ok {| ai_description := orJson description (JString EmptyString);
        ai_who := orJson who JNull;
        ai_what := orJson what JNull;
        ai_why := orJson why JNull;
        ai_where := orJson where_ JNull;
        ai_when := orJson when_ JNull;
        ai_how := orJson how JNull;
        ai_topics := arrayOr_empty topics;
        ai_projectType := orJson projectType JNull;
        ai_source := source |}))))))))).

(** [parseAIResponse].  [unfence] is the trimming and the match of the
    code fence, [JSON_parse] is [JSON.parse]. *)
Definition parseAIResponse (unfence : string -> string)
    (JSON_parse : string -> Result Json) (text : string) (source : Source)
  : option AIReadmeResult :=
  recover
    (bind (JSON_parse (braces (unfence text))) (fun parsed =>
     bind (resultOf parsed source) (fun result => Ok (Some result))))
    None.

End Analyzer.

(** * Vocabulary of the properties *)

Import JS Scanner Generator Yaml Handover.



(** No bonus applies: the grade is none of the four rewarded ones, none of
    the three depth comparisons succeeds, and there is no TypeScript
    configuration. *)
Definition noBonus (q : QualityMetrics) (ts : option TypeScriptContext) : Prop :=
  ~ In (highestGrade q) ["EXCEPTIONAL"; "PROFESSIONAL"; "GOOD"; "BASIC"] /\
  (PrimFloat.ltb 80 (intelligenceDepth q) = false /\
   PrimFloat.ltb 60 (intelligenceDepth q) = false /\
   PrimFloat.ltb 40 (intelligenceDepth q) = false) /\
  ts = None.

Definition nineSlots : list string :=
  [ "project_name"; "project_goal"; "main_language";
    "who"; "what"; "why"; "where"; "when"; "how" ].

(** A slot map in which the nine project and human slots are filled. *)
Definition nineFilled : gmap string string :=
  list_to_map (map (fun slot => (slot, "x")) nineSlots).

Definition minimalMetrics : QualityMetrics :=
  {| highestGrade := "MINIMAL"; intelligenceDepth := 0%float; filesCovered := 0%Z |}.

Definition scaleOf (raw : Z) : float :=
  if (0 <? raw)%Z then (86 / float_of_Z raw)%float else 1%float.

Fixpoint addTimes (k : nat) (step score : float) : float :=
  match k with
  | O => score
  | S k => addTimes k step (score + step)%float
  end.

Definition gradeCases : list (float -> float) :=
  [ fun s => (s + 20)%float; fun s => (s + 15)%float;
    fun s => (s + 10)%float; fun s => (s + 5)%float; fun s => s ].

Definition depthCases : list (float -> float) :=
  [ fun s => (s + 15)%float; fun s => (s + 10)%float;
    fun s => (s + 5)%float; fun s => s ].

Definition typescriptCases : list (float -> float) :=
  [ fun s => (s + 5 + 5)%float; fun s => (s + 5)%float; fun s => s ].

(** The final score of an accumulated score is an integer of 0..99. *)
Definition capOK (x : float) : bool :=
  match integerValue (Math_min (Math_round x) 99) with
  | Some n => (0 <=? n)%Z && (n <=? 99)%Z
  | None => false
  end.

(** The numbers of applicable technical and human slots of the category
    lists of [TYPE_APPLICABLE_CATEGORIES], and of the default. *)
Definition applicableCounts : list (nat * nat) :=
  [ (9, 6); (7, 6); (13, 6); (10, 6); (4, 6); (14, 6); (3, 6) ].

Definition categoryLists : list (list string) :=
  [ puh; pbh; pbuh; pfuh; pfh; all_categories; ph ].

Definition isSymlink (e : Entry) : bool :=
  match e with
  | Symlink _ _ => true
  | _ => false
  end.

(** The tree without its symbolic links, at every level. *)
Definition pruneWith (f : Entry -> Entry) : list Entry -> list Entry :=
  fix prune (l : list Entry) : list Entry :=
    match l with
    | [] => []
    | e :: rest => if isSymlink e then prune rest else f e :: prune rest
    end.

Fixpoint pruneEntry (e : Entry) : Entry :=
  match e with
  | Directory name (Some sub) => Directory name (Some (pruneWith pruneEntry sub))
  | _ => e
  end.

Definition withoutSymlinks (entries : list Entry) : list Entry :=
  pruneWith pruneEntry entries.

(** The regular files of the tree that lie in real directories. *)
Fixpoint regularFiles (e : Entry) : nat :=
  match e with
  | File _ _ => 1
  | Directory _ (Some sub) => list_sum (map regularFiles sub)
  | _ => 0
  end.

(** The file system holds the entry [e] in the directory [dirPath], with
    everything below it. *)
Fixpoint holdsEntry (fs : FileSystem) (dirPath : string) (e : Entry) : Prop :=
  let fullPath := Path.join dirPath (entryName e) in
  match e with
  | File _ size => stat fs fullPath = size
  | Directory _ None => readdir fs fullPath = None
  | Directory _ (Some entries) =>
      readdir fs fullPath = Some (map direntOf entries) /\
      (fix all (l : list Entry) : Prop :=
         match l with
         | [] => True
         | x :: rest => holdsEntry fs fullPath x /\ all rest
         end) entries
  | Symlink _ _ | Other _ => True
  end.

(** The directory [dirPath] of the file system is the tree [listing]. *)
Definition holdsListing (fs : FileSystem) (dirPath : string)
    (listing : option (list Entry)) : Prop :=
  match listing with
  | None => readdir fs dirPath = None
  | Some entries =>
      readdir fs dirPath = Some (map direntOf entries) /\
      Forall (holdsEntry fs dirPath) entries
  end.

(** The number of nested directories of a tree. *)
Fixpoint depthOf (e : Entry) : nat :=
  match e with
  | Directory _ (Some entries) =>
      S (fold_right (fun x acc => Nat.max (depthOf x) acc) 0 entries)
  | Directory _ None => 1
  | _ => 0
  end.

Definition depthOfListing (entries : list Entry) : nat :=
  fold_right (fun x acc => Nat.max (depthOf x) acc) 0 entries.

Definition listingDepth (listing : option (list Entry)) : nat :=
  match listing with
  | Some entries => depthOfListing entries
  | None => 0
  end.

(** A project whose link [loop] points back at the project itself: every
    path under the project, through the link any number of times, lists the
    same two entries. *)
Definition cyclicListing : list Entry :=
  [File "main.ts" (Some 120%Z); Symlink "loop" "."].

Definition cyclicProject : FileSystem :=
  {| readdir := fun _ => Some (map direntOf cyclicListing);
     stat := fun _ => Some 120%Z;
     access := fun _ => true;
     readFile := fun _ => None |}.

Fixpoint stem (n : nat) : string :=
  match n with
  | O => "f"
  | S n => String "x"%char (stem n)
  end.

(** [n] source files side by side. *)
Definition wideListing (n : nat) : list Entry :=
  map (fun i => File (stem i ++ ".ts") (Some 1%Z)) (seq 0 n).

(** A source file below [n] nested directories. *)
Fixpoint deepEntry (n : nat) : Entry :=
  match n with
  | O => File "main.ts" (Some 1%Z)
  | S n => Directory "src" (Some [deepEntry n])
  end.

Fixpoint deepPath (dirPath : string) (n : nat) : string :=
  match n with
  | O => Path.join dirPath "main.ts"
  | S n => deepPath (Path.join dirPath "src") n
  end.

(** The number of separators of a path: the depth of the file below the
    root when the root has none. *)
Fixpoint slashes (p : string) : nat :=
  match p with
  | EmptyString => 0
  | String c rest => (if Path.isSlash c then 1 else 0) + slashes rest
  end.

Fixpoint noSlash (s : string) : bool :=
  match s with
  | EmptyString => true
  | String c rest => negb (Path.isSlash c) && noSlash rest
  end.

Definition minifiedProject : option (list Entry) :=
  Some [File "bundle.min.js" (Some 1000%Z)].

(** The total size of the visited files classified as [lang]. *)
Fixpoint bytesOf (lang : string) (visits : list (string * Z)) : Z :=
  match visits with
  | [] => 0
  | (filePath, size) :: rest =>
      (match classify filePath with
       | Some l => if String.eqb l lang then size else 0
       | None => 0
       end + bytesOf lang rest)%Z
  end.

(** The languages of the visited files, each at its first encounter;
    [seen] are the languages met before. *)
Fixpoint encounterOrder (seen : list string) (visits : list (string * Z))
  : list string :=
  match visits with
  | [] => []
  | (filePath, _) :: rest =>
      match classify filePath with
      | Some l =>
          if includes seen l then encounterOrder seen rest
          else l :: encounterOrder (seen ++ [l]) rest
      | None => encounterOrder seen rest
      end
  end.

Definition isCode (lang : string) : bool :=
  negb (has EXCLUDE_FROM_PERCENTAGES lang).

(** The non-excluded languages of a scan, in order of first encounter. *)
Definition codeLanguages (visits : list (string * Z)) : list string :=
  List.filter isCode (encounterOrder [] visits).

(** The total size of the visited files of non-excluded languages. *)
Fixpoint codeBytes (visits : list (string * Z)) : Z :=
  match visits with
  | [] => 0
  | (filePath, size) :: rest =>
      (match classify filePath with
       | Some l => if isCode l then size else 0
       | None => 0
       end + codeBytes rest)%Z
  end.

Definition keys (lb : list (string * LanguageData)) : list string := map fst lb.

Definition bytesIn (lb : list (string * LanguageData)) (lang : string) : Z :=
  match prop lb lang with
  | Some data => bytes data
  | None => 0
  end.

(** The rational a finite binary64 number is. *)
Definition valueOf (x : float) : Q :=
  match Prim2SF x with
  | S754_finite s m e =>
      ((if s then - inject_Z (Z.pos m) else inject_Z (Z.pos m)) * 2 ^ e)%Q
  | _ => 0%Q
  end.

(** Neither NaN nor an infinity. *)
Definition isFinite (x : float) : bool :=
  match Prim2SF x with
  | S754_zero _ | S754_finite _ _ _ => true
  | _ => false
  end.

(** The sum of the numbers the percentages are. *)
Definition sumPercentages (l : list LanguageBreakdown) : Q :=
  fold_right (fun x acc => (valueOf (percentage x) + acc)%Q) 0%Q l.

Definition sumBytes (lb : list (string * LanguageData)) : Z :=
  fold_right (fun entry acc => (bytes (snd entry) + acc)%Z) 0%Z lb.

(** A term of the sum: zero, or a positive normal number whose exponent is
    at most [top]. *)
Definition summand (x : float) (top : Z) : Prop :=
  Prim2SF x = S754_zero false \/
  exists m e,
    Prim2SF x = S754_finite false m e /\
    (2 ^ 52 <= Z.pos m < 2 ^ 53)%Z /\ (-200 <= e <= top)%Z.

(** The factors by which [n] roundings can raise or lower a sum. *)
Fixpoint grow (n : nat) : Q :=
  match n with
  | O => 1
  | S n => (1 + (1 # 2 ^ 52)) * grow n
  end.

Fixpoint shrink (n : nat) : Q :=
  match n with
  | O => 1
  | S n => (1 - (1 # 2 ^ 52)) * shrink n
  end.

(** [reduce((sum, x) => sum + x, 0)], in binary64. *)
Definition floatSum (xs : list float) : float :=
  fold_left PrimFloat.add xs 0%float.

(** The sum of the numbers the terms are. *)
Definition exactSum (xs : list float) : Q :=
  fold_right (fun x acc => (valueOf x + acc)%Q) 0%Q xs.

(** Every language a file can be given: the values of the two tables, and
    the texts of what an object literal inherits. *)
Definition tableLanguages : list string :=
  (map snd EXTENSION_TO_LANGUAGE ++ map snd FILENAME_TO_LANGUAGE
   ++ map snd Object_prototype)%list.

(** Three source files of one byte each. *)
Definition threeFiles : option (list Entry) :=
  Some [File "a.py" (Some 1%Z); File "b.js" (Some 1%Z); File "c.ts" (Some 1%Z)].

(** A project whose only source file is empty. *)
Definition emptyFileProject : option (list Entry) :=
  Some [File "main.py" (Some 0%Z)].

Definition plainScan : LocalScanResult :=
  {| scan_primaryLanguage := "Unknown"; scan_languageStrings := [];
     scan_readme := absentReadme;
     scan_hasLicense := false; scan_licenseName := None;
     scan_hasTests := false;
     scan_hasCiCd := false; scan_cicdPlatform := None;
     scan_hasDocker := false; scan_topLevelPaths := [] |}.

Definition plainOptions (projectRoot : option string) : GenerateOptions :=
  {| opt_projectType := None; opt_projectRoot := projectRoot;
     opt_projectName := None; opt_projectGoal := None;
     opt_mainLanguage := None; opt_framework := None; opt_hosting := None |}.

Definition noFiles : FileSystem :=
  {| readdir := fun _ => None; stat := fun _ => None;
     access := fun _ => false; readFile := fun _ => None |}.

(** A project directory that holds nothing but a [package.json] with the
    given parsed content; every collaborator returns normally. *)
Definition packageProject (options : GenerateOptions) (packageJson : Json)
  : Project :=
  {| p_options := options;
     p_scan := plainScan;
     p_fs := noFiles;
     p_detectFramework :=
       Ok {| fw_framework := "Unknown"; fw_language := None; fw_ecosystem := None |};
     p_findPackageJson := Ok (Some "project/package.json");
     p_readPackageJson := Ok packageJson;
     p_findPyprojectToml := Ok None;
     p_readPyprojectToml := Throw Rejected;
     p_findRequirementsTxt := Ok None;
     p_processFiles := Ok emptyAnalysis;
     p_extractFromProject := Ok None;
     p_findTsConfig := Ok None;
     p_analyzeTsConfig := Ok None;
     p_bunLockb := false;
     p_analyzeReadmeWithAI := fun _ _ _ => None;
     p_readCargoToml := Throw Rejected;
     p_cargoFields := fun _ => noManifest;
     p_githubWorkflows := false |}.

Definition packageOnlyProject (projectRoot : option string) (packageJson : Json)
  : Project :=
  packageProject (plainOptions projectRoot) packageJson.

(** The options of a caller that asks for the project type [projectType]. *)
Definition typedOptions (projectType : string) : GenerateOptions :=
  {| opt_projectType := Some projectType; opt_projectRoot := Some "project";
     opt_projectName := None; opt_projectGoal := None;
     opt_mainLanguage := None; opt_framework := None; opt_hosting := None |}.

Definition returns {A : Type} (r : Result A) : bool :=
  match r with
  | Ok _ => true
  | Throw _ => false
  end.





(** The slots every later source fills only when they are still empty. *)
Definition guardedSlots : list string :=
  [ "project_name"; "project_goal"; "who"; "what"; "why"; "where"; "when"; "how" ].

(** [op] leaves a filled [slot] as it is. *)
Definition preserves (slot : string)
    (op : gmap string string -> gmap string string) : Prop :=
  forall slots, filled slots slot = true -> op slots !! slot = slots !! slot.

(** The writes that follow the two quick-mode writes of the project goal
    and the project name. *)
Definition laterContributions (src : SlotSources)
  : list (gmap string string -> gmap string string) :=
  ([ assignIf (opt_mainLanguage (options src)) "main_language";
     assignIf (unless "none" (opt_framework (options src))) "framework";
     assignIf (unless "cloud" (opt_hosting (options src))) "hosting" ]
   ++ scannedLanguage (scanResult src)
   ++ detectedFramework (frameworkResult src)
   ++ aiContext (aiResult src)
   ++ readmeContext (scan_readme (scanResult src))
   ++ detectedSignals (scanResult src)
   ++ frameworkFallback (frameworkResult src)
   ++ championshipContext (fabContext src)
   ++ relentlessContext (humanContext src)
   ++ rustCli (isRustCLI src) (cargoTomlData src)
   ++ nodeCli src
   ++ bunProject (isBunProject src)
   ++ manifests src)%list.

(** Sources in which nothing is known. *)
Definition noDeps : Deps :=
  {| dep_chalk := false; dep_colors := false; dep_ora := false;
     dep_inquirer := false; dep_prompts := false; dep_enquirer := false;
     dep_commander := false; dep_yargs := false; dep_oclif := false;
     dep_typescript := false; dep_typesNode := false;
     dep_jest := false; dep_mocha := false; dep_vitest := false |}.

Definition bareSources (scan : LocalScanResult)
    (framework : option DetectionResult) (context : option FabContext)
    (bun : bool) : SlotSources :=
  {| options := plainOptions (Some "project");
     scanResult := scan;
     frameworkResult := framework;
     aiResult := None;
     fabContext := context;
     humanContext := None;
     isRustCLI := false;
     cargoTomlData := noManifest;
     isNodeCLI := false;
     deps := noDeps;
     enginesNode := None;
     githubWorkflowsExists := false;
     isBunProject := bun;
     packageData := noManifest;
     pyprojectData := noManifest |}.

(** An Express project with a [bun.lockb]: the framework detector reports
    the npm ecosystem. *)
Definition bunSources : SlotSources :=
  bareSources plainScan
    (Some {| fw_framework := "Express"; fw_language := None;
             fw_ecosystem := Some "npm" |})
    None true.

(** A README that names its audience, and a championship context that
    names another. *)
Definition audienceScan : LocalScanResult :=
  {| scan_primaryLanguage := "Unknown"; scan_languageStrings := [];
     scan_readme :=
       {| readme_exists := true; readme_name := None;
          readme_description := None; readme_who := Some "Developers";
          readme_what := None; readme_why := None; readme_where := None;
          readme_when := None; readme_how := None |};
     scan_hasLicense := false; scan_licenseName := None;
     scan_hasTests := false;
     scan_hasCiCd := false; scan_cicdPlatform := None;
     scan_hasDocker := false; scan_topLevelPaths := [] |}.

Definition audienceContext : FabContext :=
  {| ctx_projectName := None; ctx_projectGoal := None;
     ctx_mainLanguage := None; ctx_framework := None;
     ctx_backend := None; ctx_server := None; ctx_apiType := None;
     ctx_database := None; ctx_hosting := None; ctx_cicd := None;
     ctx_buildTool := None; ctx_packageManager := None;
     ctx_testFramework := None; ctx_linter := None;
     ctx_targetUser := Some "Everyone"; ctx_coreProblem := None;
     ctx_missionPurpose := None; ctx_deploymentMarket := None;
     ctx_timeline := None; ctx_approach := None |}.

Definition audienceSources : SlotSources :=
  bareSources audienceScan None (Some audienceContext) false.

Definition systemsLanguages : list string := ["C"; "C++"; "Rust"; "Go"; "Zig"].

Definition cppScan : LocalScanResult :=
  {| scan_primaryLanguage := "C++"; scan_languageStrings := [];
     scan_readme := absentReadme;
     scan_hasLicense := false; scan_licenseName := None;
     scan_hasTests := false;
     scan_hasCiCd := false; scan_cicdPlatform := None;
     scan_hasDocker := false; scan_topLevelPaths := [] |}.

Definition qtDetection : DetectionResult :=
  {| fw_framework := "Qt Widgets"; fw_language := Some "C++";
     fw_ecosystem := None |}.

Definition allSlots : list string := map fst SLOT_CATEGORY_MAP.

Definition databaseOnly : gmap string string :=
  {[ "database" := "PostgreSQL" ]}.

(** Every slot of the table filled. *)
Definition everySlotFilled : gmap string string :=
  list_to_map (map (fun slot => (slot, "x")) allSlots).

(** The number of truthy W's of the README result. *)
Definition wCount (readmeResult : ReadmeContext) : nat :=
  List.length
    (List.filter truthy
       [ readme_who readmeResult; readme_what readmeResult;
         readme_why readmeResult; readme_where readmeResult;
         readme_when readmeResult; readme_how readmeResult ]).

(** Everything the score rewards. *)
Definition flawless (factors : QualityFactors) (langResult : LanguageResult)
    (readmeResult : ReadmeContext) : Prop :=
  has_readme factors = true /\ has_description factors = true /\
  has_structured_readme factors = true /\ has_license factors = true /\
  has_tests factors = true /\ has_cicd factors = true /\
  has_docker factors = true /\
  3 <= List.length (languages langResult) /\
  (50 <= resultFiles langResult)%Z /\
  3 <= wCount readmeResult.

(** The points for the number of languages, in fives, and for the number
    of files. *)
Definition languagePoints (n : nat) : Z :=
  if (3 <=? n)%nat then 2 else if (2 <=? n)%nat then 1 else 0.

Definition filePoints (f : Z) : Z :=
  if (50 <=? f)%Z then 10 else if (20 <=? f)%Z then 7
  else if (5 <=? f)%Z then 3 else 0.

(** The points of everything but the number of files, in fives. *)
Definition corePoints (factors : QualityFactors) (langResult : LanguageResult)
    (readmeResult : ReadmeContext) : Z :=
  3 * Z.b2z (has_readme factors) + 3 * Z.b2z (has_description factors)
  + 2 * Z.b2z (has_structured_readme factors)
  + 2 * Z.b2z (has_license factors) + 2 * Z.b2z (has_tests factors)
  + 2 * Z.b2z (has_cicd factors) + Z.b2z (has_docker factors)
  + languagePoints (List.length (languages langResult))
  + Z.b2z (3 <=? wCount readmeResult)%nat.

(** A name [scanTopLevelStructure] lists: not hidden, or one of the two
    exceptions. *)
Definition listedName (name : string) : bool :=
  negb (startsWithDot name) || String.eqb name ".github"
  || String.eqb name ".devops".

(** A directory the walk enters. *)
Definition entered (name : string) : bool :=
  negb (has SKIP_DIRS name || startsWithDot name).

(** The tree holds the regular file [name] of size [size] in the
    directory reached from its top through the directories [dirs]. *)
Fixpoint fileAt (entries : list Entry) (dirs : list string) (name : string)
    (size : Z) : Prop :=
  match dirs with
  | [] => In (File name (Some size)) entries
  | dir :: below =>
      exists sub,
        In (Directory dir (Some sub)) entries /\ fileAt sub below name size
  end.










(** A text the cleaning leaves as it is. *)
Definition keepText (s : string) : string := s.

Definition quotedSaying : string :=
  String.append "say: " (String quote (String.append "hi" (String quote EmptyString))).

(** The cases in which five other files come before [README.md]: a Svelte
    project in JavaScript, TypeScript, C or C++, and a Go project whose
    language also names JavaScript or TypeScript. *)
Definition readmeDropped (data : ProjectData) : bool :=
  let isJsTs :=
    lowerIncludes (pd_mainLanguage data) "javascript"
    || lowerIncludes (pd_mainLanguage data) "typescript" in
  let isC :=
    lowerIs (pd_mainLanguage data) "c" || lowerIs (pd_mainLanguage data) "c++" in
  (lowerIncludes (pd_framework data) "svelte" && (isJsTs || isC))
  || (negb (lowerIncludes (pd_framework data) "svelte")
      && negb (lowerIncludes (pd_framework data) "react")
      && negb (lowerIncludes (pd_framework data) "vue")
      && negb (lowerIncludes (pd_mainLanguage data) "python")
      && negb (lowerIncludes (pd_mainLanguage data) "rust")
      && lowerIncludes (pd_mainLanguage data) "go"
      && isJsTs).

(** A check on both booleans. *)
Definition allBool (check : bool -> bool) : bool := check true && check false.

(** The slot counts of the content for [a + h] applicable slots of which
    [k + j] are filled: the total is taken as it is, and the filled count
    computed back from the percentage is the number of filled slots. *)
Definition countsOK (a h k j : nat) : bool :=
  let total := (Z.of_nat a + Z.of_nat h)%Z in
  let filled := (0 + Z.of_nat k + (0 + Z.of_nat j))%Z in
  let percentage :=
    if (0 <? total)%Z
    then Math_round (float_of_Z filled / float_of_Z total * 100)%float
    else 0%float in
  truthyNumber (Some (float_of_Z total))
  && match integerValue
             (Math_round (percentage / 100 * float_of_Z total)%float) with
     | Some n => (n =? filled)%Z
     | None => false
     end
  && match integerValue percentage with
     | Some p =>
         (0 <=? p)%Z && (p <=? 100)%Z
         && Bool.eqb (p =? 100)%Z (filled =? total)%Z
     | None => false
     end.

(** [op] does not write [slot]. *)
Definition leaves (slot : string)
    (op : gmap string string -> gmap string string) : Prop :=
  forall slots, op slots !! slot = slots !! slot.

(** What follows the four writes at the head of the Node.js CLI block. *)
Definition afterNodeCli (src : SlotSources)
  : list (gmap string string -> gmap string string) :=
  (tl (tl (tl (tl (nodeCli src)))) ++ bunProject (isBunProject src)
   ++ manifests src)%list.

(** A caller that names the framework. *)
Definition reactOptions : GenerateOptions :=
  {| opt_projectType := None; opt_projectRoot := Some "project";
     opt_projectName := None; opt_projectGoal := None;
     opt_mainLanguage := None; opt_framework := Some "React";
     opt_hosting := Some "Vercel" |}.

Definition binProject : Project :=
  packageProject reactOptions (JObject [("bin", JString "./cli.js")]).

(** [op] leaves every filled slot filled. *)
Definition keepsFilled (op : gmap string string -> gmap string string) : Prop :=
  forall slots slot, filled slots slot = true -> filled (op slots) slot = true.

(** A project with a Dockerfile whose championship context names another
    hosting. *)
Definition dockerScan : LocalScanResult :=
  {| scan_primaryLanguage := "Unknown"; scan_languageStrings := [];
     scan_readme := absentReadme;
     scan_hasLicense := false; scan_licenseName := None;
     scan_hasTests := false;
     scan_hasCiCd := false; scan_cicdPlatform := None;
     scan_hasDocker := true; scan_topLevelPaths := [] |}.

Definition hostedContext : FabContext :=
  {| ctx_projectName := None; ctx_projectGoal := None;
     ctx_mainLanguage := None; ctx_framework := None;
     ctx_backend := None; ctx_server := None; ctx_apiType := None;
     ctx_database := None; ctx_hosting := Some "Fly.io"; ctx_cicd := None;
     ctx_buildTool := None; ctx_packageManager := None;
     ctx_testFramework := None; ctx_linter := None;
     ctx_targetUser := None; ctx_coreProblem := None;
     ctx_missionPurpose := None; ctx_deploymentMarket := None;
     ctx_timeline := None; ctx_approach := None |}.

Definition dockerSources : SlotSources :=
  bareSources dockerScan None (Some hostedContext) false.

(** What a reply without any of the fields gives. *)
Definition blankResult (source : Analyzer.Source) : Analyzer.AIReadmeResult :=
  {| Analyzer.ai_description := JString EmptyString;
     Analyzer.ai_who := JNull; Analyzer.ai_what := JNull;
     Analyzer.ai_why := JNull; Analyzer.ai_where := JNull;
     Analyzer.ai_when := JNull; Analyzer.ai_how := JNull;
     Analyzer.ai_topics := []; Analyzer.ai_projectType := JNull;
     Analyzer.ai_source := source |}.

(** The fields of a result that default to [null]. *)
Definition nullableFields (r : Analyzer.AIReadmeResult) : list Json :=
  [ Analyzer.ai_who r; Analyzer.ai_what r; Analyzer.ai_why r;
    Analyzer.ai_where r; Analyzer.ai_when r; Analyzer.ai_how r;
    Analyzer.ai_projectType r ].

(** A reply that wraps an object in two sentences. *)
Definition whoIsNull : string :=
  String quote ("who" ++ String quote ": null").

(** * Properties *)

(** ** The type-aware scorer *)

Lemma includes_In (l : list string) (x : string) :
  includes l x = true <-> In x l.
Proof.
  unfold includes. rewrite existsb_exists. split.
  - intros [y [Hy Heq]]. apply String.eqb_eq in Heq. now subst.
  - intros H. exists x. split; [assumption | apply String.eqb_refl].
Qed.



Lemma scoreFilled_ext (app app' : list string) (m m' : gmap string string)
    (points scale : float) (names : list string) (acc : Z * float) :
  (forall slot, In slot names ->
     includes app slot && filled m slot = includes app' slot && filled m' slot) ->
  scoreFilled app m points scale names acc =
  scoreFilled app' m' points scale names acc.
Proof.
  unfold scoreFilled. revert acc.
  induction names as [| x names IH]; intros acc H; [reflexivity |].
  cbn [fold_left]. destruct acc as [n score].
  rewrite (H x (or_introl eq_refl)).
  apply IH. intros slot Hs. apply H. now right.
Qed.


Lemma gradeBonus_none (grade : string) (score : float) :
  ~ In grade ["EXCEPTIONAL"; "PROFESSIONAL"; "GOOD"; "BASIC"] ->
  gradeBonus grade score = score.
Proof.
  intros H. unfold gradeBonus.
  repeat match goal with
  | |- context [String.eqb grade ?s] =>
      destruct (String.eqb_spec grade s) as [-> | _];
      [exfalso; apply H; cbn; tauto |]
  end.
  reflexivity.
Qed.

Lemma depthBonus_none (depth score : float) :
  PrimFloat.ltb 40 depth = false ->
  PrimFloat.ltb 60 depth = false ->
  PrimFloat.ltb 80 depth = false ->
  depthBonus depth score = score.
Proof. intros H40 H60 H80. unfold depthBonus. now rewrite H80, H60, H40. Qed.



(** ** The cap at 99 *)

Lemma addTimes_S (k : nat) (step score : float) :
  addTimes (S k) step score = addTimes k step (score + step)%float.
Proof. reflexivity. Qed.

(** The second pass adds the same step once per applicable, filled slot. *)
Lemma scoreFilled_count (app : list string) (m : gmap string string)
    (points scale : float) (names : list string) (n : Z) (score : float) :
  let k := List.length
             (List.filter (fun slot => includes app slot && filled m slot) names) in
  scoreFilled app m points scale names (n, score) =
  ((n + Z.of_nat k)%Z, addTimes k (points * scale)%float score).
Proof.
  unfold scoreFilled. revert n score.
  induction names as [| x names IH]; intros n score; cbn [fold_left List.filter].
  - cbn. now rewrite Z.add_0_r.
  - destruct (includes app x && filled m x); cbn [List.length].
    + rewrite IH, addTimes_S. f_equal. lia.
    + apply IH.
Qed.

Lemma countApplicable_length (app names : list string) :
  countApplicable app names =
  Z.of_nat (List.length (List.filter (includes app) names)).
Proof.
  unfold countApplicable.
  enough (H : forall n,
    fold_left (fun n slot => if includes app slot then (n + 1)%Z else n) names n =
    (n + Z.of_nat (List.length (List.filter (includes app) names)))%Z)
    by (rewrite H; reflexivity).
  induction names as [| x names IH]; intros n; cbn [fold_left List.filter].
  - cbn. lia.
  - destruct (includes app x); cbn [List.length]; rewrite IH; lia.
Qed.

Lemma filter_andb_length {A : Type} (f g : A -> bool) (l : list A) :
  List.length (List.filter (fun x => f x && g x) l) <=
  List.length (List.filter f l).
Proof.
  induction l as [| x l IH]; cbn [List.filter]; [lia |].
  destruct (f x), (g x); cbn [andb List.length]; lia.
Qed.

Lemma gradeBonus_cases (grade : string) :
  exists f, In f gradeCases /\ forall s, gradeBonus grade s = f s.
Proof.
  unfold gradeBonus, gradeCases.
  repeat match goal with
  | |- context [String.eqb grade ?s] => destruct (String.eqb grade s)
  end; eexists; (split; [| intros s; reflexivity]); cbn; tauto.
Qed.

Lemma depthBonus_cases (depth : float) :
  exists f, In f depthCases /\ forall s, depthBonus depth s = f s.
Proof.
  unfold depthBonus, depthCases.
  repeat match goal with
  | |- context [PrimFloat.ltb ?c depth] => destruct (PrimFloat.ltb c depth)
  end; eexists; (split; [| intros s; reflexivity]); cbn; tauto.
Qed.

Lemma typescriptBonus_cases (ts : option TypeScriptContext) :
  exists f, In f typescriptCases /\ forall s, typescriptBonus ts s = f s.
Proof.
  unfold typescriptBonus, typescriptCases.
  destruct ts as [[[|]] |]; eexists; (split; [| intros s; reflexivity]);
    cbn; tauto.
Qed.

Lemma prop_In {A : Type} (table : list (string * A)) (key : string) (v : A) :
  prop table key = Some v -> In v (map snd table).
Proof.
  induction table as [| [k w] rest IH]; [discriminate |].
  cbn [prop map snd]. destruct (String.eqb k key).
  - intros [= ->]. now left.
  - intros H. right. now apply IH.
Qed.

Lemma categoriesOf_cases (projectType : string) (categories : list string) :
  categoriesOf projectType = Ok categories ->
  In categories categoryLists.
Proof.
  unfold categoriesOf, get.
  destruct (prop TYPE_APPLICABLE_CATEGORIES projectType) as [cats |] eqn:E.
  - intros [= <-].
    apply prop_In in E. cbn [TYPE_APPLICABLE_CATEGORIES map snd] in E.
    unfold categoryLists.
    repeat (destruct E as [<- | E]; [cbn [In]; tauto |]).
    contradiction.
  - destruct (prop Object_prototype projectType); [discriminate |].
    intros [= <-]. unfold categoryLists. cbn [In]. tauto.
Qed.

(** [getApplicableSlots] throws on the inherited names only. *)
Lemma getApplicableSlots_throws (projectType : string) (error : Error) :
  getApplicableSlots projectType = Throw error ->
  error = TypeError /\
  exists text, get TYPE_APPLICABLE_CATEGORIES projectType = Inherited text.
Proof.
  unfold getApplicableSlots, categoriesOf.
  destruct (get TYPE_APPLICABLE_CATEGORIES projectType) as [cats | text |];
    cbn [bind]; try discriminate.
  intros [= <-]. split; [reflexivity | now exists text].
Qed.

Lemma Ok_inj {A : Type} (x y : A) : Ok x = Ok y -> x = y.
Proof. now intros [= ->]. Qed.

Lemma applicable_counts (projectType : string) (applicableSlots : list string) :
  getApplicableSlots projectType = Ok applicableSlots ->
  In (List.length (List.filter (includes applicableSlots) technicalSlots),
      List.length (List.filter (includes applicableSlots) humanSlots))
     applicableCounts.
Proof.
  unfold getApplicableSlots.
  destruct (categoriesOf projectType) as [cats | error] eqn:E;
    cbn [bind]; [| discriminate].
  intros H. apply Ok_inj in H. subst applicableSlots.
  apply categoriesOf_cases in E.
  unfold categoryLists in E. cbn [In] in E.
  repeat (destruct E as [<- | E]; [vm_compute; tauto |]).
  contradiction.
Qed.

(** Every score the scorer can accumulate passes [capOK]: [a] and [h]
    applicable technical and human slots, [k <= a] and [j <= h] of them
    filled, and one case of each bonus. *)
Lemma allScoresOK_true :
  forallb (fun counts =>
    let s := scaleOf (Z.of_nat (fst counts) * 4 + Z.of_nat (snd counts) * 5) in
    forallb (fun k =>
      let t := addTimes k (4 * s)%float 0%float in
      forallb (fun j =>
        let u := addTimes j (5 * s)%float t in
        forallb (fun fg => forallb (fun fd => forallb (fun ft =>
          capOK (ft (fd (fg u))))
          typescriptCases) depthCases) gradeCases)
      (seq 0 (S (snd counts)))) (seq 0 (S (fst counts))))
    applicableCounts = true.
Proof. vm_cast_no_check (eq_refl true). Qed.

Ltac peel H x Hx :=
  let H' := fresh in
  pose proof (proj1 (forallb_forall _ _) H) as H';
  specialize (H' x Hx); cbv beta zeta in H'; cbn [fst snd] in H';
  clear H; rename H' into H.

Lemma allScoresOK_spec (a h k j : nat) (fg fd ft : float -> float) :
  In (a, h) applicableCounts ->
  In k (seq 0 (S a)) -> In j (seq 0 (S h)) ->
  In fg gradeCases -> In fd depthCases -> In ft typescriptCases ->
  capOK (ft (fd (fg
    (addTimes j (5 * scaleOf (Z.of_nat a * 4 + Z.of_nat h * 5))%float
       (addTimes k (4 * scaleOf (Z.of_nat a * 4 + Z.of_nat h * 5))%float
          0%float))))) = true.
Proof.
  intros Hah Hk Hj Hfg Hfd Hft.
  pose proof allScoresOK_true as H0.
  peel H0 (a, h) Hah. peel H0 k Hk. peel H0 j Hj.
  peel H0 fg Hfg. peel H0 fd Hfd. peel H0 ft Hft.
  exact H0.
Qed.

Lemma capOK_sound (x : float) :
  capOK x = true ->
  exists n : Z,
    integerValue (Math_min (Math_round x) 99) = Some n /\ (0 <= n <= 99)%Z.
Proof.
  unfold capOK. destruct (integerValue _) as [n |]; [| discriminate].
  intros H. exists n. split; [reflexivity | lia].
Qed.

Lemma final_score_ok (a h k j : nat) (grade : string) (depth : float)
    (ts : option TypeScriptContext) :
  In (a, h) applicableCounts -> k <= a -> j <= h ->
  capOK (typescriptBonus ts (depthBonus depth (gradeBonus grade
    (addTimes j (5 * scaleOf (Z.of_nat a * 4 + Z.of_nat h * 5))%float
       (addTimes k (4 * scaleOf (Z.of_nat a * 4 + Z.of_nat h * 5))%float
          0%float))))) = true.
Proof.
  intros Hah Hk Hj.
  destruct (gradeBonus_cases grade) as [fg [Hfg ->]].
  destruct (depthBonus_cases depth) as [fd [Hfd ->]].
  destruct (typescriptBonus_cases ts) as [ft [Hft ->]].
  apply allScoresOK_spec; try assumption; apply in_seq; lia.
Qed.

(** C5. For every inferred type, slot map, quality metrics and TypeScript
    context: where the scorer returns, the final score is
    [min (round enhancedScore) 99], and it is an integer between 0 and 99,
    never 100; it returns for every type but the names inherited from
    [Object.prototype], for which [getApplicableSlots] throws. *)
Theorem fafScore_between_0_and_99 (projectType : string)
    (slots : gmap string string) (q : QualityMetrics)
    (ts : option TypeScriptContext) :
  match scoreSlots projectType slots q ts with
  | Ok r =>
      fafScore r = Math_min (Math_round (enhancedScore r)) 99 /\
      (exists n : Z, integerValue (fafScore r) = Some n /\ (0 <= n <= 99)%Z) /\
      integerValue (fafScore r) <> Some 100%Z
  | Throw error =>
      error = TypeError /\
      exists text, get TYPE_APPLICABLE_CATEGORIES projectType = Inherited text
  end.
Proof.
  unfold scoreSlots.
  destruct (getApplicableSlots projectType) as [app | error] eqn:Happ;
    cbn [bind]; [| now apply getApplicableSlots_throws].
  assert (Hn : exists n : Z,
    integerValue (fafScore (scoreApplicable app slots q ts)) = Some n /\
    (0 <= n <= 99)%Z).
  { unfold scoreApplicable. cbv zeta. cbn [fafScore fst snd].
    rewrite !countApplicable_length.
    rewrite (scoreFilled_count _ slots 4 _ technicalSlots 0 0). cbv zeta.
    cbn [fst snd].
    rewrite (scoreFilled_count _ slots 5 _ humanSlots 0 _). cbv zeta.
    cbn [fst snd].
    pose proof (applicable_counts projectType app Happ) as Hah.
    pose proof (filter_andb_length
      (includes app) (filled slots) technicalSlots) as Hk.
    pose proof (filter_andb_length
      (includes app) (filled slots) humanSlots) as Hj.
    revert Hah Hk Hj.
    generalize (List.length (List.filter (includes app) technicalSlots)).
    generalize (List.length (List.filter (includes app) humanSlots)).
    generalize (List.length (List.filter
      (fun slot => includes app slot && filled slots slot) technicalSlots)).
    generalize (List.length (List.filter
      (fun slot => includes app slot && filled slots slot) humanSlots)).
    intros j k h a Hah Hk Hj.
    apply capOK_sound.
    exact (final_score_ok a h k j _ _ _ Hah Hk Hj). }
  split; [reflexivity |]. split; [exact Hn |].
  destruct Hn as [n [-> Hn]]. intros [= ->]. lia.
Qed.

(** ** The directory walk *)

(** Induction on a tree of entries, through the listings. *)
Section EntryInduction.
Variable P : Entry -> Prop.
Hypothesis HFile : forall name size, P (File name size).
Hypothesis HUnreadable : forall name, P (Directory name None).
Hypothesis HDirectory :
  forall name entries, Forall P entries -> P (Directory name (Some entries)).
Hypothesis HSymlink : forall name target, P (Symlink name target).
Hypothesis HOther : forall name, P (Other name).
Fixpoint Entry_nested_ind (e : Entry) : P e :=
  match e with
  | File name size => HFile name size
  | Directory name None => HUnreadable name
  | Directory name (Some entries) =>
      HDirectory name entries
        ((fix all (l : list Entry) : Forall P l :=
            match l with
            | [] => List.Forall_nil P
            | x :: rest => List.Forall_cons P x rest (Entry_nested_ind x) (all rest)
            end) entries)
  | Symlink name target => HSymlink name target
  | Other name => HOther name
  end.
End EntryInduction.

Lemma walkEntry_directory (dirPath name : string) (entries : list Entry) :
  walkEntry dirPath (Directory name (Some entries)) =
  if has SKIP_DIRS name || startsWithDot name then []
  else walkEntries (Path.join dirPath name) entries.
Proof.
  cbn [walkEntry entryName]. destruct (has SKIP_DIRS name || startsWithDot name);
    [reflexivity |].
  unfold walkEntries. induction entries as [| e rest IH]; [reflexivity |].
  cbn [flat_map]. now rewrite IH.
Qed.

Lemma walkEntry_unreadable (dirPath name : string) :
  walkEntry dirPath (Directory name None) = [].
Proof.
  cbn [walkEntry]. now destruct (has SKIP_DIRS name || startsWithDot name).
Qed.

Lemma walkEntries_cons (dirPath : string) (e : Entry) (rest : list Entry) :
  walkEntries dirPath (e :: rest) =
  (walkEntry dirPath e ++ walkEntries dirPath rest)%list.
Proof. reflexivity. Qed.

Lemma walkEntry_pruned (e : Entry) :
  forall dirPath,
    walkEntry dirPath (pruneEntry e) =
    walkEntry dirPath e.
Proof.
  induction e as [name size | name | name entries IH | name target | name]
    using Entry_nested_ind; intros dirPath; try reflexivity.
  cbn [pruneEntry]. rewrite !walkEntry_directory.
  destruct (has SKIP_DIRS name || startsWithDot name); [reflexivity |].
  generalize (Path.join dirPath name) as dir.
  induction IH as [| e rest He _ IHrest]; intros dir; [reflexivity |].
  cbn [pruneWith]. rewrite walkEntries_cons.
  destruct e; cbn [isSymlink];
    rewrite ?walkEntries_cons, ?He; fold (pruneWith pruneEntry rest);
    rewrite ?IHrest; reflexivity.
Qed.

Lemma walkEntries_withoutSymlinks (dirPath : string) (entries : list Entry) :
  walkEntries dirPath (withoutSymlinks entries) = walkEntries dirPath entries.
Proof.
  unfold withoutSymlinks.
  induction entries as [| e rest IH]; [reflexivity |].
  cbn [pruneWith]. rewrite walkEntries_cons.
  destruct e; cbn [isSymlink];
    rewrite ?walkEntries_cons, ?walkEntry_pruned; fold (pruneWith pruneEntry rest);
    rewrite ?IH; reflexivity.
Qed.

Lemma walkEntry_length (e : Entry) :
  forall dirPath, List.length (walkEntry dirPath e) <= regularFiles e.
Proof.
  induction e as [name size | name | name entries IH | name target | name]
    using Entry_nested_ind; intros dirPath; cbn [regularFiles].
  - destruct size; cbn; lia.
  - rewrite walkEntry_unreadable. cbn; lia.
  - rewrite walkEntry_directory.
    destruct (has SKIP_DIRS name || startsWithDot name); [cbn; lia |].
    generalize (Path.join dirPath name) as dir.
    induction IH as [| e rest He _ IHrest]; intros dir; [cbn; lia |].
    rewrite walkEntries_cons, length_app.
    unfold list_sum; cbn [map fold_right]; fold (list_sum (map regularFiles rest)).
    specialize (He dir). specialize (IHrest dir). lia.
  - cbn; lia.
  - cbn; lia.
Qed.

Lemma holdsEntry_directory (fs : FileSystem) (dirPath name : string)
    (entries : list Entry) :
  holdsEntry fs dirPath (Directory name (Some entries)) <->
  readdir fs (Path.join dirPath name) = Some (map direntOf entries) /\
  Forall (holdsEntry fs (Path.join dirPath name)) entries.
Proof.
  cbn [holdsEntry entryName].
  generalize (Path.join dirPath name) as dir. intros dir.
  split; intros [Hread Hall]; (split; [exact Hread |]); clear Hread.
  - induction entries as [| e rest IH]; [constructor |].
    destruct Hall as [He Hrest]. constructor; [exact He | exact (IH Hrest)].
  - induction Hall as [| e rest He _ IH]; [exact I | split; assumption].
Qed.

(** On a file system that holds a finite tree, the walk returns once its
    fuel exceeds the depth of the tree, with the calls of the walk of the
    tree. *)
Lemma visitEntry_tree (fs : FileSystem) (e : Entry) :
  forall fuel dirPath calls,
    holdsEntry fs dirPath e ->
    depthOf e <= fuel ->
    visitEntry (walkDirectoryOn fs fuel) fs dirPath (Some calls) (direntOf e) =
    Some (calls ++ walkEntry dirPath e)%list.
Proof.
  induction e as [name size | name | name entries IH | name target | name]
    using Entry_nested_ind; intros fuel dirPath calls Hholds Hdepth.
  - cbn in Hholds. unfold visitEntry. cbn [direntOf dirent_kind dirent_name entryName].
    rewrite Hholds. destruct size; cbn [walkEntry entryName]; [reflexivity |].
    now rewrite app_nil_r.
  - cbn in Hholds. unfold visitEntry. cbn [direntOf dirent_kind dirent_name entryName].
    rewrite walkEntry_unreadable, app_nil_r.
    destruct (has SKIP_DIRS name || startsWithDot name); [reflexivity |].
    destruct fuel as [| fuel]; [simpl in Hdepth; lia |].
    cbn [walkDirectoryOn]. rewrite Hholds. cbv iota. now rewrite app_nil_r.
  - apply holdsEntry_directory in Hholds as [Hread Hall].
    unfold visitEntry. cbn [direntOf dirent_kind dirent_name entryName].
    rewrite walkEntry_directory.
    destruct (has SKIP_DIRS name || startsWithDot name);
      [now rewrite app_nil_r |].
    destruct fuel as [| fuel]; [simpl in Hdepth; lia |].
    cbn [walkDirectoryOn]. rewrite Hread.
    cbn [depthOf] in Hdepth. apply le_S_n in Hdepth.
    fold (depthOfListing entries) in Hdepth.
    enough (Hfold : forall acc,
      fold_left (visitEntry (walkDirectoryOn fs fuel) fs (Path.join dirPath name))
        (map direntOf entries) (Some acc) =
      Some (acc ++ walkEntries (Path.join dirPath name) entries)%list)
      by (rewrite Hfold; reflexivity).
    clear Hread. revert Hall Hdepth.
    generalize (Path.join dirPath name) as dir. intros dir.
    induction IH as [| e rest He _ IHrest]; intros Hall Hdepth acc.
    + cbn. now rewrite app_nil_r.
    + apply Forall_cons in Hall as [Hhe Hrest].
      cbn [depthOfListing fold_right] in Hdepth.
      fold (depthOfListing rest) in Hdepth.
      apply Nat.max_lub_iff in Hdepth as [Hdeep Hdeeper].
      cbn [map fold_left]. rewrite (He fuel dir acc Hhe Hdeep).
      rewrite (IHrest Hrest Hdeeper).
      rewrite walkEntries_cons. now rewrite app_assoc.
  - unfold visitEntry. cbn. now rewrite app_nil_r.
  - unfold visitEntry. cbn. now rewrite app_nil_r.
Qed.

Lemma walkDirectoryOn_tree (fs : FileSystem) (dirPath : string)
    (listing : option (list Entry)) (fuel : nat) :
  holdsListing fs dirPath listing ->
  match listing with
  | Some entries => depthOfListing entries
  | None => 0
  end < fuel ->
  walkDirectoryOn fs fuel dirPath = Some (walkDirectory dirPath listing).
Proof.
  intros Hholds Hfuel. destruct fuel as [| fuel]; [lia |].
  cbn [walkDirectoryOn]. destruct listing as [entries |].
  - destruct Hholds as [Hread Hall]. rewrite Hread. cbn [walkDirectory].
    assert (Hdepth : depthOfListing entries <= fuel) by lia. clear Hfuel.
    enough (Hfold : forall acc,
      fold_left (visitEntry (walkDirectoryOn fs fuel) fs dirPath)
        (map direntOf entries) (Some acc) =
      Some (acc ++ walkEntries dirPath entries)%list)
      by (rewrite Hfold; reflexivity).
    clear Hread. induction Hall as [| e rest He _ IH]; intros acc.
    + cbn. now rewrite app_nil_r.
    + cbn [depthOfListing fold_right] in Hdepth.
      fold (depthOfListing rest) in Hdepth.
      apply Nat.max_lub_iff in Hdepth as [Hdeep Hdeeper].
      cbn [map fold_left]. rewrite (visitEntry_tree fs e fuel dirPath acc He Hdeep).
      rewrite (IH Hdeeper). rewrite walkEntries_cons. now rewrite app_assoc.
  - cbn in Hholds. now rewrite Hholds.
Qed.

(** C8. Symbolic links are never traversed.  On any file system, the loop
    of the walk leaves a symbolic link without a call, whatever lies behind
    it.  Where the real directories under [dirPath] form the finite tree
    [listing] (nothing is asked of what the links point to, so they may
    point back at an ancestor), the walk returns with every fuel above the
    depth of the tree, with the calls of the walk of the tree; these are the
    calls made on the tree with every link removed, at most one per regular
    file that lies in a real directory. *)
Theorem symlinks_never_traversed (fs : FileSystem) (dirPath : string)
    (listing : option (list Entry)) :
  holdsListing fs dirPath listing ->
  (forall walk dir calls name,
     visitEntry walk fs dir calls
       {| dirent_name := name; dirent_kind := IsSymbolicLink |} = calls) /\
  (forall fuel,
     listingDepth listing < fuel ->
     walkDirectoryOn fs fuel dirPath = Some (walkDirectory dirPath listing)) /\
  walkDirectory dirPath listing =
    walkDirectory dirPath (option_map withoutSymlinks listing) /\
  List.length (walkDirectory dirPath listing) <=
    match listing with
    | Some entries => list_sum (map regularFiles entries)
    | None => 0
    end.
Proof.
  intros Hholds. split; [| split; [| split]].
  - intros walk dir [calls |] name; reflexivity.
  - intros fuel Hfuel. now apply walkDirectoryOn_tree.
  - destruct listing as [entries |]; [| reflexivity].
    cbn [option_map walkDirectory]. now rewrite walkEntries_withoutSymlinks.
  - destruct listing as [entries |]; [| cbn; lia].
    cbn [walkDirectory]. clear Hholds.
    induction entries as [| e rest IH]; [cbn; lia |].
    rewrite walkEntries_cons, length_app.
    unfold list_sum; cbn [map fold_right]; fold (list_sum (map regularFiles rest)).
    pose proof (walkEntry_length e dirPath). lia.
Qed.

Lemma symlinks_never_traversed_witness :
  holdsListing cyclicProject "project" (Some cyclicListing) /\
  walkDirectoryOn cyclicProject 1 "project" =
    Some [("project/main.ts", 120%Z)].
Proof.
  assert (Hholds : holdsListing cyclicProject "project" (Some cyclicListing)).
  { split; [reflexivity |].
    repeat (apply List.Forall_cons; [cbn; try reflexivity; exact I |]).
    apply List.Forall_nil. }
  split; [exact Hholds |].
  destruct (symlinks_never_traversed cyclicProject "project"
              (Some cyclicListing) Hholds) as [_ [Hreturns _]].
  rewrite (Hreturns 1); [reflexivity | cbn; lia].
Defined.

(** ** The walk has no bound *)

Lemma slashes_app (p q : string) : slashes (p ++ q) = slashes p + slashes q.
Proof.
  induction p as [| c p IH]; [reflexivity |].
  change (String c p ++ q) with (String c (p ++ q)).
  cbn [slashes]. rewrite IH. lia.
Qed.

Lemma slashes_deepPath (dirPath : string) (n : nat) :
  slashes (deepPath dirPath n) = slashes dirPath + n + 1.
Proof.
  revert dirPath. induction n as [| n IH]; intros dirPath; cbn [deepPath].
  - unfold Path.join. rewrite !slashes_app. cbn. lia.
  - rewrite IH. unfold Path.join. rewrite !slashes_app. cbn. lia.
Qed.

Lemma walkEntry_deepEntry (dirPath : string) (n : nat) :
  walkEntry dirPath (deepEntry n) = [(deepPath dirPath n, 1%Z)].
Proof.
  revert dirPath. induction n as [| n IH]; intros dirPath; [reflexivity |].
  cbn [deepEntry deepPath]. rewrite walkEntry_directory.
  change (has SKIP_DIRS "src" || startsWithDot "src") with false.
  cbv iota. rewrite walkEntries_cons, IH. reflexivity.
Qed.

Lemma walkEntries_files (dirPath : string) (names : list string) :
  List.length
    (walkEntries dirPath (map (fun name => File name (Some 1%Z)) names)) =
  List.length names.
Proof.
  induction names as [| name names IH]; [reflexivity |].
  cbn [map]. rewrite walkEntries_cons, length_app, IH. reflexivity.
Qed.

Lemma walkEntries_wideListing (dirPath : string) (n : nat) :
  List.length (walkEntries dirPath (wideListing n)) = n.
Proof.
  unfold wideListing.
  rewrite <- (map_map (fun i => stem i ++ ".ts") (fun name => File name (Some 1%Z))).
  rewrite walkEntries_files, length_map, length_seq. reflexivity.
Qed.

(** C3. [walkDirectory] takes no depth and keeps no count: whatever maximum
    one names, some listing makes it call back for more files than that, and
    some listing makes it call back for a file deeper than that. *)
Theorem walk_exceeds_every_bound (maxFiles maxDepth : nat) :
  (exists listing,
     maxFiles < List.length (walkDirectory "project" (Some listing))) /\
  (exists listing path size,
     In (path, size) (walkDirectory "project" (Some listing)) /\
     maxDepth < slashes path).
Proof.
  split.
  - exists (wideListing (S maxFiles)). cbn [walkDirectory].
    rewrite walkEntries_wideListing. lia.
  - exists [deepEntry (S maxDepth)], (deepPath "project" (S maxDepth)), 1%Z.
    split.
    + cbn [walkDirectory]. rewrite walkEntries_cons, walkEntry_deepEntry.
      now left.
    + rewrite slashes_deepPath. lia.
Qed.

(** ** Minified bundles *)

Lemma append_cons (c : ascii) (s t : string) :
  (String c s ++ t) = String c (s ++ t).
Proof. reflexivity. Qed.

Lemma append_assoc (s t u : string) : ((s ++ t) ++ u) = (s ++ (t ++ u)).
Proof.
  induction s as [| c s IH]; [reflexivity |].
  rewrite !append_cons. now rewrite IH.
Qed.

Lemma afterLastSlash_noSlash (s cur : string) :
  noSlash s = true -> Path.afterLastSlash s cur = cur ++ s.
Proof.
  revert cur. induction s as [| c s IH]; intros cur H.
  - cbn. clear. induction cur as [| d cur IH]; [reflexivity |].
    rewrite append_cons. now rewrite <- IH.
  - cbn [noSlash] in H. apply andb_prop in H as [Hc Hs].
    cbn [Path.afterLastSlash]. destruct (Path.isSlash c); [discriminate Hc |].
    rewrite IH by exact Hs. now rewrite append_assoc.
Qed.

Lemma afterLastSlash_app (p s cur : string) :
  noSlash s = true ->
  Path.afterLastSlash (p ++ s) cur = Path.afterLastSlash p cur ++ s.
Proof.
  revert cur. induction p as [| c p IH]; intros cur H.
  - cbn [Path.afterLastSlash]. change (EmptyString ++ s) with s.
    now apply afterLastSlash_noSlash.
  - rewrite append_cons. cbn [Path.afterLastSlash].
    destruct (Path.isSlash c); now apply IH.
Qed.

Lemma fromLastDot_app (x s e : string) :
  Path.fromLastDot s = Some e -> Path.fromLastDot (x ++ s) = Some e.
Proof.
  intros H. induction x as [| c x IH]; [exact H |].
  rewrite append_cons. cbn [Path.fromLastDot]. now rewrite IH.
Qed.

Lemma length_append (s t : string) :
  String.length (s ++ t) = String.length s + String.length t.
Proof.
  induction s as [| c s IH]; [reflexivity |].
  rewrite append_cons. cbn [String.length]. now rewrite IH.
Qed.

(** The extension of a path that ends in [suffix], a name of three
    characters or more without a slash, is what follows the last dot found
    after the first character of [suffix]. *)
Lemma extname_suffix (p : string) (c : ascii) (suffix ext : string) :
  noSlash (String c suffix) = true ->
  Path.fromLastDot suffix = Some ext ->
  2 <= String.length suffix ->
  Path.extname (p ++ String c suffix) = ext.
Proof.
  intros Hslash Hdot Hlen. unfold Path.extname, Path.basename.
  rewrite afterLastSlash_app by exact Hslash.
  assert (Hfull : Path.fromLastDot (String c suffix) = Some ext)
    by (cbn [Path.fromLastDot]; now rewrite Hdot).
  destruct (Path.afterLastSlash p EmptyString) as [| d b].
  - change (EmptyString ++ String c suffix) with (String c suffix). cbv beta iota.
    rewrite Hdot.
    destruct (String.eqb_spec (String c suffix) "..") as [Heq | _];
      [| reflexivity].
    apply (f_equal String.length) in Heq. cbn in Heq. lia.
  - rewrite append_cons. cbv beta iota. rewrite (fromLastDot_app b _ _ Hfull).
    destruct (String.eqb_spec (String d (b ++ String c suffix)) "..")
      as [Heq | _]; [| reflexivity].
    apply (f_equal String.length) in Heq. cbn [String.length] in Heq.
    rewrite length_append in Heq. cbn [String.length] in Heq. lia.
Qed.

(** Every path that ends in [.min.js] or [.min.css] is classified, as
    JavaScript or as CSS. *)
Lemma classify_minified (p : string) :
  classify (p ++ ".min.js") = Some "JavaScript" /\
  classify (p ++ ".min.css") = Some "CSS".
Proof.
  unfold classify.
  rewrite (extname_suffix p "." "min.js" ".js") by (cbn; first [reflexivity | lia]).
  rewrite (extname_suffix p "." "min.css" ".css") by (cbn; first [reflexivity | lia]).
  split; reflexivity.
Qed.

(** C2. [path.extname] keeps only the last extension, so the entries
    [.min.js] and [.min.css] of [SKIP_EXTENSIONS] are never met: every path
    that ends in one of them is classified, and the bundle [bundle.min.js]
    is counted as JavaScript in the breakdown, the bytes and the files. *)
Theorem minified_bundle_counted_as_javascript :
  (forall p, classify (p ++ ".min.js") = Some "JavaScript" /\
             classify (p ++ ".min.css") = Some "CSS") /\
  has SKIP_EXTENSIONS ".min.js" = true /\
  Path.extname "project/bundle.min.js" = ".js" /\
  classify "project/bundle.min.js" = Some "JavaScript" /\
  let r := scanLanguages "project" minifiedProject in
  primaryLanguage r = "JavaScript" /\
  map language (languages r) = ["JavaScript"] /\
  map lbBytes (languages r) = [1000%Z] /\
  resultFiles r = 1%Z /\
  resultBytes r = 1000%Z.
Proof.
  split; [exact classify_minified |].
  vm_compute. repeat split; reflexivity.
Qed.

(** ** Aggregation of the visited files *)

Lemma includes_app (l l' : list string) (x : string) :
  includes (l ++ l') x = includes l x || includes l' x.
Proof. unfold includes. apply existsb_app. Qed.

Lemma keys_addFile (lb : list (string * LanguageData)) (lang : string) (size : Z) :
  keys (addFile lb lang size) =
  if includes (keys lb) lang then keys lb else (keys lb ++ [lang])%list.
Proof.
  induction lb as [| [key data] rest IH]; [reflexivity |].
  cbn [addFile keys map fst]. unfold includes. cbn [existsb].
  rewrite (String.eqb_sym lang key).
  destruct (String.eqb key lang); [reflexivity |].
  cbn [map fst orb]. fold (keys (addFile rest lang size)). rewrite IH.
  fold (keys rest). unfold includes.
  destruct (existsb (String.eqb lang) (keys rest)); reflexivity.
Qed.

Lemma bytesIn_addFile (lb : list (string * LanguageData)) (lang l : string)
    (size : Z) :
  bytesIn (addFile lb lang size) l =
  (bytesIn lb l + if String.eqb lang l then size else 0)%Z.
Proof.
  unfold bytesIn. induction lb as [| [key data] rest IH].
  - cbn [addFile prop]. destruct (String.eqb lang l); cbn; lia.
  - cbn [addFile]. destruct (String.eqb_spec key lang) as [-> | Hne].
    + cbn [prop]. destruct (String.eqb lang l); cbn [bytes]; lia.
    + cbn [prop]. destruct (String.eqb_spec key l) as [-> | Hne'].
      * destruct (String.eqb_spec lang l) as [-> | _]; [congruence | lia].
      * exact IH.
Qed.

Lemma NoDup_keys_addFile (lb : list (string * LanguageData)) (lang : string)
    (size : Z) :
  NoDup (keys lb) -> NoDup (keys (addFile lb lang size)).
Proof.
  intros H. rewrite keys_addFile.
  destruct (includes (keys lb) lang) eqn:E; [exact H |].
  apply NoDup_app. split; [exact H |]. split; [| apply NoDup_singleton].
  intros x Hx Hx'. apply list_elem_of_In in Hx, Hx'.
  destruct Hx' as [<- | []]. apply includes_In in Hx. congruence.
Qed.

Lemma prop_NoDup {A : Type} (table : list (string * A)) (key : string) (v : A) :
  NoDup (map fst table) -> In (key, v) table -> prop table key = Some v.
Proof.
  induction table as [| [k w] rest IH]; intros Hnd Hin; [contradiction |].
  cbn [map fst] in Hnd. apply NoDup_cons in Hnd as [Hk Hnd].
  cbn [prop]. destruct Hin as [[= -> ->] | Hin].
  - now rewrite String.eqb_refl.
  - destruct (String.eqb_spec k key) as [-> | _]; [| now apply IH].
    exfalso. apply Hk, list_elem_of_In.
    change key with (fst (key, v)). now apply in_map.
Qed.

(** What the fold of the callback over the visits accumulates. *)
Lemma fold_onFile (visits : list (string * Z)) :
  forall st,
    let st' := fold_left onFile visits st in
    keys (languageBytes st') =
      (keys (languageBytes st) ++ encounterOrder (keys (languageBytes st)) visits)%list /\
    (forall l, bytesIn (languageBytes st') l =
               (bytesIn (languageBytes st) l + bytesOf l visits)%Z) /\
    (NoDup (keys (languageBytes st)) -> NoDup (keys (languageBytes st'))).
Proof.
  induction visits as [| [filePath size] rest IH]; intros st; cbn zeta.
  - cbn [fold_left encounterOrder bytesOf]. rewrite app_nil_r.
    split; [reflexivity |]. split; [intros l; lia | auto].
  - cbn [fold_left encounterOrder bytesOf]. unfold onFile at 2 4 6.
    destruct (classify filePath) as [lang |].
    + specialize (IH {| languageBytes := addFile (languageBytes st) lang size;
                        totalFiles := totalFiles st + 1;
                        totalBytes := totalBytes st + size |}).
      cbn zeta in IH. cbn [languageBytes] in IH.
      destruct IH as (Hkeys & Hbytes & Hnd). split; [| split].
      * rewrite Hkeys, keys_addFile.
        destruct (includes (keys (languageBytes st)) lang); [reflexivity |].
        now rewrite <- app_assoc.
      * intros l. rewrite Hbytes, bytesIn_addFile. lia.
      * intros H. now apply Hnd, NoDup_keys_addFile.
    + destruct (IH st) as (Hkeys & Hbytes & Hnd). split; [| split].
      * exact Hkeys.
      * intros l. rewrite Hbytes. lia.
      * exact Hnd.
Qed.

Lemma scanVisits_keys (visits : list (string * Z)) :
  keys (languageBytes (scanVisits visits)) = encounterOrder [] visits.
Proof. exact (proj1 (fold_onFile visits emptyScan)). Qed.

Lemma scanVisits_NoDup (visits : list (string * Z)) :
  NoDup (keys (languageBytes (scanVisits visits))).
Proof. apply (fold_onFile visits emptyScan). constructor. Qed.

Lemma scanVisits_bytes (visits : list (string * Z)) (lang : string)
    (data : LanguageData) :
  In (lang, data) (languageBytes (scanVisits visits)) ->
  bytes data = bytesOf lang visits.
Proof.
  intros Hin.
  pose proof (proj1 (proj2 (fold_onFile visits emptyScan)) lang) as H.
  cbn zeta in H. fold (scanVisits visits) in H.
  unfold bytesIn in H at 1.
  rewrite (prop_NoDup _ _ _ (scanVisits_NoDup visits) Hin) in H.
  rewrite H. cbn. lia.
Qed.

Lemma keys_filter_notExcluded (lb : list (string * LanguageData)) :
  keys (List.filter notExcluded lb) = List.filter isCode (keys lb).
Proof.
  induction lb as [| [key data] rest IH]; [reflexivity |].
  cbn [List.filter keys map fst]. unfold notExcluded at 1. cbn [fst].
  fold (isCode key). destruct (isCode key); cbn [keys map fst]; fold (keys rest);
    now rewrite <- IH.
Qed.

(** ** The stable sort and the primary language *)





(** ** The percentages of the breakdown *)

Lemma sumPercentages_insert (x : LanguageBreakdown) (l : list LanguageBreakdown) :
  (sumPercentages (insertByBytes x l) == valueOf (percentage x) + sumPercentages l)%Q.
Proof.
  induction l as [| y rest IH]; cbn [insertByBytes sumPercentages fold_right].
  - reflexivity.
  - destruct (lbBytes x <? lbBytes y)%Z; cbn [sumPercentages fold_right].
    + fold (sumPercentages (insertByBytes x rest)). rewrite IH.
      fold (sumPercentages rest). ring.
    + reflexivity.
Qed.

Lemma sumPercentages_sort (l : list LanguageBreakdown) :
  (sumPercentages (sortByBytes l) == sumPercentages l)%Q.
Proof.
  induction l as [| x rest IH]; [reflexivity |].
  cbn [sortByBytes fold_right]. fold (sortByBytes rest).
  rewrite sumPercentages_insert, IH. reflexivity.
Qed.

Lemma In_insertByBytes (x y : LanguageBreakdown) (l : list LanguageBreakdown) :
  In y (insertByBytes x l) -> y = x \/ In y l.
Proof.
  induction l as [| z rest IH]; cbn [insertByBytes].
  - intros [<- | []]. now left.
  - destruct (lbBytes x <? lbBytes z)%Z.
    + intros [<- | H]; [right; now left |].
      destruct (IH H) as [-> | H']; [now left | right; now right].
    + intros [<- | H]; [now left | now right].
Qed.

Lemma In_sortByBytes (y : LanguageBreakdown) (l : list LanguageBreakdown) :
  In y (sortByBytes l) -> In y l.
Proof.
  induction l as [| x rest IH]; [intros [] |].
  cbn [sortByBytes fold_right]. fold (sortByBytes rest). intros H.
  apply In_insertByBytes in H as [-> | H]; [now left | right; now apply IH].
Qed.

Lemma codeTotalBytes_sum (lb : list (string * LanguageData)) :
  codeTotalBytes lb = sumBytes (List.filter notExcluded lb).
Proof.
  unfold codeTotalBytes. generalize (List.filter notExcluded lb) as l.
  enough (H : forall l acc,
    fold_left (fun sum entry => (sum + bytes (snd entry))%Z) l acc =
    (acc + sumBytes l)%Z) by (intros l; now rewrite H).
  induction l as [| e l IH]; intros acc; cbn [fold_left sumBytes fold_right].
  - lia.
  - rewrite IH. fold (sumBytes l). lia.
Qed.

Lemma filter_notExcluded_cons (key : string) (data : LanguageData)
    (rest : list (string * LanguageData)) :
  List.filter notExcluded ((key, data) :: rest) =
  if isCode key then (key, data) :: List.filter notExcluded rest
  else List.filter notExcluded rest.
Proof. reflexivity. Qed.

Lemma sumBytes_cons (entry : string * LanguageData)
    (rest : list (string * LanguageData)) :
  sumBytes (entry :: rest) = (bytes (snd entry) + sumBytes rest)%Z.
Proof. reflexivity. Qed.

Lemma sumBytes_addFile (lb : list (string * LanguageData)) (lang : string)
    (size : Z) :
  sumBytes (List.filter notExcluded (addFile lb lang size)) =
  (sumBytes (List.filter notExcluded lb) + if isCode lang then size else 0)%Z.
Proof.
  induction lb as [| [key data] rest IH].
  - cbn [addFile]. rewrite filter_notExcluded_cons.
    destruct (isCode lang); cbn; lia.
  - cbn [addFile]. destruct (String.eqb_spec key lang) as [-> | Hne].
    + rewrite !filter_notExcluded_cons.
      destruct (isCode lang); rewrite ?sumBytes_cons; cbn [snd bytes]; lia.
    + rewrite !filter_notExcluded_cons.
      destruct (isCode key); rewrite ?sumBytes_cons, IH; lia.
Qed.

Lemma fold_onFile_codeBytes (visits : list (string * Z)) :
  forall st,
    codeTotalBytes (languageBytes (fold_left onFile visits st)) =
    (codeTotalBytes (languageBytes st) + codeBytes visits)%Z.
Proof.
  induction visits as [| [filePath size] rest IH]; intros st;
    cbn [fold_left codeBytes]; [lia |].
  rewrite IH. unfold onFile. destruct (classify filePath) as [lang |]; [| lia].
  cbn [languageBytes]. rewrite !codeTotalBytes_sum, sumBytes_addFile. lia.
Qed.

Lemma scanVisits_codeBytes (visits : list (string * Z)) :
  codeTotalBytes (languageBytes (scanVisits visits)) = codeBytes visits.
Proof. unfold scanVisits. now rewrite fold_onFile_codeBytes. Qed.

(** *** Rounding in binary64 *)

Section Binary64.

Local Open Scope Z_scope.

Lemma digits2_pos_bounds (p : positive) :
  2 ^ (Z.pos (digits2_pos p) - 1) <= Z.pos p < 2 ^ Z.pos (digits2_pos p).
Proof.
  induction p as [p IH | p IH |]; cbn [digits2_pos].
  - rewrite Pos2Z.inj_succ, Z.pow_succ_r by lia.
    replace (Z.succ (Z.pos (digits2_pos p)) - 1)
      with (Z.succ (Z.pos (digits2_pos p) - 1)) by lia.
    rewrite Z.pow_succ_r by lia. lia.
  - rewrite Pos2Z.inj_succ, Z.pow_succ_r by lia.
    replace (Z.succ (Z.pos (digits2_pos p)) - 1)
      with (Z.succ (Z.pos (digits2_pos p) - 1)) by lia.
    rewrite Z.pow_succ_r by lia. lia.
  - cbn. lia.
Qed.

Lemma digits2_pos_unique (p : positive) (k : Z) :
  2 ^ (k - 1) <= Z.pos p < 2 ^ k -> Z.pos (digits2_pos p) = k.
Proof.
  intros [Hlo Hhi]. pose proof (digits2_pos_bounds p) as [Hl Hh].
  assert (0 < k).
  { destruct (Z.ltb_spec 0 k) as [H | H]; [exact H |].
    assert (2 ^ k <= 2 ^ 0) by (apply Z.pow_le_mono_r; lia).
    change (2 ^ 0) with 1 in *. lia. }
  assert (Hk : k - 1 < Z.pos (digits2_pos p)).
  { apply (Z.pow_lt_mono_r_iff 2); lia. }
  assert (Hd : Z.pos (digits2_pos p) - 1 < k).
  { apply (Z.pow_lt_mono_r_iff 2); lia. }
  lia.
Qed.

Lemma shr_1_m (mrs : shr_record) :
  0 <= shr_m mrs -> shr_m (shr_1 mrs) = Z.div2 (shr_m mrs).
Proof.
  destruct mrs as [[| [p | p |] | p] r s]; cbn [shr_m]; intros H;
    try reflexivity; lia.
Qed.

Lemma iter_shr_1_m (p : positive) :
  forall mrs, 0 <= shr_m mrs ->
    shr_m (SpecFloat.iter_pos shr_1 p mrs) = shr_m mrs / 2 ^ Z.pos p.
Proof.
  induction p as [p IH | p IH |]; intros mrs Hm; cbn [SpecFloat.iter_pos].
  - assert (H1 : 0 <= shr_m (shr_1 mrs)).
    { rewrite shr_1_m, Z.div2_div by exact Hm. apply Z.div_pos; lia. }
    assert (H2 : 0 <= shr_m (SpecFloat.iter_pos shr_1 p (shr_1 mrs))).
    { rewrite IH by exact H1. apply Z.div_pos; [exact H1 | apply Z.pow_pos_nonneg; lia]. }
    rewrite IH by exact H2. rewrite IH by exact H1.
    rewrite shr_1_m, Z.div2_div by exact Hm.
    rewrite !Z.div_div by (try apply Z.pow_pos_nonneg; lia).
    f_equal.
    replace (Z.pos p~1) with (1 + Z.pos p + Z.pos p) by lia.
    rewrite (Z.pow_add_r 2 (1 + Z.pos p) (Z.pos p)) by lia.
    rewrite (Z.pow_add_r 2 1 (Z.pos p)) by lia. change (2 ^ 1) with 2. lia.
  - assert (H2 : 0 <= shr_m (SpecFloat.iter_pos shr_1 p mrs)).
    { rewrite IH by exact Hm. apply Z.div_pos; [exact Hm | apply Z.pow_pos_nonneg; lia]. }
    rewrite IH by exact H2. rewrite IH by exact Hm.
    rewrite !Z.div_div by (try apply Z.pow_pos_nonneg; lia).
    f_equal.
    replace (Z.pos p~0) with (Z.pos p + Z.pos p) by lia.
    rewrite (Z.pow_add_r 2 (Z.pos p) (Z.pos p)) by lia. lia.
  - rewrite shr_1_m, Z.div2_div by exact Hm. reflexivity.
Qed.

Lemma shr_m_record_of_loc (m : Z) (l : location) :
  shr_m (shr_record_of_loc m l) = m.
Proof. destruct l as [| []]; reflexivity. Qed.

Lemma round_nearest_even_cases (m : Z) (l : location) :
  round_nearest_even m l = m \/ round_nearest_even m l = m + 1.
Proof.
  destruct l as [| []]; cbn; try (now left); try (now right).
  destruct (Z.even m); [now left | now right].
Qed.

(** The first shift of [binary_round_aux]: a mantissa of [d >= 53]
    digits in the normal range loses its [d - 53] low bits. *)
Lemma shr_fexp_normal (mx : positive) (ex : Z) (lx : location) :
  let d := Z.pos (digits2_pos mx) in
  53 <= d -> -1074 <= d + ex - 53 ->
  exists mrs,
    shr_fexp prec emax (Z.pos mx) ex lx = (mrs, ex + (d - 53)) /\
    shr_m mrs = Z.pos mx / 2 ^ (d - 53) /\
    (d = 53 -> loc_of_shr_record mrs = lx).
Proof.
  cbv zeta. intros Hd Hnormal.
  unfold shr_fexp, fexp, SpecFloat.emin, prec, emax. cbn [Zdigits2].
  rewrite Z.max_l by lia.
  replace (Z.pos (digits2_pos mx) + ex - 53 - ex)
    with (Z.pos (digits2_pos mx) - 53) by lia.
  destruct (Z.pos (digits2_pos mx) - 53) as [| n | n] eqn:E; [| | lia].
  - exists (shr_record_of_loc (Z.pos mx) lx). cbn [shr].
    rewrite Z.add_0_r, shr_m_record_of_loc. split; [reflexivity |].
    split; [now rewrite Z.div_1_r |]. intros _. now destruct lx as [| []].
  - exists (SpecFloat.iter_pos shr_1 n (shr_record_of_loc (Z.pos mx) lx)). cbn [shr].
    split; [reflexivity |]. split; [| lia].
    rewrite iter_shr_1_m by (rewrite shr_m_record_of_loc; lia).
    now rewrite shr_m_record_of_loc.
Qed.

(** Rounding to nearest of a positive mantissa of at least 53 digits, in
    the normal range and below the overflow threshold: the result is a
    normal number whose mantissa is the truncated mantissa or its
    successor, the carry into a 54th digit included. *)
Lemma binary_round_aux_normal (sx : bool) (mx : positive) (ex : Z)
    (lx : location) :
  let d := Z.pos (digits2_pos mx) in
  let m1 := Z.pos mx / 2 ^ (d - 53) in
  53 <= d -> -1074 <= d + ex - 53 -> d + ex - 53 < 971 ->
  exists m e,
    binary_round_aux prec emax sx (Z.pos mx) ex lx = S754_finite sx m e /\
    2 ^ 52 <= Z.pos m < 2 ^ 53 /\
    2 ^ 52 <= m1 < 2 ^ 53 /\
    ((e = ex + (d - 53) /\ (Z.pos m = m1 \/ Z.pos m = m1 + 1)) \/
     (e = ex + (d - 53) + 1 /\ m1 + 1 = 2 ^ 53 /\ Z.pos m = 2 ^ 52)) /\
    (d = 53 -> lx = loc_Exact -> m = mx /\ e = ex).
Proof.
  cbv zeta. intros Hd Hnormal Hmax.
  destruct (shr_fexp_normal mx ex lx Hd Hnormal) as (mrs & Hshr & Hm1 & Hloc).
  pose proof (digits2_pos_bounds mx) as [Hlo Hhi].
  set (d := Z.pos (digits2_pos mx)) in *.
  set (m1 := Z.pos mx / 2 ^ (d - 53)) in *.
  assert (Hpow : 2 ^ (d - 1) = 2 ^ 52 * 2 ^ (d - 53)).
  { rewrite <- Z.pow_add_r by lia. f_equal. lia. }
  assert (Hpow' : 2 ^ d = 2 ^ 53 * 2 ^ (d - 53)).
  { rewrite <- Z.pow_add_r by lia. f_equal. lia. }
  assert (Hn : 0 < 2 ^ (d - 53)) by (apply Z.pow_pos_nonneg; lia).
  assert (Hm1b : 2 ^ 52 <= m1 < 2 ^ 53).
  { unfold m1. split.
    - apply Z.div_le_lower_bound; lia.
    - apply Z.div_lt_upper_bound; lia. }
  unfold binary_round_aux. rewrite Hshr, Hm1.
  fold m1.
  destruct (round_nearest_even_cases m1 (loc_of_shr_record mrs)) as [Hr | Hr].
  - (* the mantissa is kept *)
    destruct m1 as [| p1 |] eqn:Ep1; [lia | | lia].
    rewrite Hr.
    assert (Hd1 : Z.pos (digits2_pos p1) = 53) by (apply digits2_pos_unique; lia).
    unfold shr_fexp, fexp, SpecFloat.emin, prec, emax. cbn [Zdigits2].
    rewrite Hd1, Z.max_l by lia.
    replace (53 + (ex + (d - 53)) - 53 - (ex + (d - 53))) with 0 by lia.
    cbn [shr shr_record_of_loc shr_m].
    destruct (Z.leb_spec (ex + (d - 53)) (1024 - 53)) as [_ | Hbad]; [| lia].
    exists p1, (ex + (d - 53)). split; [reflexivity |].
    split; [lia |]. split; [lia |]. split; [left; split; [reflexivity | now left] |].
    intros Hd53 Hexact. split; [| lia].
    assert (Hz : Z.pos p1 = Z.pos mx).
    { rewrite <- Ep1. unfold m1. rewrite Hd53. cbn. now rewrite Z.div_1_r. }
    congruence.
  - rewrite Hr.
    destruct (Z.eq_dec (m1 + 1) (2 ^ 53)) as [Hcarry | Hnocarry].
    + (* the carry *)
      rewrite Hcarry.
      unfold shr_fexp, fexp, SpecFloat.emin, prec, emax.
      change (Zdigits2 (2 ^ 53)) with 54.
      rewrite Z.max_l by lia.
      replace (54 + (ex + (d - 53)) - 53 - (ex + (d - 53))) with 1 by lia.
      cbn [shr shr_record_of_loc SpecFloat.iter_pos]. cbn [shr_1 shr_m].
      change (shr_m (shr_1 {| shr_m := 2 ^ 53; shr_r := false; shr_s := false |}))
        with (2 ^ 52).
      change (2 ^ 52) with (Z.pos 4503599627370496).
      cbv iota beta.
      destruct (Z.leb_spec (ex + (d - 53) + 1) (1024 - 53)) as [_ | Hbad]; [| lia].
      exists 4503599627370496%positive, (ex + (d - 53) + 1).
      split; [reflexivity |]. split; [lia |]. split; [lia |].
      split; [right; split; [reflexivity | split; reflexivity] |].
      intros Hd53 Hexact. exfalso.
      rewrite (Hloc Hd53), Hexact in Hr. cbn in Hr. lia.
    + destruct (m1 + 1) as [| p1 |] eqn:Ep1; [lia | | lia].
      assert (Hd1 : Z.pos (digits2_pos p1) = 53) by (apply digits2_pos_unique; lia).
      unfold shr_fexp, fexp, SpecFloat.emin, prec, emax. cbn [Zdigits2].
      rewrite Hd1, Z.max_l by lia.
      replace (53 + (ex + (d - 53)) - 53 - (ex + (d - 53))) with 0 by lia.
      cbn [shr shr_record_of_loc shr_m].
      destruct (Z.leb_spec (ex + (d - 53)) (1024 - 53)) as [_ | Hbad]; [| lia].
      exists p1, (ex + (d - 53)). split; [reflexivity |].
      split; [lia |]. split; [lia |].
      split; [left; split; [reflexivity | now right] |].
      intros Hd53 Hexact. exfalso.
      rewrite (Hloc Hd53), Hexact in Hr. cbn in Hr. lia.
Qed.

Lemma iter_xO (k mx : positive) :
  Z.pos (Pos.iter xO mx k) = Z.pos mx * 2 ^ Z.pos k.
Proof.
  change (Pos.iter xO mx k) with (shift_pos k mx).
  rewrite shift_pos_correct, Zpower_pos_nat, Zpower_nat_Z.
  rewrite positive_nat_Z. lia.
Qed.

(** An integer between 1 and 2^53 - 1 is a binary64 number: the mantissa
    holds it shifted to 53 digits. *)
Lemma float_of_Z_normal (n : Z) :
  0 < n < 2 ^ 53 ->
  exists m e,
    Prim2SF (float_of_Z n) = S754_finite false m e /\
    2 ^ 52 <= Z.pos m < 2 ^ 53 /\ -52 <= e <= 0 /\
    Z.pos m = n * 2 ^ (- e).
Proof.
  intros [Hpos Hlt]. unfold float_of_Z.
  destruct (Z.ltb_spec n 0) as [Hneg | _]; [lia |].
  rewrite of_uint63_spec, Uint63.of_Z_spec.
  rewrite Z.mod_small by (change wB with (2 ^ 63); change (2 ^ 53) with 9007199254740992 in Hlt; change (2 ^ 63) with 9223372036854775808; lia).
  destruct n as [| p |]; [lia | | lia].
  cbn [binary_normalize]. unfold binary_round.
  pose proof (digits2_pos_bounds p) as [Hlo Hhi].
  set (d := Z.pos (digits2_pos p)) in *.
  assert (Hd : 1 <= d <= 53).
  { split; [unfold d; lia |].
    assert (d - 1 < 53) by (apply (Z.pow_lt_mono_r_iff 2); lia). lia. }
  unfold fexp, SpecFloat.emin, prec, emax. rewrite Z.max_l by lia.
  unfold shl_align.
  replace (d + 0 - 53 - 0) with (d - 53) by lia.
  destruct (d - 53) as [| k | k] eqn:Ek; [| lia |].
  - (* 53 digits already *)
    destruct (binary_round_aux_normal false p 0 loc_Exact)
      as (m & e & Hr & Hm & _ & _ & Hexact); fold d; try lia.
    destruct (Hexact ltac:(lia) eq_refl) as [-> ->].
    exists p, 0. replace (d + 0 - 53) with 0 by lia.
    unfold prec, emax in Hr. rewrite Hr. split; [reflexivity |]. split; [lia |]. split; [lia |].
    cbn. lia.
  - pose proof (iter_xO k p) as Hshift.
    assert (Hk : Z.pos k = 53 - d) by lia.
    assert (Hpow : 2 ^ 53 = 2 ^ d * 2 ^ Z.pos k).
    { rewrite <- Z.pow_add_r by lia. f_equal. lia. }
    assert (Hpow' : 2 ^ 52 = 2 ^ (d - 1) * 2 ^ Z.pos k).
    { rewrite <- Z.pow_add_r by lia. f_equal. lia. }
    assert (Hkpos : 0 < 2 ^ Z.pos k) by (apply Z.pow_pos_nonneg; lia).
    assert (Hm : 2 ^ 52 <= Z.pos (Pos.iter xO p k) < 2 ^ 53).
    { rewrite Hshift, Hpow, Hpow'. split.
      - apply Z.mul_le_mono_nonneg_r; lia.
      - apply Z.mul_lt_mono_pos_r; lia. }
    assert (Hdig : Z.pos (digits2_pos (Pos.iter xO p k)) = 53)
      by (apply digits2_pos_unique; exact Hm).
    destruct (binary_round_aux_normal false (Pos.iter xO p k) (d + 0 - 53) loc_Exact)
      as (m & e & Hr & _ & _ & _ & Hexact); rewrite ?Hdig; try lia.
    destruct (Hexact Hdig eq_refl) as [-> ->].
    exists (Pos.iter xO p k), (d + 0 - 53).
    unfold prec, emax in Hr. rewrite Hr. split; [reflexivity |]. split; [exact Hm |]. split; [lia |].
    rewrite Hshift. f_equal. f_equal. lia.
Qed.

Lemma Qpow2_pos (e : Z) : (0 < 2 ^ e)%Q.
Proof. apply Qpower_0_lt. reflexivity. Qed.

Lemma Qpow2_add (a b : Z) : (2 ^ (a + b) == 2 ^ a * 2 ^ b)%Q.
Proof. apply Qpower_plus. discriminate. Qed.

Lemma Qpow2_Z (n : Z) : 0 <= n -> (2 ^ n == inject_Z (2 ^ n))%Q.
Proof. intros Hn. now rewrite Zpower_Qpower. Qed.

Lemma Qpow2_sub (a b : Z) :
  0 <= a -> 0 <= b ->
  (2 ^ (a - b) == inject_Z (2 ^ a) / inject_Z (2 ^ b))%Q.
Proof.
  intros Ha Hb. rewrite Qpower_minus by discriminate.
  now rewrite !Qpow2_Z.
Qed.

Lemma Qdiv_le_cross (x y z w : Z) :
  0 < y -> 0 < w -> x * w <= z * y ->
  (inject_Z x / inject_Z y <= inject_Z z / inject_Z w)%Q.
Proof.
  intros Hy Hw H. destruct y as [| y |]; [lia | | lia].
  destruct w as [| w |]; [lia | | lia].
  unfold Qle, Qdiv, Qmult, Qinv, inject_Z. cbn. lia.
Qed.

(** Rounding, as a relative error: the rounded number is within one part
    in 2^52 of any number [v] that the mantissa and its successor
    enclose. *)
Lemma binary_round_aux_error (sx : bool) (mx : positive) (ex : Z)
    (lx : location) (v : Q) :
  let d := Z.pos (digits2_pos mx) in
  53 <= d -> -1074 <= d + ex - 53 -> d + ex - 53 < 971 ->
  (inject_Z (Z.pos mx) * 2 ^ ex <= v)%Q ->
  (v <= inject_Z (Z.pos mx + 1) * 2 ^ ex)%Q ->
  exists m e,
    binary_round_aux prec emax sx (Z.pos mx) ex lx = S754_finite sx m e /\
    2 ^ 52 <= Z.pos m < 2 ^ 53 /\
    ex + (d - 53) <= e <= ex + (d - 53) + 1 /\
    ((1 - (1 # 2 ^ 52)) * v <= inject_Z (Z.pos m) * 2 ^ e)%Q /\
    (inject_Z (Z.pos m) * 2 ^ e <= (1 + (1 # 2 ^ 52)) * v)%Q.
Proof.
  cbv zeta. intros Hd Hnormal Hmax Hlo Hhi.
  destruct (binary_round_aux_normal sx mx ex lx Hd Hnormal Hmax)
    as (m & e & Hr & Hm & Hm1 & Hcases & _).
  exists m, e. split; [exact Hr |]. split; [exact Hm |].
  set (d := Z.pos (digits2_pos mx)) in *.
  set (n := d - 53) in *.
  set (m1 := Z.pos mx / 2 ^ n) in *.
  assert (Hn : 0 < 2 ^ n) by (apply Z.pow_pos_nonneg; lia).
  assert (Hdiv1 : m1 * 2 ^ n <= Z.pos mx).
  { unfold m1. rewrite Z.mul_comm. apply Z.mul_div_le. exact Hn. }
  assert (Hdiv2 : Z.pos mx + 1 <= (m1 + 1) * 2 ^ n).
  { unfold m1. pose proof (Z.mul_succ_div_gt (Z.pos mx) (2 ^ n) Hn). lia. }
  set (u := (2 ^ (ex + n))%Q).
  assert (Hu : (0 < u)%Q) by apply Qpow2_pos.
  assert (Hu' : (u == inject_Z (2 ^ n) * 2 ^ ex)%Q).
  { unfold u. rewrite Qpow2_add, (Qpow2_Z n) by lia. ring. }
  set (w := (inject_Z m1 * u)%Q).
  assert (Hw1 : (w <= v)%Q).
  { apply Qle_trans with (2 := Hlo). unfold w. rewrite Hu'.
    rewrite Qmult_assoc, <- inject_Z_mult.
    apply Qmult_le_compat_r; [| apply Qlt_le_weak, Qpow2_pos].
    rewrite <- Zle_Qle. exact Hdiv1. }
  assert (Hw2 : (v <= w + u)%Q).
  { apply Qle_trans with (1 := Hhi).
    assert (Heq : (w + u == inject_Z ((m1 + 1) * 2 ^ n) * 2 ^ ex)%Q).
    { unfold w. rewrite Hu', !inject_Z_mult, inject_Z_plus. ring. }
    rewrite Heq.
    apply Qmult_le_compat_r; [| apply Qlt_le_weak, Qpow2_pos].
    rewrite <- Zle_Qle. exact Hdiv2. }
  assert (Hw3 : (inject_Z (2 ^ 52) * u <= w)%Q).
  { unfold w. apply Qmult_le_compat_r; [| apply Qlt_le_weak, Hu].
    rewrite <- Zle_Qle. lia. }
  assert (Hvalue : (inject_Z (Z.pos m) * 2 ^ e == w)%Q \/
                   (inject_Z (Z.pos m) * 2 ^ e == w + u)%Q).
  { destruct Hcases as [[-> [-> | ->]] | (-> & Hcarry & ->)].
    - left. reflexivity.
    - right. unfold w. fold n. fold u. rewrite inject_Z_plus. ring.
    - right. fold n.
      assert (Heq : (w + u == inject_Z (m1 + 1) * u)%Q).
      { unfold w. rewrite inject_Z_plus. ring. }
      rewrite Heq, Hcarry. unfold u. rewrite (Qpow2_add (ex + n) 1).
      change (2 ^ 53) with (2 ^ 52 * 2). rewrite inject_Z_mult.
      change (2 ^ 1)%Q with (inject_Z 2). ring. }
  split; [destruct Hcases as [[-> _] | (-> & _)]; fold n; lia |].
  change (inject_Z (2 ^ 52)) with (4503599627370496 # 1)%Q in Hw3.
  change (1 # 2 ^ 52)%Q with (1 # 4503599627370496)%Q.
  destruct Hvalue as [-> | ->]; split; lra.
Qed.

Lemma digits2_pos_range (p : positive) (a b : Z) :
  0 <= a -> 2 ^ a <= Z.pos p < 2 ^ b -> a < Z.pos (digits2_pos p) <= b.
Proof.
  intros Ha [Hlo Hhi]. pose proof (digits2_pos_bounds p) as [Hl Hh].
  assert (Hb : 0 <= b).
  { destruct (Z.leb_spec 0 b) as [H | H]; [exact H |].
    rewrite Z.pow_neg_r in Hhi by lia. lia. }
  split.
  - apply (Z.pow_lt_mono_r_iff 2); lia.
  - assert (Z.pos (digits2_pos p) - 1 < b)
      by (apply (Z.pow_lt_mono_r_iff 2); lia). lia.
Qed.

Lemma Qmult_div_assoc (x c d : Q) :
  ~ (d == 0)%Q -> (x * (c / d) == x * c / d)%Q.
Proof. intros Hd. field. exact Hd. Qed.

(** The quotient of two integers below 2^53, as binary64 computes it. *)
Lemma div_error (b t : Z) :
  0 < b < 2 ^ 53 -> 0 < t < 2 ^ 53 ->
  exists m e,
    Prim2SF (float_of_Z b / float_of_Z t)%float = S754_finite false m e /\
    2 ^ 52 <= Z.pos m < 2 ^ 53 /\ -157 <= e <= 1 /\
    ((1 - (1 # 2 ^ 52)) * (inject_Z b / inject_Z t)
       <= inject_Z (Z.pos m) * 2 ^ e)%Q /\
    (inject_Z (Z.pos m) * 2 ^ e
       <= (1 + (1 # 2 ^ 52)) * (inject_Z b / inject_Z t))%Q.
Proof.
  intros Hb Ht.
  destruct (float_of_Z_normal b Hb) as (mx & ex & Hx & Hmx & Hex & Hvx).
  destruct (float_of_Z_normal t Ht) as (my & ey & Hy & Hmy & Hey & Hvy).
  rewrite FloatAxioms.div_spec, Hx, Hy. unfold SF64div, SFdiv, SFdiv_core_binary.
  cbn [Zdigits2 xorb].
  rewrite (digits2_pos_unique mx 53), (digits2_pos_unique my 53) by exact Hmx || exact Hmy.
  unfold fexp, SpecFloat.emin, prec, emax.
  rewrite Z.max_l, Z.min_l by lia.
  replace (ex - ey - (53 + ex - (53 + ey) - 53)) with 53 by lia.
  cbv iota beta. rewrite Z.shiftl_mul_pow2 by lia.
  pose proof (Z_div_mod (Z.pos mx * 2 ^ 53) (Z.pos my) ltac:(lia)) as Hdiv.
  destruct (Z.div_eucl (Z.pos mx * 2 ^ 53) (Z.pos my)) as [q r].
  destruct Hdiv as [Hq Hr].
  assert (Hqb : 2 ^ 52 <= q < 2 ^ 54).
  { change (2 ^ 54) with (2 * 2 ^ 53). change (2 ^ 53) with (2 * 2 ^ 52) in *.
    set (P := 2 ^ 52) in *. assert (0 < P) by (unfold P; lia). nia. }
  destruct q as [| q |]; [lia | | lia].
  pose proof (digits2_pos_range q 52 54 ltac:(lia) Hqb) as Hdq.
  set (A := 2 ^ (- ex)) in *. set (C := 2 ^ (- ey)) in *.
  assert (HA : 0 < A) by (apply Z.pow_pos_nonneg; lia).
  assert (HC : 0 < C) by (apply Z.pow_pos_nonneg; lia).
  assert (Hpow : (2 ^ (53 + ex - (53 + ey) - 53) ==
                  inject_Z C / inject_Z (A * 2 ^ 53))%Q).
  { replace (53 + ex - (53 + ey) - 53) with (- ey - (- ex + 53)) by lia.
    rewrite Qpow2_sub by lia. unfold A, C.
    rewrite Z.pow_add_r by lia. reflexivity. }
  assert (HD : ~ (inject_Z (A * 2 ^ 53) == 0)%Q).
  { change 0%Q with (inject_Z 0). rewrite inject_Z_injective. lia. }
  destruct (binary_round_aux_error false q (53 + ex - (53 + ey) - 53)
              (new_location (Z.pos my) r) (inject_Z b / inject_Z t))
    as (m & e & Hround & Hm & He & Hlo & Hhi); try lia.
  - rewrite Hpow.
    assert (Heq : (inject_Z (Z.pos q) * (inject_Z C / inject_Z (A * 2 ^ 53)) ==
                   inject_Z (Z.pos q * C) / inject_Z (A * 2 ^ 53))%Q).
    { rewrite inject_Z_mult. apply Qmult_div_assoc. exact HD. }
    rewrite Heq. apply Qdiv_le_cross; [lia | lia |]. nia.
  - rewrite Hpow.
    assert (Heq : (inject_Z (Z.pos q + 1) * (inject_Z C / inject_Z (A * 2 ^ 53)) ==
                   inject_Z ((Z.pos q + 1) * C) / inject_Z (A * 2 ^ 53))%Q).
    { rewrite inject_Z_mult. apply Qmult_div_assoc. exact HD. }
    rewrite Heq. apply Qdiv_le_cross; [lia | lia |]. nia.
  - exists m, e. unfold prec, emax in Hround. rewrite Hround.
    split; [reflexivity |]. split; [exact Hm |]. split; [lia |].
    split; assumption.
Qed.

(** One percentage: a finite number within one part in 2^50 of
    [100 * b / t]. *)
Lemma percentage_error (b t : Z) :
  0 <= b < 2 ^ 53 -> 0 < t < 2 ^ 53 ->
  isFinite ((float_of_Z b / float_of_Z t * 100)%float) = true /\
  ((1 - (1 # 2 ^ 50)) * (100 * (inject_Z b / inject_Z t))
     <= valueOf ((float_of_Z b / float_of_Z t * 100)%float))%Q /\
  (valueOf ((float_of_Z b / float_of_Z t * 100)%float)
     <= (1 + (1 # 2 ^ 50)) * (100 * (inject_Z b / inject_Z t)))%Q.
Proof.
  intros Hb Ht. unfold isFinite, valueOf.
  destruct (Z.eq_dec b 0) as [-> | Hnz].
  - destruct (float_of_Z_normal t Ht) as (my & ey & Hy & _).
    rewrite FloatAxioms.mul_spec, FloatAxioms.div_spec, Hy.
    change (Prim2SF (float_of_Z 0)) with (S754_zero false).
    change (Prim2SF 100) with (S754_finite false 7036874417766400 (-46)).
    cbn [SF64div SFdiv SF64mul SFmul xorb].
    split; [reflexivity |].
    assert (H0 : (inject_Z 0 / inject_Z t == 0)%Q)
      by (unfold Qdiv; change (inject_Z 0) with 0%Q; ring).
    rewrite H0. split; lra.
  - destruct (div_error b t ltac:(lia) Ht)
      as (m & e & Hq & Hm & He & Hlo & Hhi).
    rewrite FloatAxioms.mul_spec, Hq.
    change (Prim2SF 100) with (S754_finite false 7036874417766400 (-46)).
    unfold SF64mul, SFmul. cbn [xorb].
    assert (Hprod : 2 ^ 104 <= Z.pos (m * 7036874417766400) < 2 ^ 106).
    { rewrite Pos2Z.inj_mul.
      change (2 ^ 104) with (2 ^ 52 * 2 ^ 52).
      change (2 ^ 106) with (2 ^ 53 * 2 ^ 53).
      change (2 ^ 52) with 4503599627370496 in *.
      change (2 ^ 53) with 9007199254740992 in *. nia. }
    pose proof (digits2_pos_range _ 104 106 ltac:(lia) Hprod) as Hd.
    set (v2 := (inject_Z (Z.pos (m * 7036874417766400)) * 2 ^ (e + -46))%Q).
    assert (Hv2 : (v2 == 100 * (inject_Z (Z.pos m) * 2 ^ e))%Q).
    { unfold v2. rewrite Pos2Z.inj_mul, inject_Z_mult, Qpow2_add.
      assert (H100 : (inject_Z 7036874417766400 * 2 ^ (-46) == 100)%Q)
        by (vm_compute; reflexivity).
      rewrite <- H100. ring. }
    destruct (binary_round_aux_error false (m * 7036874417766400) (e + -46)
                loc_Exact v2)
      as (m2 & e2 & Hround & _ & _ & Hlo2 & Hhi2); try lia.
    + apply Qle_refl.
    + unfold v2. apply Qmult_le_compat_r; [| apply Qlt_le_weak, Qpow2_pos].
      rewrite <- Zle_Qle. lia.
    + unfold prec, emax in Hround |- *. rewrite Hround.
      split; [reflexivity |].
      rewrite Hv2 in Hlo2, Hhi2.
      change (1 # 2 ^ 52)%Q with (1 # 4503599627370496)%Q in *.
      change (1 # 2 ^ 50)%Q with (1 # 1125899906842624)%Q.
      set (r1 := (inject_Z (Z.pos m) * 2 ^ e)%Q) in *.
      set (r2 := (inject_Z (Z.pos m2) * 2 ^ e2)%Q) in *.
      set (v := (inject_Z b / inject_Z t)%Q) in *.
      split; lra.
Qed.

(** One percentage is a term of a sum. *)
Lemma percentage_summand (b t : Z) :
  0 <= b < 2 ^ 53 -> 0 < t < 2 ^ 53 ->
  summand (float_of_Z b / float_of_Z t * 100)%float 10.
Proof.
  intros Hb Ht. unfold summand.
  destruct (Z.eq_dec b 0) as [-> | Hnz].
  - destruct (float_of_Z_normal t Ht) as (my & ey & Hy & _).
    rewrite FloatAxioms.mul_spec, FloatAxioms.div_spec, Hy.
    change (Prim2SF (float_of_Z 0)) with (S754_zero false).
    change (Prim2SF 100) with (S754_finite false 7036874417766400 (-46)).
    cbn [SF64div SFdiv SF64mul SFmul xorb]. now left.
  - destruct (div_error b t ltac:(lia) Ht)
      as (m & e & Hq & Hm & He & _).
    rewrite FloatAxioms.mul_spec, Hq.
    change (Prim2SF 100) with (S754_finite false 7036874417766400 (-46)).
    unfold SF64mul, SFmul. cbn [xorb].
    assert (Hprod : 2 ^ 104 <= Z.pos (m * 7036874417766400) < 2 ^ 106).
    { rewrite Pos2Z.inj_mul.
      change (2 ^ 104) with (2 ^ 52 * 2 ^ 52).
      change (2 ^ 106) with (2 ^ 53 * 2 ^ 53).
      change (2 ^ 52) with 4503599627370496 in *.
      change (2 ^ 53) with 9007199254740992 in *. nia. }
    pose proof (digits2_pos_range _ 104 106 ltac:(lia) Hprod) as Hd.
    destruct (binary_round_aux_normal false (m * 7036874417766400) (e + -46)
                loc_Exact)
      as (m2 & e2 & Hround & Hm2 & _ & Hcases & _); try lia.
    unfold prec, emax in Hround |- *. rewrite Hround.
    right. exists m2, e2. split; [reflexivity |]. split; [exact Hm2 |].
    destruct Hcases as [[-> _] | (-> & _)]; lia.
Qed.

Lemma shl_align_fst (mx : positive) (ex ez : Z) :
  ez <= ex -> Z.pos (fst (shl_align mx ex ez)) = Z.pos mx * 2 ^ (ex - ez).
Proof.
  intros Hle. unfold shl_align.
  destruct (ez - ex) as [| k | k] eqn:E; [| lia |]; cbn [fst].
  - replace (ex - ez) with 0 by lia. cbn. lia.
  - rewrite iter_xO. f_equal. f_equal. lia.
Qed.

Lemma summand_value (x : float) (top : Z) :
  summand x top -> (0 <= valueOf x)%Q /\ isFinite x = true.
Proof.
  unfold valueOf, isFinite.
  intros [-> | (m & e & -> & _)]; [split; [apply Qle_refl | reflexivity] |].
  split; [| reflexivity]. apply Qmult_le_0_compat.
  - change 0%Q with (inject_Z 0). rewrite <- Zle_Qle. lia.
  - apply Qlt_le_weak, Qpow2_pos.
Qed.

Lemma summand_weaken (x : float) (top top' : Z) :
  top <= top' -> summand x top -> summand x top'.
Proof.
  intros Hle [H | (m & e & H & Hm & He)]; [now left | right].
  exists m, e. split; [exact H |]. split; [exact Hm | lia].
Qed.

(** The sum of two terms, as binary64 computes it. *)
Lemma add_error (x y : float) (top : Z) :
  top <= 900 -> summand x top -> summand y top ->
  summand (x + y)%float (top + 2) /\
  ((1 - (1 # 2 ^ 52)) * (valueOf x + valueOf y) <= valueOf (x + y)%float)%Q /\
  (valueOf (x + y)%float <= (1 + (1 # 2 ^ 52)) * (valueOf x + valueOf y))%Q.
Proof.
  intros Htop Hx Hy.
  pose proof (summand_value x top Hx) as [Hx0 _].
  pose proof (summand_value y top Hy) as [Hy0 _].
  change (1 # 2 ^ 52)%Q with (1 # 4503599627370496)%Q.
  revert Hx0 Hy0. unfold summand, valueOf.
  rewrite FloatAxioms.add_spec.
  destruct Hx as [-> | (mx & ex & -> & Hmx & Hex)];
    destruct Hy as [-> | (my & ey & -> & Hmy & Hey)];
    cbn [SF64add SFadd]; intros Hx0 Hy0.
  - split; [now left |]. split; lra.
  - split; [right; exists my, ey; repeat split; lia |]. split; lra.
  - split; [right; exists mx, ex; repeat split; lia |]. split; lra.
  - unfold SF64add, SFadd. cbn [cond_Zopp].
    set (ez := Z.min ex ey).
    rewrite !shl_align_fst by (unfold ez; lia).
    set (a := ex - ez). set (c := ey - ez).
    assert (Ha : 0 <= a) by (unfold a, ez; lia).
    assert (Hc : 0 <= c) by (unfold c, ez; lia).
    assert (HA : 0 < 2 ^ a) by (apply Z.pow_pos_nonneg; lia).
    assert (HC : 0 < 2 ^ c) by (apply Z.pow_pos_nonneg; lia).
    set (hi := Z.max ex ey - ez).
    assert (Hhia : 2 ^ a <= 2 ^ hi) by (apply Z.pow_le_mono_r; unfold a, hi; lia).
    assert (Hhic : 2 ^ c <= 2 ^ hi) by (apply Z.pow_le_mono_r; unfold c, hi; lia).
    assert (Hsum : 2 ^ 52 <= Z.pos mx * 2 ^ a + Z.pos my * 2 ^ c < 2 ^ (54 + hi)).
    { rewrite Z.pow_add_r by (unfold hi, ez; lia).
      change (2 ^ 54) with (2 * 2 ^ 53). nia. }
    destruct (Z.pos mx * 2 ^ a + Z.pos my * 2 ^ c) as [| p |] eqn:Ep; [lia | | lia].
    cbn [binary_normalize]. unfold binary_round.
    pose proof (digits2_pos_range p 52 (54 + hi) ltac:(lia) Hsum) as Hd.
    set (d := Z.pos (digits2_pos p)) in *.
    assert (Halign : shl_align p ez (fexp prec emax (d + ez)) = (p, ez)).
    { unfold shl_align, fexp, SpecFloat.emin, prec, emax.
      rewrite Z.max_l by (unfold ez; lia).
      destruct (d + ez - 53 - ez) as [| k | k] eqn:E; [reflexivity | reflexivity | lia]. }
    rewrite Halign.
    destruct (binary_round_aux_error false p ez loc_Exact
                (inject_Z (Z.pos p) * 2 ^ ez)%Q)
      as (m & e & Hround & Hm & He & Hlo & Hhi); fold d;
      try (unfold ez, hi in *; lia).
    + apply Qle_refl.
    + apply Qmult_le_compat_r; [| apply Qlt_le_weak, Qpow2_pos].
      rewrite <- Zle_Qle. lia.
    + rewrite Hround.
      assert (Hvalue : (inject_Z (Z.pos p) * 2 ^ ez ==
                        inject_Z (Z.pos mx) * 2 ^ ex + inject_Z (Z.pos my) * 2 ^ ey)%Q).
      { assert (Hpx : (2 ^ ex == inject_Z (2 ^ a) * 2 ^ ez)%Q).
        { rewrite <- Qpow2_Z, <- Qpow2_add by lia.
          now replace (a + ez) with ex by (unfold a; lia). }
        assert (Hpy : (2 ^ ey == inject_Z (2 ^ c) * 2 ^ ez)%Q).
        { rewrite <- Qpow2_Z, <- Qpow2_add by lia.
          now replace (c + ez) with ey by (unfold c; lia). }
        rewrite <- Ep, inject_Z_plus, !inject_Z_mult, Hpx, Hpy. ring. }
      rewrite Hvalue in Hlo, Hhi.
      change (1 # 2 ^ 52)%Q with (1 # 4503599627370496)%Q in Hlo, Hhi.
      split; [| split; assumption].
      right. exists m, e. split; [reflexivity |]. split; [exact Hm |].
      unfold ez, hi in *. lia.
Qed.

End Binary64.

(** *** The sum *)

Lemma bytesOf_nonneg (lang : string) (visits : list (string * Z)) :
  Forall (fun visit => (0 <= snd visit)%Z) visits ->
  (0 <= bytesOf lang visits)%Z.
Proof.
  induction 1 as [| [filePath size] rest Hsize _ IH]; cbn [bytesOf]; [lia |].
  cbn [snd] in Hsize.
  destruct (classify filePath) as [l |]; [destruct (String.eqb l lang) |]; lia.
Qed.

Lemma sumBytes_bound (lb : list (string * LanguageData)) :
  Forall (fun entry => (0 <= bytes (snd entry))%Z) lb ->
  (0 <= sumBytes lb)%Z /\
  Forall (fun entry => (bytes (snd entry) <= sumBytes lb)%Z) lb.
Proof.
  induction 1 as [| entry rest Hentry _ [IH0 IH]]; cbn [sumBytes fold_right].
  - split; [lia | constructor].
  - fold (sumBytes rest). split; [lia |]. constructor; [lia |].
    apply (Forall_impl _ _ _ IH). intros other Hother. cbn beta in Hother. lia.
Qed.

Lemma sumPercentages_breakdown (total : Z) (lb : list (string * LanguageData)) :
  (0 < total < 2 ^ 53)%Z ->
  Forall (fun entry => (0 <= bytes (snd entry) < 2 ^ 53)%Z) lb ->
  Forall (fun l => isFinite (percentage l) = true) (map (toBreakdown total) lb) /\
  ((1 - (1 # 2 ^ 50)) * (100 * (inject_Z (sumBytes lb) / inject_Z total))
     <= sumPercentages (map (toBreakdown total) lb))%Q /\
  (sumPercentages (map (toBreakdown total) lb)
     <= (1 + (1 # 2 ^ 50)) * (100 * (inject_Z (sumBytes lb) / inject_Z total)))%Q.
Proof.
  intros Htotal Hall.
  change (1 # 2 ^ 50)%Q with (1 # 1125899906842624)%Q.
  induction Hall as [| entry rest Hentry _ (IHfinite & IHlo & IHhi)];
    cbn [map sumPercentages sumBytes fold_right].
  - split; [constructor |].
    assert (H0 : (inject_Z 0 / inject_Z total == 0)%Q)
      by (unfold Qdiv; change (inject_Z 0) with 0%Q; ring).
    rewrite H0. split; lra.
  - fold (sumPercentages (map (toBreakdown total) rest)). fold (sumBytes rest).
    destruct (percentage_error (bytes (snd entry)) total Hentry Htotal)
      as (Hfinite & Hlo & Hhi).
    change (1 # 2 ^ 50)%Q with (1 # 1125899906842624)%Q in Hlo, Hhi.
    assert (Hp : percentage (toBreakdown total entry) =
                 (float_of_Z (bytes (snd entry)) / float_of_Z total * 100)%float).
    { unfold toBreakdown. cbn [percentage].
      destruct (Z.ltb_spec 0 total) as [_ | Hbad]; [reflexivity | lia]. }
    rewrite Hp.
    assert (Hsplit : (inject_Z (bytes (snd entry) + sumBytes rest) / inject_Z total ==
                      inject_Z (bytes (snd entry)) / inject_Z total +
                      inject_Z (sumBytes rest) / inject_Z total)%Q).
    { unfold Qdiv. rewrite inject_Z_plus. ring. }
    rewrite Hsplit.
    split; [constructor; [now rewrite Hp | exact IHfinite] |].
    split; lra.
Qed.

(** *** The sum as binary64 computes it *)

Lemma grow_bounds (n : nat) :
  (n <= 1000)%nat ->
  (1 <= grow n)%Q /\ (grow n <= 1 + inject_Z (Z.of_nat n) * (1 # 2 ^ 51))%Q.
Proof.
  change (1 # 2 ^ 51)%Q with (1 # 2251799813685248)%Q.
  induction n as [| n IH]; intros Hn.
  - cbn [grow]. change (inject_Z (Z.of_nat 0)) with 0%Q. split; lra.
  - destruct (IH ltac:(lia)) as [Hlo Hhi]. cbn [grow].
    change (1 # 2 ^ 52)%Q with (1 # 4503599627370496)%Q.
    rewrite Nat2Z.inj_succ. unfold Z.succ. rewrite inject_Z_plus.
    change (inject_Z 1) with 1%Q.
    assert (Hk : (0 <= inject_Z (Z.of_nat n) <= 1000)%Q).
    { split.
      - change 0%Q with (inject_Z 0). rewrite <- Zle_Qle. lia.
      - change 1000%Q with (inject_Z 1000). rewrite <- Zle_Qle. lia. }
    split; lra.
Qed.

Lemma shrink_bounds (n : nat) :
  (n <= 1000)%nat ->
  (1 - inject_Z (Z.of_nat n) * (1 # 2 ^ 52) <= shrink n)%Q /\
  (0 <= shrink n <= 1)%Q.
Proof.
  induction n as [| n IH]; intros Hn.
  - cbn [shrink]. change (inject_Z (Z.of_nat 0)) with 0%Q. repeat split; lra.
  - destruct (IH ltac:(lia)) as (Hlo & H0 & H1). cbn [shrink].
    change (1 # 2 ^ 52)%Q with (1 # 4503599627370496)%Q in *.
    rewrite Nat2Z.inj_succ. unfold Z.succ. rewrite inject_Z_plus.
    change (inject_Z 1) with 1%Q.
    assert (Hk : (0 <= inject_Z (Z.of_nat n) <= 1000)%Q).
    { split.
      - change 0%Q with (inject_Z 0). rewrite <- Zle_Qle. lia.
      - change 1000%Q with (inject_Z 1000). rewrite <- Zle_Qle. lia. }
    repeat split; lra.
Qed.

(** The running sum: after [n] additions it is within the factors
    [shrink n] and [grow n] of the exact sum. *)
Lemma fold_add_error (xs : list float) :
  forall (acc : float) (n : nat) (sum : Q),
    (n + List.length xs <= 400)%nat ->
    summand acc (10 + 2 * Z.of_nat n) ->
    Forall (fun x => summand x 10) xs ->
    (0 <= sum)%Q ->
    (shrink n * sum <= valueOf acc)%Q ->
    (valueOf acc <= grow n * sum)%Q ->
    let total := fold_left PrimFloat.add xs acc in
    let count := (n + List.length xs)%nat in
    isFinite total = true /\
    (shrink count * (sum + exactSum xs) <= valueOf total)%Q /\
    (valueOf total <= grow count * (sum + exactSum xs))%Q.
Proof.
  induction xs as [| x rest IH]; intros acc n sum Hcount Hacc Hall Hsum Hlo Hhi;
    cbv zeta.
  - cbn [fold_left exactSum fold_right List.length]. rewrite Nat.add_0_r.
    split; [exact (proj2 (summand_value _ _ Hacc)) |].
    rewrite Qplus_0_r. split; assumption.
  - cbn [fold_left exactSum fold_right List.length] in *.
    fold (exactSum rest).
    apply List.Forall_cons_iff in Hall as [Hx Hrest].
    pose proof (summand_value x 10 Hx) as [Hx0 _].
    destruct (add_error acc x (10 + 2 * Z.of_nat n)%Z ltac:(lia) Hacc
                (summand_weaken x 10 (10 + 2 * Z.of_nat n)%Z ltac:(lia) Hx))
      as (Hnext & Hnlo & Hnhi).
    destruct (grow_bounds n ltac:(lia)) as [Hg1 _].
    destruct (shrink_bounds n ltac:(lia)) as (_ & Hs0 & Hs1).
    assert (Hgx : (valueOf x <= grow n * valueOf x)%Q).
    { rewrite <- (Qmult_1_l (valueOf x)) at 1.
      now apply Qmult_le_compat_r. }
    assert (Hsx : (shrink n * valueOf x <= valueOf x)%Q).
    { rewrite <- (Qmult_1_l (valueOf x)) at 2.
      now apply Qmult_le_compat_r. }
    assert (Hgs : (0 <= grow n * sum)%Q) by (apply Qmult_le_0_compat; lra).
    replace (n + S (List.length rest))%nat with (S n + List.length rest)%nat by lia.
    assert (Heq : (sum + (valueOf x + exactSum rest) ==
                   (sum + valueOf x) + exactSum rest)%Q) by ring.
    rewrite Heq.
    apply (IH (acc + x)%float (S n) (sum + valueOf x)%Q).
    + lia.
    + replace (10 + 2 * Z.of_nat (S n))%Z with (10 + 2 * Z.of_nat n + 2)%Z by lia.
      exact Hnext.
    + exact Hrest.
    + lra.
    + cbn [shrink]. change (1 # 2 ^ 52)%Q with (1 # 4503599627370496)%Q in *.
      set (s := shrink n) in *. set (vx := valueOf x) in *.
      set (va := valueOf acc) in *. set (v := valueOf (acc + x)%float) in *.
      lra.
    + cbn [grow]. change (1 # 2 ^ 52)%Q with (1 # 4503599627370496)%Q in *.
      set (g := grow n) in *. set (vx := valueOf x) in *.
      set (va := valueOf acc) in *. set (v := valueOf (acc + x)%float) in *.
      lra.
Qed.

Lemma languageAt_table (table : list (string * string)) (key language : string) :
  languageAt table key = Some language ->
  In language (map snd table) \/ In language (map snd Object_prototype).
Proof.
  unfold languageAt, get.
  destruct (prop table key) as [own |] eqn:Eown.
  - intros [= <-]. left. now apply (prop_In table key).
  - destruct (prop Object_prototype key) as [text |] eqn:Etext; [| discriminate].
    intros [= <-]. right. now apply (prop_In Object_prototype key).
Qed.

Lemma classify_table (filePath language : string) :
  classify filePath = Some language -> In language tableLanguages.
Proof.
  unfold classify, tableLanguages. cbv zeta.
  destruct (has SKIP_EXTENSIONS _); [discriminate |].
  destruct (languageAt EXTENSION_TO_LANGUAGE _) as [l |] eqn:E.
  - intros [= <-]. apply languageAt_table in E as [H | H];
      rewrite !in_app_iff; tauto.
  - intros H. apply languageAt_table in H as [H | H];
      rewrite !in_app_iff; tauto.
Qed.

Lemma encounterOrder_table (visits : list (string * Z)) :
  forall seen language,
    In language (encounterOrder seen visits) -> In language tableLanguages.
Proof.
  induction visits as [| [filePath size] rest IH]; intros seen language;
    cbn [encounterOrder]; [intros [] |].
  destruct (classify filePath) as [l |] eqn:E; [| apply IH].
  destruct (includes seen l); [apply IH |].
  intros [<- | H]; [now apply (classify_table filePath) | now apply (IH _ _ H)].
Qed.

Lemma length_insertByBytes (x : LanguageBreakdown) (l : list LanguageBreakdown) :
  List.length (insertByBytes x l) = S (List.length l).
Proof.
  induction l as [| y rest IH]; cbn [insertByBytes]; [reflexivity |].
  destruct (lbBytes x <? lbBytes y)%Z; cbn [List.length]; [now rewrite IH | reflexivity].
Qed.

Lemma length_sortByBytes (l : list LanguageBreakdown) :
  List.length (sortByBytes l) = List.length l.
Proof.
  induction l as [| x rest IH]; [reflexivity |].
  cbn [sortByBytes fold_right]. fold (sortByBytes rest).
  now rewrite length_insertByBytes, IH.
Qed.

(** A breakdown has no more entries than there are languages. *)
Lemma breakdown_length (visits : list (string * Z)) (total : Z) :
  (List.length
     (sortByBytes
        (map (toBreakdown total)
           (List.filter notExcluded (languageBytes (scanVisits visits)))))
   <= 400)%nat.
Proof.
  rewrite length_sortByBytes, length_map.
  rewrite <- (length_map fst). fold (keys (List.filter notExcluded (languageBytes (scanVisits visits)))).
  rewrite keys_filter_notExcluded.
  apply Nat.le_trans with (List.length (keys (languageBytes (scanVisits visits)))).
  { apply List.filter_length_le. }
  apply Nat.le_trans with (List.length tableLanguages).
  - apply List.NoDup_incl_length; [apply NoDup_ListNoDup, scanVisits_NoDup |].
    intros language. rewrite scanVisits_keys. apply encounterOrder_table.
  - vm_compute. lia.
Qed.

Lemma sumPercentages_exactSum (l : list LanguageBreakdown) :
  sumPercentages l = exactSum (map percentage l).
Proof.
  induction l as [| x rest IH]; [reflexivity |].
  cbn [sumPercentages exactSum map fold_right].
  fold (sumPercentages rest). fold (exactSum (map percentage rest)).
  now rewrite IH.
Qed.

(** The binary64 sum of percentages whose exact sum is near 100. *)
Lemma floatSum_error (xs : list float) :
  (List.length xs <= 400)%nat ->
  Forall (fun x => summand x 10) xs ->
  ((1 - (1 # 2 ^ 50)) * 100 <= exactSum xs)%Q ->
  (exactSum xs <= (1 + (1 # 2 ^ 50)) * 100)%Q ->
  isFinite (floatSum xs) = true /\
  (Qabs (valueOf (floatSum xs) - 100) <= 1 # 10000000000)%Q.
Proof.
  intros Hlength Hall Hlo Hhi.
  change (1 # 2 ^ 50)%Q with (1 # 1125899906842624)%Q in Hlo, Hhi.
  assert (Hzero : summand 0%float (10 + 2 * Z.of_nat 0)) by now left.
  assert (Hvalue : valueOf 0%float = 0%Q) by reflexivity.
  destruct (fold_add_error xs 0%float 0 0%Q Hlength Hzero Hall (Qle_refl 0))
    as (Hfinite & Hslo & Hshi).
  { rewrite Hvalue. cbn [shrink]. lra. }
  { rewrite Hvalue. cbn [grow]. lra. }
  cbn [Nat.add] in Hslo, Hshi. fold (floatSum xs) in Hfinite, Hslo, Hshi.
  split; [exact Hfinite |].
  set (n := List.length xs) in *.
  destruct (grow_bounds n ltac:(lia)) as [_ Hg].
  destruct (shrink_bounds n ltac:(lia)) as (Hs & _ & _).
  change (1 # 2 ^ 51)%Q with (1 # 2251799813685248)%Q in Hg.
  change (1 # 2 ^ 52)%Q with (1 # 4503599627370496)%Q in Hs.
  assert (Hn : (0 <= inject_Z (Z.of_nat n) <= 400)%Q).
  { split.
    - change 0%Q with (inject_Z 0). rewrite <- Zle_Qle. lia.
    - change 400%Q with (inject_Z 400). rewrite <- Zle_Qle. lia. }
  set (sum := exactSum xs) in *.
  assert (Hsum : (0 <= sum)%Q) by lra.
  assert (Hup : (grow n * (0 + sum) <=
                 (1 + 400 * (1 # 2251799813685248)) * sum)%Q).
  { rewrite Qplus_0_l. apply Qmult_le_compat_r; [lra | exact Hsum]. }
  assert (Hdown : ((1 - 400 * (1 # 4503599627370496)) * sum <=
                   shrink n * (0 + sum))%Q).
  { rewrite Qplus_0_l. apply Qmult_le_compat_r; [lra | exact Hsum]. }
  apply Qabs_Qle_condition. split; lra.
Qed.

(** C6, as the code has it. File sizes are not negative, and byte counts
    below 2^53 are binary64 numbers.  When the files of non-excluded
    languages hold at least one byte, and fewer than 2^53, every percentage
    of the breakdown is a finite number, each being the quotient rounded
    and the product rounded again, as line 296 computes it.  The sum of the
    numbers they are is within 10^-13 of 100; their sum in binary64, added
    in the order of the list from 0, is a finite number within 10^-10 of
    100: both are within 0.01 of it.  When those files hold no byte, every
    percentage is 0; and when no file of a non-excluded language was
    visited the list is empty. *)
Theorem percentages_sum_to_100 (projectRoot : string)
    (listing : option (list Entry)) :
  let visits := walkDirectory projectRoot listing in
  let langs := languages (scanLanguages projectRoot listing) in
  let computed := floatSum (map percentage langs) in
  (Forall (fun visit => (0 <= snd visit)%Z) visits ->
   (0 < codeBytes visits < 2 ^ 53)%Z ->
     Forall (fun l => isFinite (percentage l) = true) langs /\
     (Qabs (sumPercentages langs - 100) <= 1 # 10000000000000)%Q /\
     isFinite computed = true /\
     (Qabs (valueOf computed - 100) <= 1 # 10000000000)%Q /\
     (Qabs (sumPercentages langs - 100) <= 1 # 100)%Q /\
     (Qabs (valueOf computed - 100) <= 1 # 100)%Q) /\
  ((codeBytes visits <= 0)%Z ->
     forall x, In x langs -> percentage x = 0%float) /\
  (codeLanguages visits = [] -> langs = []).
Proof.
  cbv zeta. unfold scanLanguages, codeLanguages.
  set (visits := walkDirectory projectRoot listing). clearbody visits.
  unfold summarize. cbn [languages].
  rewrite scanVisits_codeBytes.
  split; [| split].
  - intros Hsizes Htotal.
    pose proof (breakdown_length visits (codeBytes visits)) as Hlength.
    set (code := List.filter notExcluded (languageBytes (scanVisits visits))) in *.
    assert (Hsum : sumBytes code = codeBytes visits).
    { unfold code. now rewrite <- codeTotalBytes_sum, scanVisits_codeBytes. }
    assert (Hnonneg : Forall (fun entry => (0 <= bytes (snd entry))%Z) code).
    { apply List.Forall_forall. intros [lang data] Hin.
      apply List.filter_In in Hin as [Hin _]. cbn [snd].
      rewrite (scanVisits_bytes visits lang data Hin).
      now apply bytesOf_nonneg. }
    assert (Hbytes : Forall (fun entry => (0 <= bytes (snd entry) < 2 ^ 53)%Z) code).
    { destruct (sumBytes_bound code Hnonneg) as [_ Hle].
      rewrite List.Forall_forall in Hnonneg, Hle. apply List.Forall_forall.
      intros entry Hin. specialize (Hnonneg entry Hin).
      specialize (Hle entry Hin). cbn beta in Hle. lia. }
    destruct (sumPercentages_breakdown (codeBytes visits) code Htotal Hbytes)
      as (Hfinite & Hlo & Hhi).
    rewrite Hsum in Hlo, Hhi.
    assert (Hone : (inject_Z (codeBytes visits) / inject_Z (codeBytes visits) == 1)%Q).
    { field. change 0%Q with (inject_Z 0). rewrite inject_Z_injective. lia. }
    rewrite Hone in Hlo, Hhi.
    rewrite <- (sumPercentages_sort (map (toBreakdown (codeBytes visits)) code))
      in Hlo, Hhi.
    set (langs := sortByBytes (map (toBreakdown (codeBytes visits)) code)) in *.
    assert (Hterms : Forall (fun x => summand x 10) (map percentage langs)).
    { apply List.Forall_forall. intros x Hx.
      apply in_map_iff in Hx as (l & <- & Hl). apply In_sortByBytes in Hl.
      apply in_map_iff in Hl as (entry & <- & Hentry).
      rewrite List.Forall_forall in Hbytes. specialize (Hbytes entry Hentry).
      unfold toBreakdown. cbn [percentage].
      destruct (Z.ltb_spec 0 (codeBytes visits)) as [_ | Hbad]; [| lia].
      now apply percentage_summand. }
    destruct (floatSum_error (map percentage langs)) as [Hcfinite Hcomputed].
    { now rewrite length_map. }
    { exact Hterms. }
    { rewrite <- sumPercentages_exactSum, Qmult_1_r in *. lra. }
    { rewrite <- sumPercentages_exactSum, Qmult_1_r in *. lra. }
    change (1 # 2 ^ 50)%Q with (1 # 1125899906842624)%Q in Hlo, Hhi.
    assert (Hexact : (Qabs (sumPercentages langs - 100) <= 1 # 10000000000000)%Q).
    { apply Qabs_Qle_condition. split; lra. }
    split; [| split; [exact Hexact | split; [exact Hcfinite | split; [exact Hcomputed |]]]].
    + apply List.Forall_forall. intros l Hl. apply In_sortByBytes in Hl.
      rewrite List.Forall_forall in Hfinite. now apply Hfinite.
    + split.
      * apply Qle_trans with (1 := Hexact). vm_compute. discriminate.
      * apply Qle_trans with (1 := Hcomputed). vm_compute. discriminate.
  - intros Hzero x Hx. apply In_sortByBytes in Hx.
    apply in_map_iff in Hx as (e & <- & _).
    unfold toBreakdown. cbn [percentage].
    destruct (0 <? codeBytes visits)%Z eqn:E; [| reflexivity].
    apply Z.ltb_lt in E. lia.
  - intros Hnone. rewrite <- scanVisits_keys, <- keys_filter_notExcluded in Hnone.
    unfold keys in Hnone. apply map_eq_nil in Hnone. now rewrite Hnone.
Qed.

Lemma percentages_sum_to_100_witness :
  let langs := languages (scanLanguages "project" threeFiles) in
  let computed := floatSum (map percentage langs) in
  (sumPercentages langs == 100 - (1 # 2 ^ 46))%Q /\
  (valueOf computed == 100 - (1 # 2 ^ 46))%Q /\
  (Qabs (sumPercentages langs - 100) <= 1 # 100)%Q /\
  (Qabs (valueOf computed - 100) <= 1 # 100)%Q.
Proof.
  split; [vm_compute; reflexivity |].
  split; [vm_compute; reflexivity |].
  destruct (percentages_sum_to_100 "project" threeFiles) as [Hsum _].
  apply Hsum.
  - vm_compute. repeat constructor; discriminate.
  - vm_compute. split; reflexivity.
Defined.

(** C6, as stated, fails: a Python file is visited, and its percentage is
    the 0 of the guard, so the sum is 0, not 100. *)
Lemma empty_source_file_percentages_sum_to_0 :
  let visits := walkDirectory "project" emptyFileProject in
  let langs := languages (scanLanguages "project" emptyFileProject) in
  codeLanguages visits = ["Python"] /\
  map fileCount langs = [1%Z] /\
  map percentage langs = [0%float] /\
  (sumPercentages langs == 0)%Q /\
  floatSum (map percentage langs) = 0%float /\
  ~ (Qabs (sumPercentages langs - 100) <= 1 # 100)%Q.
Proof.
  vm_compute. repeat split; try reflexivity. intros H. now apply H.
Qed.

(** ** Sample inputs *)

(** C9. With a valid project root, a [package.json] that parses but whose
    name is a number, or that is the literal null, makes
    [generateFafFromProject] throw a [TypeError]: the manifest is read
    inside a try block, its fields are used outside of one.  The same
    project with an empty manifest object returns, and a missing root throws
    the error of the precondition.  With the empty manifest and a valid
    root, the generator throws as well when it is asked for a project type
    that names a property inherited from [Object.prototype], and returns
    for a type of the table. *)
Theorem malformed_manifest_throws :
  truthy (Some "project") = true /\
  generateFafFromProject
    (packageOnlyProject (Some "project") (JObject [("name", JNumber 123)])) =
    Throw TypeError /\
  generateFafFromProject (packageOnlyProject (Some "project") JNull) =
    Throw TypeError /\
  returns (generateFafFromProject
             (packageOnlyProject (Some "project") (JObject []))) = true /\
  generateFafFromProject (packageOnlyProject None (JObject [])) =
    Throw InvalidProjectRoot /\
  generateFafFromProject (packageProject (typedOptions "constructor") (JObject [])) =
    Throw TypeError /\
  returns (generateFafFromProject
             (packageProject (typedOptions "cli") (JObject []))) = true.
Proof. vm_compute. repeat split; reflexivity. Qed.

(** ** The AI enrichment reads README.md only *)




(** ** Slot filling: which slots keep their first value *)

Lemma preserves_id (slot : string) : preserves slot (fun slots => slots).
Proof. intros slots _. reflexivity. Qed.

Lemma preserves_assign (slot k v : string) :
  slot <> k -> preserves slot (assign k v).
Proof. intros Hne slots _. unfold assign. now apply lookup_insert_ne. Qed.

Lemma preserves_assignIf (slot k : string) (value : option string) :
  slot <> k -> preserves slot (assignIf value k).
Proof.
  intros Hne slots _. unfold assignIf.
  destruct value as [v |]; [| reflexivity].
  destruct (truthy (Some v)); [| reflexivity]. now apply lookup_insert_ne.
Qed.

Lemma preserves_fillIfEmpty (slot k : string) (value : option string) :
  preserves slot (fillIfEmpty value k).
Proof.
  intros slots Hfilled. unfold fillIfEmpty.
  destruct value as [v |]; [| reflexivity].
  destruct (truthy (Some v)); [| reflexivity]. cbn [andb].
  destruct (String.eqb_spec k slot) as [-> | Hne].
  - now rewrite Hfilled.
  - destruct (negb (filled slots k)); [| reflexivity]. now apply lookup_insert_ne.
Qed.

Lemma preserves_assignIfEmpty (slot k v : string) :
  preserves slot (assignIfEmpty k v).
Proof.
  intros slots Hfilled. unfold assignIfEmpty.
  destruct (String.eqb_spec k slot) as [-> | Hne].
  - now rewrite Hfilled.
  - destruct (filled slots k); [reflexivity |]. now apply lookup_insert_ne.
Qed.

Lemma preserves_when (slot : string) (c : bool)
    (op : gmap string string -> gmap string string) :
  preserves slot op -> preserves slot (when c op).
Proof. intros H slots Hf. unfold when. destruct c; [now apply H | reflexivity]. Qed.

Lemma applyAll_app (ops ops' : list (gmap string string -> gmap string string))
    (slots : gmap string string) :
  applyAll (ops ++ ops') slots = applyAll ops' (applyAll ops slots).
Proof. unfold applyAll. apply fold_left_app. Qed.

Lemma applyAll_preserves (slot : string)
    (ops : list (gmap string string -> gmap string string)) :
  Forall (preserves slot) ops ->
  forall slots, filled slots slot = true ->
    applyAll ops slots !! slot = slots !! slot.
Proof.
  induction 1 as [| op ops Hop _ IH]; intros slots Hf; [reflexivity |].
  cbn [applyAll fold_left]. fold (applyAll ops (op slots)).
  rewrite IH; [now apply Hop |].
  unfold filled in *. now rewrite (Hop slots Hf).
Qed.

(** Once a prefix of preserving writes has filled the slot, every longer
    prefix leaves it as it is. *)
Lemma prefix_preserves (slot : string)
    (ops : list (gmap string string -> gmap string string))
    (start : gmap string string) (i j : nat) :
  Forall (preserves slot) ops -> i <= j ->
  filled (applyAll (firstn i ops) start) slot = true ->
  applyAll (firstn j ops) start !! slot = applyAll (firstn i ops) start !! slot.
Proof.
  intros Hall. revert start i j.
  induction Hall as [| op ops Hop Hall IH]; intros start i j Hij Hf.
  - now rewrite !firstn_nil.
  - destruct i as [| i].
    + cbn [firstn applyAll fold_left] in *.
      apply (applyAll_preserves slot (firstn j (op :: ops))); [| exact Hf].
      apply Forall_take. now constructor.
    + destruct j as [| j]; [lia |].
      cbn [firstn applyAll fold_left] in *. apply IH; [lia | exact Hf].
Qed.

(** The same when the first writes, [head], run while the slot is still
    empty. *)
Lemma prefix_preserves_after (slot : string)
    (head tail : list (gmap string string -> gmap string string))
    (start : gmap string string) (i j : nat) :
  Forall (preserves slot) tail ->
  (forall n, n < List.length head ->
     filled (applyAll (firstn n head) start) slot = false) ->
  i <= j ->
  filled (applyAll (firstn i (head ++ tail)) start) slot = true ->
  applyAll (firstn j (head ++ tail)) start !! slot =
  applyAll (firstn i (head ++ tail)) start !! slot.
Proof.
  intros Htail Hhead Hij Hf. rewrite !firstn_app in *.
  destruct (Nat.lt_ge_cases i (List.length head)) as [Hlt | Hge].
  - replace (i - List.length head) with 0 in Hf by lia.
    cbn [firstn] in Hf. rewrite app_nil_r in Hf.
    rewrite (Hhead i Hlt) in Hf. discriminate Hf.
  - rewrite (firstn_all2 head) in Hf by lia.
    rewrite (firstn_all2 head (n := i)), (firstn_all2 head (n := j)) by lia.
    rewrite !applyAll_app in *.
    apply prefix_preserves; [exact Htail | lia | exact Hf].
Qed.

Ltac preserves_op :=
  repeat match goal with
  | |- preserves _ (if ?c then _ else _) => destruct c
  | |- preserves _ (match ?x with _ => _ end) => destruct x
  end;
  first
    [ apply preserves_fillIfEmpty
    | apply preserves_assignIfEmpty
    | apply preserves_id
    | apply preserves_when; preserves_op
    | apply preserves_assign; discriminate
    | apply preserves_assignIf; discriminate ].

Ltac preserves_stage :=
  repeat match goal with
  | |- Forall _ (if ?c then _ else _) => destruct c
  | |- Forall _ (match ?x with _ => _ end) => destruct x
  end;
  repeat (apply List.Forall_cons; [preserves_op |]);
  apply List.Forall_nil.

Lemma contributions_split (src : SlotSources) :
  contributions src =
  assignIf (opt_projectGoal (options src)) "project_goal"
    :: assignIf (opt_projectName (options src)) "project_name"
    :: laterContributions src.
Proof. reflexivity. Qed.

Lemma laterContributions_preserve (src : SlotSources) (slot : string) :
  In slot guardedSlots ->
  Forall (preserves slot) (laterContributions src).
Proof.
  intros Hin. unfold laterContributions.
  repeat (apply Forall_app; split).
  all: unfold scannedLanguage, detectedFramework, aiContext, readmeContext,
         detectedSignals, frameworkFallback, championshipContext,
         relentlessContext, rustCli, nodeCli, bunProject, manifests.
  all: cbv zeta.
  all: unfold guardedSlots in Hin; cbn [In] in Hin.
  all: repeat (destruct Hin as [<- | Hin]; [preserves_stage |]).
  all: contradiction.
Qed.

Lemma filled_empty (slot : string) : filled ∅ slot = false.
Proof. unfold filled. now rewrite lookup_empty. Qed.

Lemma filled_assignIf_other (slots : gmap string string) (slot k : string)
    (value : option string) :
  slot <> k -> filled (assignIf value k slots) slot = filled slots slot.
Proof.
  intros Hne. unfold filled, assignIf.
  destruct value as [v |]; [| reflexivity].
  destruct (truthy (Some v)); [| reflexivity]. now rewrite lookup_insert_ne.
Qed.

(** C4, as the code has it. For the project name, the project goal and the
    six human slots, slot filling is first-non-empty-wins: once a prefix of
    the writes has filled the slot, every longer prefix, the whole pipeline
    included, holds the same value. *)
Theorem guarded_slots_first_fill_wins (src : SlotSources) (slot : string)
    (i j : nat) :
  In slot guardedSlots ->
  i <= j ->
  let before := applyAll (firstn i (contributions src)) ∅ in
  let after := applyAll (firstn j (contributions src)) ∅ in
  filled before slot = true ->
  after !! slot = before !! slot.
Proof.
  intros Hin Hij. cbv zeta. rewrite contributions_split.
  pose proof (laterContributions_preserve src slot Hin) as Hlater.
  set (goal := assignIf (opt_projectGoal (options src)) "project_goal") in *.
  set (name := assignIf (opt_projectName (options src)) "project_name") in *.
  destruct (String.eqb_spec slot "project_goal") as [-> | Hgoal].
  - apply (prefix_preserves_after "project_goal" [goal] (name :: laterContributions src));
      [| | exact Hij].
    + constructor; [| exact Hlater]. apply preserves_assignIf. discriminate.
    + intros n Hn. cbn [List.length] in Hn.
      replace n with 0 by lia. apply filled_empty.
  - destruct (String.eqb_spec slot "project_name") as [-> | Hname].
    + apply (prefix_preserves_after "project_name" [goal; name] (laterContributions src));
        [exact Hlater | | exact Hij].
      intros n Hn. cbn [List.length] in Hn.
      destruct n as [| [| n]]; [apply filled_empty | | lia].
      cbn [firstn applyAll fold_left]. unfold goal.
      rewrite filled_assignIf_other by discriminate. apply filled_empty.
    + apply (prefix_preserves_after slot [] (goal :: name :: laterContributions src));
        [| | exact Hij].
      * constructor; [now apply preserves_assignIf |].
        constructor; [now apply preserves_assignIf | exact Hlater].
      * intros n Hn. cbn [List.length] in Hn. lia.
Qed.

(** C4, as stated, fails: the framework detector fills [package_manager]
    with its ecosystem, and the later Bun detection overwrites it. *)
Lemma bun_overwrites_package_manager :
  let ops := contributions bunSources in
  applyAll (firstn 9 ops) ∅ !! "package_manager" = Some "npm" /\
  filled (applyAll (firstn 9 ops) ∅) "package_manager" = true /\
  fillSlots bunSources !! "package_manager" = Some "Bun".
Proof. vm_compute. repeat split; reflexivity. Qed.

Lemma guarded_slots_first_fill_wins_witness :
  let ops := contributions audienceSources in
  applyAll (firstn 9 ops) ∅ !! "who" = Some "Developers" /\
  fillSlots audienceSources !! "who" = applyAll (firstn 9 ops) ∅ !! "who".
Proof.
  split; [vm_compute; reflexivity |].
  assert (Hall : fillSlots audienceSources =
                 applyAll (firstn 100 (contributions audienceSources)) ∅)
    by (vm_compute; reflexivity).
  rewrite Hall.
  apply (guarded_slots_first_fill_wins audienceSources "who" 9 100).
  - cbn. tauto.
  - lia.
  - vm_compute. reflexivity.
Defined.

(** ** The inferred project type *)

Lemma isTypeKey_own (key : string) (categories : list string) :
  prop TYPE_APPLICABLE_CATEGORIES key = Some categories -> isTypeKey key = true.
Proof. intros H. unfold isTypeKey, get. now rewrite H. Qed.

(** X1. Whatever the AI, the framework detector, the scan and the caller
    say, the inferred type is a key under which [TYPE_APPLICABLE_CATEGORIES]
    holds a truthy value: [getApplicableSlots] never falls back to its
    default list of all categories for it, and the categories it uses are
    the entry of the table. *)
Theorem inferProjectType_is_type_key (scanResult : LocalScanResult)
    (aiProjectType : option string) (frameworkResult : option DetectionResult)
    (originalType : option string) :
  let inferredType :=
    inferProjectType scanResult aiProjectType frameworkResult originalType in
  isTypeKey inferredType = true /\
  get TYPE_APPLICABLE_CATEGORIES inferredType <> Undefined /\
  forall categories,
    categoriesOf inferredType = Ok categories ->
    prop TYPE_APPLICABLE_CATEGORIES inferredType = Some categories.
Proof.
  cbv zeta.
  assert (Hkey : isTypeKey (inferProjectType scanResult aiProjectType
                              frameworkResult originalType) = true).
  { unfold inferProjectType.
    repeat match goal with
    | |- context [if ?c then _ else _] =>
        match c with
        | context [if _ then _ else _] => fail 1
        | context [match _ with _ => _ end] => fail 1
        | _ => destruct c eqn:?
        end
    | |- context [match ?x with _ => _ end] =>
        match x with
        | context [if _ then _ else _] => fail 1
        | context [match _ with _ => _ end] => fail 1
        | _ => destruct x eqn:?
        end
    end;
    repeat match goal with
    | H : (_ && _) = true |- _ => apply andb_prop in H as [? ?]
    end;
    try assumption; reflexivity. }
  split; [exact Hkey |].
  revert Hkey.
  generalize (inferProjectType scanResult aiProjectType frameworkResult
                originalType) as t.
  intros t Hkey. unfold isTypeKey, categoriesOf in *. unfold get in *.
  destruct (prop TYPE_APPLICABLE_CATEGORIES t) as [cats |].
  - split; [discriminate |]. now intros categories [= ->].
  - destruct (prop Object_prototype t); [| discriminate].
    split; discriminate.
Qed.

(** X2. An AI-suggested type that [AI_TYPE_TO_FAF_TYPE] maps is decisive:
    the mapped type is a key of [TYPE_APPLICABLE_CATEGORIES], and it is the
    inferred type whatever the framework detector, the scan and the caller's
    type say. *)
Theorem mapped_ai_type_wins (scanResult : LocalScanResult)
    (frameworkResult : option DetectionResult) (originalType : option string)
    (ai mapped : string) :
  prop AI_TYPE_TO_FAF_TYPE ai = Some mapped ->
  isTypeKey mapped = true /\
  inferProjectType scanResult (Some ai) frameworkResult originalType = mapped.
Proof.
  intros H.
  assert (Hin : In (ai, mapped) AI_TYPE_TO_FAF_TYPE).
  { revert H. generalize AI_TYPE_TO_FAF_TYPE as table.
    induction table as [| [k v] rest IH]; [discriminate |].
    cbn [prop]. destruct (String.eqb_spec k ai) as [-> | _].
    - intros [= ->]. now left.
    - intros Hrest. right. now apply IH. }
  unfold AI_TYPE_TO_FAF_TYPE in Hin. cbn [In] in Hin.
  repeat (destruct Hin as [[= <- <-] | Hin]; [split; reflexivity |]).
  contradiction.
Qed.

Lemma mapped_ai_type_wins_witness :
  prop AI_TYPE_TO_FAF_TYPE "web-app" = Some "frontend" /\
  forall scanResult frameworkResult originalType,
    inferProjectType scanResult (Some "web-app") frameworkResult originalType =
    "frontend".
Proof.
  split; [reflexivity |]. intros scanResult frameworkResult originalType.
  apply (mapped_ai_type_wins scanResult frameworkResult originalType
           "web-app" "frontend" eq_refl).
Defined.

(** X3. With no usable AI type and no framework that names a type, a
    primary language of C, C++, Rust, Go or Zig makes the project a
    [library], whatever type the caller passed (the misclassified
    [python-generic] included). *)
Theorem systems_language_is_library (scanResult : LocalScanResult)
    (aiProjectType : option string) (frameworkResult : option DetectionResult)
    (originalType : option string) :
  (forall ai, aiProjectType = Some ai ->
     isTypeKey ai = false /\ prop AI_TYPE_TO_FAF_TYPE ai = None) ->
  (forall r, frameworkResult = Some r ->
     isTypeKey (dashSpaces false (toLowerCase (fw_framework r))) = false) ->
  In (scan_primaryLanguage scanResult) systemsLanguages ->
  inferProjectType scanResult aiProjectType frameworkResult originalType =
  "library".
Proof.
  intros Hai Hfw Hlang. unfold inferProjectType.
  assert (Hinc : includes ["C"; "C++"; "Rust"; "Go"; "Zig"]
                   (scan_primaryLanguage scanResult) = true)
    by now apply includes_In.
  rewrite Hinc.
  assert (Hnone :
    match aiProjectType with
    | Some ai =>
        if truthy (Some ai) then
          match get AI_TYPE_TO_FAF_TYPE ai with
          | Own mapped | Inherited mapped =>
              if truthy (Some mapped) && isTypeKey mapped then Some mapped
              else if isTypeKey ai then Some ai else None
          | Undefined => if isTypeKey ai then Some ai else None
          end
        else None
    | None => None
    end = None).
  { destruct aiProjectType as [ai |]; [| reflexivity].
    destruct (Hai ai eq_refl) as [Hkey Hmap].
    rewrite Hkey. unfold get. rewrite Hmap.
    unfold isTypeKey, get in Hkey.
    destruct (prop TYPE_APPLICABLE_CATEGORIES ai); [discriminate |].
    destruct (prop Object_prototype ai); [discriminate |].
    now destruct (truthy (Some ai)). }
  rewrite Hnone.
  destruct frameworkResult as [r |]; [| reflexivity].
  rewrite (Hfw r eq_refl). now destruct (truthy (Some (fw_framework r))).
Qed.

Lemma systems_language_is_library_witness :
  inferProjectType cppScan (Some "game-engine") (Some qtDetection)
    (Some "python-generic") = "library".
Proof.
  apply (systems_language_is_library cppScan (Some "game-engine")
           (Some qtDetection) (Some "python-generic")).
  - intros ai [= <-]. split; reflexivity.
  - intros r [= <-]. reflexivity.
  - cbn. tauto.
Defined.

(** ** The applicable slots and the score they give *)

Lemma NoDup_allSlots : List.NoDup allSlots.
Proof.
  unfold allSlots. cbn [SLOT_CATEGORY_MAP map fst].
  repeat (constructor; [cbn [In]; intuition discriminate |]).
  constructor.
Qed.

(** X4. For every type [getApplicableSlots] returns for, the applicable
    slots are slots of [SLOT_CATEGORY_MAP] without repetition, they include
    the three project slots and the six human slots, and there are between
    9 and 20 of them. *)
Theorem applicable_slots_bounds (projectType : string)
    (applicableSlots : list string) :
  getApplicableSlots projectType = Ok applicableSlots ->
  incl nineSlots applicableSlots /\
  incl applicableSlots allSlots /\
  List.NoDup applicableSlots /\
  9 <= List.length applicableSlots <= 20.
Proof.
  unfold getApplicableSlots.
  destruct (categoriesOf projectType) as [cats | error] eqn:E;
    cbn [bind]; [| discriminate].
  intros H. apply Ok_inj in H. subst applicableSlots.
  fold allSlots.
  split; [| split; [apply incl_filter | split;
    [apply List.NoDup_filter, NoDup_allSlots |]]].
  - apply categoriesOf_cases in E.
    unfold categoryLists in E. cbn [In] in E.
    intros s Hs. apply includes_In. revert s Hs.
    apply forallb_forall.
    repeat (destruct E as [<- | E]; [vm_compute; reflexivity |]).
    contradiction.
  - apply categoriesOf_cases in E.
    unfold categoryLists in E. cbn [In] in E.
    repeat (destruct E as [<- | E]; [vm_compute; lia |]).
    contradiction.
Qed.

Lemma applicable_slots_bounds_witness :
  getApplicableSlots "cli" =
    Ok [ "project_name"; "project_goal"; "main_language"; "hosting"; "cicd";
         "build_tool"; "package_manager"; "test_framework"; "linter";
         "who"; "what"; "why"; "where"; "when"; "how" ] /\
  9 <= 15 <= 20.
Proof.
  split; [reflexivity |].
  apply (applicable_slots_bounds "cli" _ eq_refl).
Defined.

Lemma scoreApplicable_ext (applicableSlots : list string)
    (slots slots' : gmap string string) (q : QualityMetrics)
    (ts : option TypeScriptContext) :
  (forall slot, In slot applicableSlots ->
     filled slots slot = filled slots' slot) ->
  scoreApplicable applicableSlots slots q ts =
  scoreApplicable applicableSlots slots' q ts.
Proof.
  intros H.
  assert (Hext : forall points scale names acc,
    scoreFilled applicableSlots slots points scale names acc =
    scoreFilled applicableSlots slots' points scale names acc).
  { intros points scale names acc. apply scoreFilled_ext. intros slot _.
    destruct (includes applicableSlots slot) eqn:E; [| reflexivity].
    cbn [andb]. apply H. now apply includes_In. }
  unfold scoreApplicable. cbv zeta.
  generalize (countApplicable applicableSlots technicalSlots) as a.
  generalize (countApplicable applicableSlots humanSlots) as h.
  intros h a.
  rewrite (Hext 4%float _ technicalSlots).
  generalize (scoreFilled applicableSlots slots' 4
    (if (0 <? a * 4 + h * 5)%Z
     then (86 / float_of_Z (a * 4 + h * 5))%float else 1%float)
    technicalSlots (0%Z, 0%float)) as pass.
  intros pass. rewrite (Hext 5%float _ humanSlots). reflexivity.
Qed.

(** X5. The scorer reads the slot map only through the truthiness of the
    applicable slots: two slot maps that agree there get the same scoring
    result, so neither the values nor any N/A slot that is filled changes
    the score. *)
Theorem score_reads_applicable_slots_only (projectType : string)
    (slots slots' : gmap string string) (q : QualityMetrics)
    (ts : option TypeScriptContext) :
  (forall applicableSlots slot,
     getApplicableSlots projectType = Ok applicableSlots ->
     In slot applicableSlots -> filled slots slot = filled slots' slot) ->
  scoreSlots projectType slots q ts = scoreSlots projectType slots' q ts.
Proof.
  intros H. unfold scoreSlots.
  destruct (getApplicableSlots projectType) as [app | error];
    cbn [bind]; [| reflexivity].
  rewrite (scoreApplicable_ext app slots slots' q ts
             (fun slot => H app slot eq_refl)).
  reflexivity.
Qed.

Lemma score_reads_applicable_slots_only_witness :
  filled databaseOnly "database" = true /\
  scoreSlots "cli" databaseOnly minimalMetrics None =
  scoreSlots "cli" ∅ minimalMetrics None.
Proof.
  split; [reflexivity |].
  apply (score_reads_applicable_slots_only "cli" databaseOnly ∅
           minimalMetrics None).
  intros applicableSlots slot Happ Hin. apply Ok_inj in Happ.
  subst applicableSlots. cbn in Hin.
  repeat (destruct Hin as [<- | Hin]; [reflexivity |]).
  contradiction.
Defined.

Lemma filled_everySlotFilled (slot : string) :
  In slot allSlots -> filled everySlotFilled slot = true.
Proof.
  unfold allSlots. cbn [SLOT_CATEGORY_MAP map fst In].
  intros H.
  repeat (destruct H as [<- | H]; [vm_compute; reflexivity |]).
  contradiction.
Qed.

Lemma filled_empty_map (slot : string) : filled ∅ slot = false.
Proof. unfold filled. now rewrite lookup_empty. Qed.

Lemma scoreSlots_categories (projectType : string)
    (applicableSlots : list string) :
  getApplicableSlots projectType = Ok applicableSlots ->
  exists categories,
    In categories categoryLists /\
    applicableSlots = List.filter (slotApplies categories) allSlots.
Proof.
  unfold getApplicableSlots.
  destruct (categoriesOf projectType) as [cats | error] eqn:E;
    cbn [bind]; [| discriminate].
  intros H. apply Ok_inj in H. exists cats.
  split; [now apply categoriesOf_cases in E | now symmetry].
Qed.

(** X6. With no applicable slot filled and no bonus, the score is 0, for
    every type: no points are given for merely existing. *)
Theorem nothing_filled_scores_zero (projectType : string)
    (applicableSlots : list string)
    (slots : gmap string string) (q : QualityMetrics)
    (ts : option TypeScriptContext) :
  getApplicableSlots projectType = Ok applicableSlots ->
  (forall slot, In slot applicableSlots -> filled slots slot = false) ->
  noBonus q ts ->
  exists r,
    scoreSlots projectType slots q ts = Ok r /\
    technicalFilled r = 0%Z /\ humanFilled r = 0%Z /\
    enhancedScore r = 0%float /\ fafScore r = 0%float /\
    slotBasedPercentage r = 0%float.
Proof.
  intros Happ Hnone (Hgrade & (H80 & H60 & H40) & ->).
  rewrite (score_reads_applicable_slots_only projectType slots ∅ q None).
  2:{ intros app slot Happ' Hin. rewrite Happ in Happ'.
      apply Ok_inj in Happ'. subst app.
      now rewrite (Hnone slot Hin), filled_empty_map. }
  unfold scoreSlots. rewrite Happ. cbn [bind].
  eexists. split; [reflexivity |].
  destruct (scoreSlots_categories _ _ Happ) as [cats [Hcats ->]].
  unfold scoreApplicable. cbv zeta.
  rewrite (gradeBonus_none _ _ Hgrade).
  rewrite (depthBonus_none _ _ H40 H60 H80).
  unfold categoryLists in Hcats. cbn [In] in Hcats.
  repeat (destruct Hcats as [<- | Hcats];
    [vm_compute; repeat split; reflexivity |]).
  contradiction.
Qed.

Lemma nothing_filled_scores_zero_witness :
  exists r,
    scoreSlots "react" ∅ minimalMetrics None = Ok r /\
    fafScore r = 0%float.
Proof.
  destruct (nothing_filled_scores_zero "react" _ ∅ minimalMetrics None eq_refl)
    as [r [Hr (_ & _ & _ & Hscore & _)]].
  - intros slot _. apply filled_empty_map.
  - repeat split; try reflexivity. cbn. intuition discriminate.
  - exists r. split; [exact Hr | exact Hscore].
Defined.

(** X7. With every applicable slot filled and no bonus, the final score is
    exactly 86 and the slot percentage 100 for every type the scorer returns
    for, whatever the number of applicable slots. *)
Theorem all_applicable_filled_scores_86 (projectType : string)
    (applicableSlots : list string)
    (slots : gmap string string) (q : QualityMetrics)
    (ts : option TypeScriptContext) :
  getApplicableSlots projectType = Ok applicableSlots ->
  (forall slot, In slot applicableSlots -> filled slots slot = true) ->
  noBonus q ts ->
  exists r,
    scoreSlots projectType slots q ts = Ok r /\
    (technicalFilled r + humanFilled r = totalSlots r)%Z /\
    totalSlots r = Z.of_nat (List.length applicableSlots) /\
    (naSlots r = 20 - totalSlots r)%Z /\
    PrimFloat.ltb (PrimFloat.abs (enhancedScore r - 86)) 0x1p-40 = true /\
    fafScore r = 86%float /\
    slotBasedPercentage r = 100%float.
Proof.
  intros Happ Hall (Hgrade & (H80 & H60 & H40) & ->).
  rewrite (score_reads_applicable_slots_only projectType slots
             everySlotFilled q None).
  2:{ intros app slot Happ' Hin. rewrite Happ in Happ'.
      apply Ok_inj in Happ'. subst app.
      rewrite (Hall slot Hin). symmetry. apply filled_everySlotFilled.
      now apply (applicable_slots_bounds _ _ Happ). }
  unfold scoreSlots. rewrite Happ. cbn [bind].
  eexists. split; [reflexivity |].
  destruct (scoreSlots_categories _ _ Happ) as [cats [Hcats ->]].
  unfold scoreApplicable. cbv zeta.
  rewrite (gradeBonus_none _ _ Hgrade).
  rewrite (depthBonus_none _ _ H40 H60 H80).
  unfold categoryLists in Hcats. cbn [In] in Hcats.
  repeat (destruct Hcats as [<- | Hcats];
    [vm_compute; repeat split; reflexivity |]).
  contradiction.
Qed.

Lemma all_applicable_filled_scores_86_witness :
  exists r,
    scoreSlots "fullstack" everySlotFilled minimalMetrics None = Ok r /\
    fafScore r = 86%float /\ slotBasedPercentage r = 100%float.
Proof.
  destruct (all_applicable_filled_scores_86 "fullstack" allSlots
              everySlotFilled minimalMetrics None eq_refl)
    as [r [Hr (_ & _ & _ & _ & Hscore & Hpercentage)]].
  - exact filled_everySlotFilled.
  - repeat split; try reflexivity. cbn. intuition discriminate.
  - exists r. split; [exact Hr |]. split; [exact Hscore | exact Hpercentage].
Defined.

(** ** The quality score of the scan *)

Lemma if_add (b : bool) (s c : Z) :
  (if b then s + c else s)%Z = (s + c * Z.b2z b)%Z.
Proof. destruct b; cbn [Z.b2z]; lia. Qed.

Lemma if_add2 (b1 b2 : bool) (s c1 c2 : Z) :
  (if b1 then s + c1 else if b2 then s + c2 else s)%Z =
  (s + (if b1 then c1 else if b2 then c2 else 0))%Z.
Proof. destruct b1, b2; lia. Qed.

Lemma if_add3 (b1 b2 b3 : bool) (s c1 c2 c3 : Z) :
  (if b1 then s + c1 else if b2 then s + c2 else if b3 then s + c3 else s)%Z =
  (s + (if b1 then c1 else if b2 then c2 else if b3 then c3 else 0))%Z.
Proof. destruct b1, b2, b3; lia. Qed.

Lemma b2z_range (b : bool) : (0 <= Z.b2z b <= 1)%Z.
Proof. destruct b; cbn; lia. Qed.

Lemma b2z_one (b : bool) : Z.b2z b = 1%Z <-> b = true.
Proof. destruct b; cbn; intuition (discriminate || lia). Qed.

Lemma languagePoints_range (n : nat) :
  (0 <= languagePoints n <= 2)%Z /\ (languagePoints n = 2%Z <-> 3 <= n).
Proof.
  unfold languagePoints.
  destruct (Nat.leb_spec 3 n), (Nat.leb_spec 2 n); lia.
Qed.

Lemma filePoints_cases (f : Z) :
  (filePoints f = 0 \/ filePoints f = 3 \/ filePoints f = 7 \/
   filePoints f = 10)%Z /\
  (filePoints f = 10%Z <-> (50 <= f)%Z).
Proof.
  unfold filePoints.
  destruct (Z.leb_spec 50 f), (Z.leb_spec 20 f), (Z.leb_spec 5 f); lia.
Qed.

Lemma corePoints_range (factors : QualityFactors) (langResult : LanguageResult)
    (readmeResult : ReadmeContext) :
  (0 <= corePoints factors langResult readmeResult <= 18)%Z.
Proof.
  unfold corePoints.
  pose proof (b2z_range (has_readme factors)).
  pose proof (b2z_range (has_description factors)).
  pose proof (b2z_range (has_structured_readme factors)).
  pose proof (b2z_range (has_license factors)).
  pose proof (b2z_range (has_tests factors)).
  pose proof (b2z_range (has_cicd factors)).
  pose proof (b2z_range (has_docker factors)).
  pose proof (b2z_range (3 <=? wCount readmeResult)%nat).
  pose proof (proj1 (languagePoints_range (List.length (languages langResult)))).
  lia.
Qed.

(** The score is five times the core points plus the points for the number
    of files: the cap at 100 never cuts anything off. *)
Lemma calculateQualityScore_sum (factors : QualityFactors)
    (langResult : LanguageResult) (readmeResult : ReadmeContext) :
  calculateQualityScore factors langResult readmeResult =
  (5 * corePoints factors langResult readmeResult
   + filePoints (resultFiles langResult))%Z.
Proof.
  pose proof (corePoints_range factors langResult readmeResult) as Hcore.
  pose proof (proj1 (filePoints_cases (resultFiles langResult))) as Hfiles.
  unfold calculateQualityScore. fold (wCount readmeResult). cbv zeta.
  rewrite (if_add (3 <=? wCount readmeResult)%nat).
  rewrite (if_add3 (50 <=? resultFiles langResult)%Z).
  rewrite (if_add2 (3 <=? List.length (languages langResult))%nat).
  rewrite !if_add.
  fold (filePoints (resultFiles langResult)).
  replace (if (3 <=? List.length (languages langResult))%nat then 10%Z
           else if (2 <=? List.length (languages langResult))%nat then 5%Z
           else 0%Z)
    with (5 * languagePoints (List.length (languages langResult)))%Z
    by (unfold languagePoints;
        now destruct (3 <=? List.length (languages langResult))%nat,
          (2 <=? List.length (languages langResult))%nat).
  unfold corePoints in *. lia.
Qed.

Lemma getScoreTier_trophy (score : Z) :
  getScoreTier score = "🏆 Trophy" <-> (100 <= score)%Z.
Proof.
  unfold getScoreTier.
  destruct (Z.leb_spec 100 score); [intuition |].
  split; [| lia].
  destruct (99 <=? score)%Z; [discriminate |].
  destruct (95 <=? score)%Z; [discriminate |].
  destruct (85 <=? score)%Z; [discriminate |].
  destruct (70 <=? score)%Z; [discriminate |].
  destruct (55 <=? score)%Z; [discriminate |].
  destruct (0 <? score)%Z; discriminate.
Qed.

Lemma getScoreTier_gold (score : Z) :
  getScoreTier score = "🥇 Gold" -> score = 99%Z.
Proof.
  unfold getScoreTier.
  destruct (Z.leb_spec 100 score); [discriminate |].
  destruct (Z.leb_spec 99 score); [lia |].
  destruct (95 <=? score)%Z; [discriminate |].
  destruct (85 <=? score)%Z; [discriminate |].
  destruct (70 <=? score)%Z; [discriminate |].
  destruct (55 <=? score)%Z; [discriminate |].
  destruct (0 <? score)%Z; discriminate.
Qed.

Lemma corePoints_flawless (factors : QualityFactors)
    (langResult : LanguageResult) (readmeResult : ReadmeContext) :
  corePoints factors langResult readmeResult = 18%Z /\
  filePoints (resultFiles langResult) = 10%Z <->
  flawless factors langResult readmeResult.
Proof.
  unfold corePoints, flawless.
  pose proof (b2z_range (has_readme factors)).
  pose proof (b2z_range (has_description factors)).
  pose proof (b2z_range (has_structured_readme factors)).
  pose proof (b2z_range (has_license factors)).
  pose proof (b2z_range (has_tests factors)).
  pose proof (b2z_range (has_cicd factors)).
  pose proof (b2z_range (has_docker factors)).
  pose proof (b2z_range (3 <=? wCount readmeResult)%nat).
  pose proof (languagePoints_range (List.length (languages langResult)))
    as [? Hlang].
  pose proof (proj2 (filePoints_cases (resultFiles langResult))) as Hfiles.
  rewrite <- !b2z_one, <- Hlang, <- Hfiles.
  rewrite <- (Nat.leb_le 3 (wCount readmeResult)), <- b2z_one.
  lia.
Qed.

(** X10. The quality score lies between 0 and 100; it is 100, and the tier
    the trophy, exactly when every rewarded factor holds, with at least
    three languages, fifty files and three W's; and no project is ever in
    the gold tier, which would take a score of 99. *)
Theorem quality_score_tiers (factors : QualityFactors)
    (langResult : LanguageResult) (readmeResult : ReadmeContext) :
  let score := calculateQualityScore factors langResult readmeResult in
  (0 <= score <= 100)%Z /\
  (score = 100%Z <-> flawless factors langResult readmeResult) /\
  (getScoreTier score = "🏆 Trophy" <->
   flawless factors langResult readmeResult) /\
  getScoreTier score <> "🥇 Gold".
Proof.
  cbv zeta. rewrite calculateQualityScore_sum.
  pose proof (corePoints_range factors langResult readmeResult) as Hcore.
  pose proof (proj1 (filePoints_cases (resultFiles langResult))) as Hfiles.
  pose proof (corePoints_flawless factors langResult readmeResult) as Hall.
  split; [lia |]. split; [rewrite <- Hall; lia |].
  split.
  - rewrite getScoreTier_trophy, <- Hall. lia.
  - intros Hgold. apply getScoreTier_gold in Hgold. lia.
Qed.

(** X11. A project without a README (the result [parseReadme] gives when
    none is found or read, with no sections) scores at most 55, so its tier
    is yellow, red or white, whatever else the scan finds. *)
Theorem quality_without_readme (languageResult : LanguageResult)
    (licenseResult : LicenseResult) (hasTests : bool)
    (cicdResult : CiCdResult) (hasDocker : bool) :
  let quality :=
    scanQuality languageResult absentReadme 0 licenseResult hasTests
      cicdResult hasDocker in
  (fst quality <= 55)%Z /\
  In (snd quality) ["🟡 Yellow"; "🔴 Red"; "🤍 White"].
Proof.
  cbv zeta. unfold scanQuality. cbv zeta. cbn [fst snd].
  rewrite calculateQualityScore_sum.
  pose proof (proj1 (filePoints_cases (resultFiles languageResult))) as Hfiles.
  assert (Hcore :
    (0 <= corePoints
       (qualityFactors languageResult absentReadme 0 licenseResult hasTests
          cicdResult hasDocker) languageResult absentReadme <= 9)%Z).
  { unfold corePoints, qualityFactors.
    cbn [has_readme has_description has_structured_readme has_license
         has_tests has_cicd has_docker].
    pose proof (b2z_range (hasLicense licenseResult)).
    pose proof (b2z_range hasTests).
    pose proof (b2z_range (hasCiCd cicdResult)).
    pose proof (b2z_range hasDocker).
    pose proof (proj1 (languagePoints_range
                         (List.length (languages languageResult)))).
    change (wCount absentReadme) with 0.
    change (Z.b2z (readme_exists absentReadme)) with 0%Z.
    change (Z.b2z (truthy (readme_description absentReadme))) with 0%Z.
    change (Z.b2z (3 <=? 0)%nat) with 0%Z.
    lia. }
  revert Hcore Hfiles.
  generalize (corePoints
    (qualityFactors languageResult absentReadme 0 licenseResult hasTests
       cicdResult hasDocker) languageResult absentReadme) as core.
  generalize (filePoints (resultFiles languageResult)) as files.
  intros files core Hcore Hfiles.
  split; [lia |].
  unfold getScoreTier.
  destruct (Z.leb_spec 100 (5 * core + files)); [lia |].
  destruct (Z.leb_spec 99 (5 * core + files)); [lia |].
  destruct (Z.leb_spec 95 (5 * core + files)); [lia |].
  destruct (Z.leb_spec 85 (5 * core + files)); [lia |].
  destruct (Z.leb_spec 70 (5 * core + files)); [lia |].
  destruct (55 <=? 5 * core + files)%Z; [cbn; tauto |].
  destruct (0 <? 5 * core + files)%Z; cbn; tauto.
Qed.

(** ** The detectors of the scan *)

(** [firstOf] gives what the first element gives for which [f] gives
    something. *)
Lemma firstOf_first {A B : Type} (f : A -> option B) (before after : list A)
    (x : A) (y : B) :
  (forall z, In z before -> f z = None) -> f x = Some y ->
  firstOf f (before ++ x :: after) = Some y.
Proof.
  intros Hbefore Hx. induction before as [| z rest IH]; cbn [app firstOf].
  - now rewrite Hx.
  - rewrite (Hbefore z (or_introl eq_refl)). apply IH.
    intros z' Hz'. apply Hbefore. now right.
Qed.

Lemma firstOf_none {A B : Type} (f : A -> option B) (xs : list A) :
  firstOf f xs = None <-> forall x, In x xs -> f x = None.
Proof.
  induction xs as [| x rest IH]; cbn [firstOf].
  - split; [intros _ x [] | reflexivity].
  - destruct (f x) as [y |] eqn:E.
    + split; [discriminate |]. intros H.
      specialize (H x (or_introl eq_refl)). congruence.
    + rewrite IH. split.
      * intros H z [<- | Hz]; [exact E | now apply H].
      * intros H z Hz. apply H. now right.
Qed.

Lemma firstOf_some {A B : Type} (f : A -> option B) (xs : list A) (y : B) :
  firstOf f xs = Some y ->
  exists before x after,
    xs = (before ++ x :: after)%list /\
    (forall z, In z before -> f z = None) /\ f x = Some y.
Proof.
  induction xs as [| x rest IH]; cbn [firstOf]; [discriminate |].
  destruct (f x) as [y' |] eqn:E.
  - intros [= ->]. exists [], x, rest. repeat split; [intros z [] | exact E].
  - intros H. destruct (IH H) as (before & x' & after & -> & Hbefore & Hx').
    exists (x :: before), x', after. repeat split; [| exact Hx'].
    intros z [<- | Hz]; [exact E | now apply Hbefore].
Qed.

Lemma identifyLicense_truthy (content : string) :
  truthy (Some (identifyLicense content)) = true.
Proof.
  unfold identifyLicense. cbv zeta.
  repeat match goal with
  | |- context [if ?c then _ else _] => destruct c; [reflexivity |]
  end.
  reflexivity.
Qed.

(** X12. A license is reported exactly when one of the six license files
    can be read; the name then comes from the first readable one in the
    order of the list, and it is never empty: unrecognised content, the
    empty file included, is [Custom]. *)
Theorem detectLicense_first_readable (fs : FileSystem) (projectRoot : string) :
  let r := detectLicense fs projectRoot in
  (hasLicense r = true <->
   exists name,
     In name licenseFiles /\
     readFile fs (Path.join projectRoot name) <> None) /\
  truthy (licenseName r) = hasLicense r /\
  (forall before name after content,
     licenseFiles = (before ++ name :: after)%list ->
     (forall other, In other before ->
        readFile fs (Path.join projectRoot other) = None) ->
     readFile fs (Path.join projectRoot name) = Some content ->
     licenseName r = Some (identifyLicense content)) /\
  identifyLicense EmptyString = "Custom".
Proof.
  cbv zeta. unfold detectLicense.
  split; [| split; [| split; [| reflexivity]]].
  - destruct (firstOf _ licenseFiles) as [content |] eqn:E; cbn [hasLicense].
    + split; [intros _ | reflexivity].
      apply firstOf_some in E as (before & name & after & Hsplit & _ & Hname).
      exists name. split; [| congruence].
      rewrite Hsplit. apply in_or_app. right. now left.
    + split; [discriminate |]. intros (name & Hin & Hread).
      rewrite firstOf_none in E. now specialize (E name Hin).
  - destruct (firstOf _ licenseFiles) as [content |];
      cbn [hasLicense licenseName]; [apply identifyLicense_truthy | reflexivity].
  - intros before name after content Hsplit Hbefore Hname.
    rewrite Hsplit.
    now rewrite (firstOf_first _ before after name content Hbefore Hname).
Qed.

(** X13. CI/CD is reported exactly when one of the eight paths is
    accessible, and exactly then a platform is named: that of the first
    accessible path in the order of the list, so [.github/workflows] makes
    it GitHub Actions whatever else is there. *)
Theorem detectCiCd_first_accessible (fs : FileSystem) (projectRoot : string) :
  let r := detectCiCd fs projectRoot in
  (hasCiCd r = true <->
   exists check,
     In check ciChecks /\
     access fs (Path.join projectRoot (fst check)) = true) /\
  (hasCiCd r = true <-> platform r <> None) /\
  (forall before check after,
     ciChecks = (before ++ check :: after)%list ->
     (forall other, In other before ->
        access fs (Path.join projectRoot (fst other)) = false) ->
     access fs (Path.join projectRoot (fst check)) = true ->
     platform r = Some (snd check)) /\
  (access fs (Path.join projectRoot ".github/workflows") = true ->
   platform r = Some "GitHub Actions").
Proof.
  cbv zeta. unfold detectCiCd.
  set (f := fun check : string * string =>
              if access fs (Path.join projectRoot (fst check))
              then Some (snd check) else None).
  assert (Hfirst : forall before check after,
     ciChecks = (before ++ check :: after)%list ->
     (forall other, In other before ->
        access fs (Path.join projectRoot (fst other)) = false) ->
     access fs (Path.join projectRoot (fst check)) = true ->
     firstOf f ciChecks = Some (snd check)).
  { intros before check after Hsplit Hbefore Hcheck. rewrite Hsplit.
    apply firstOf_first.
    - intros other Hother. unfold f. now rewrite (Hbefore other Hother).
    - unfold f. now rewrite Hcheck. }
  split; [| split; [| split]].
  - destruct (firstOf f ciChecks) as [p |] eqn:E; cbn [hasCiCd].
    + split; [intros _ | reflexivity].
      apply firstOf_some in E as (before & check & after & Hsplit & _ & Hcheck).
      exists check. split.
      * rewrite Hsplit. apply in_or_app. right. now left.
      * unfold f in Hcheck.
        now destruct (access fs (Path.join projectRoot (fst check))).
    + split; [discriminate |]. intros (check & Hin & Hcheck).
      rewrite firstOf_none in E. specialize (E check Hin).
      unfold f in E. now rewrite Hcheck in E.
  - destruct (firstOf f ciChecks) as [p |]; cbn [hasCiCd platform];
      intuition congruence.
  - intros before check after Hsplit Hbefore Hcheck.
    now rewrite (Hfirst before check after Hsplit Hbefore Hcheck).
  - intros Hgithub.
    rewrite (Hfirst [] (".github/workflows", "GitHub Actions") (tl ciChecks)
               eq_refl); [reflexivity | intros other [] | exact Hgithub].
Qed.

(** ** The top-level structure *)

Lemma insertByPath_perm (localeCompare : string -> string -> bool)
    (x : StructureEntry) (l : list StructureEntry) :
  Permutation (insertByPath localeCompare x l) (x :: l).
Proof.
  induction l as [| y rest IH]; cbn [insertByPath]; [reflexivity |].
  destruct (localeCompare (entry_path x) (entry_path y)); [| reflexivity].
  rewrite IH. apply perm_swap.
Qed.

Lemma sortByPath_perm (localeCompare : string -> string -> bool)
    (l : list StructureEntry) :
  Permutation (fold_right (insertByPath localeCompare) [] l) l.
Proof.
  induction l as [| x rest IH]; cbn [fold_right]; [reflexivity |].
  rewrite insertByPath_perm. now constructor.
Qed.

Lemma In_pushed {A B : Type} (f : A -> option B) (xs : list A) (y : B) :
  In y (pushed f xs) <-> exists x, In x xs /\ f x = Some y.
Proof.
  induction xs as [| x rest IH]; cbn [pushed].
  - split; [intros [] | intros (x & [] & _)].
  - destruct (f x) as [y' |] eqn:E; cbn [In]; rewrite IH; split.
    + intros [<- | (z & Hz & Hy)]; [exists x | exists z]; intuition.
    + intros (z & [<- | Hz] & Hy); [left; congruence | right; now exists z].
    + intros (z & Hz & Hy). exists z. intuition.
    + intros (z & [<- | Hz] & Hy); [congruence | now exists z].
Qed.

Lemma length_pushed {A B : Type} (f : A -> option B) (xs : list A) :
  List.length (pushed f xs) <= List.length xs.
Proof.
  induction xs as [| x rest IH]; cbn [pushed]; [simpl; lia |].
  destruct (f x); simpl; lia.
Qed.

(** X14. The top-level structure lists, once each, the entries of the
    project root that are not hidden (or are [.github] or [.devops]) and
    that [fs.stat] succeeds on, a directory with size 0 and anything else as
    a file with its size; it is empty when the root cannot be listed. *)
Theorem top_level_structure_entries
    (localeCompare : string -> string -> bool) (fs : FileSystem)
    (projectRoot : string) :
  let structure := scanTopLevelStructure localeCompare fs projectRoot in
  match readdir fs projectRoot with
  | Some entries =>
      Permutation structure (pushed (topLevelEntry fs projectRoot) entries) /\
      (forall e,
         In e structure <->
         exists entry size,
           In entry entries /\
           listedName (dirent_name entry) = true /\
           stat fs (Path.join projectRoot (dirent_name entry)) = Some size /\
           e = {| entry_path := dirent_name entry;
                  entry_type :=
                    match dirent_kind entry with
                    | IsDirectory => "dir"
                    | _ => "file"
                    end;
                  entry_size :=
                    match dirent_kind entry with
                    | IsDirectory => 0%Z
                    | _ => size
                    end |}) /\
      (forall e, In e structure -> entry_type e = "dir" -> entry_size e = 0%Z) /\
      List.length structure <= List.length entries
  | None => structure = []
  end.
Proof.
  cbv zeta. unfold scanTopLevelStructure.
  destruct (readdir fs projectRoot) as [entries |]; [| reflexivity].
  assert (Hin : forall e,
    In e (fold_right (insertByPath localeCompare) []
            (pushed (topLevelEntry fs projectRoot) entries)) <->
    exists entry size,
      In entry entries /\
      listedName (dirent_name entry) = true /\
      stat fs (Path.join projectRoot (dirent_name entry)) = Some size /\
      e = {| entry_path := dirent_name entry;
             entry_type :=
               match dirent_kind entry with
               | IsDirectory => "dir"
               | _ => "file"
               end;
             entry_size :=
               match dirent_kind entry with
               | IsDirectory => 0%Z
               | _ => size
               end |}).
  { intros e.
    rewrite (Permutation_in' (eq_refl e) (sortByPath_perm localeCompare _)).
    rewrite In_pushed. unfold topLevelEntry, listedName. cbv zeta.
    split.
    - intros (entry & Hentry & Hpushed). exists entry.
      destruct (startsWithDot (dirent_name entry));
        destruct (String.eqb (dirent_name entry) ".github");
        destruct (String.eqb (dirent_name entry) ".devops");
        cbn [negb andb orb] in *; try discriminate;
        (destruct (stat fs (Path.join projectRoot (dirent_name entry)))
           as [size |]; [| discriminate]);
        exists size; injection Hpushed as <-;
        (repeat split; try assumption); now destruct (dirent_kind entry).
    - intros (entry & size & Hentry & Hlisted & Hstat & ->). exists entry.
      split; [exact Hentry |]. rewrite Hstat.
      destruct (startsWithDot (dirent_name entry));
        destruct (String.eqb (dirent_name entry) ".github");
        destruct (String.eqb (dirent_name entry) ".devops");
        cbn [negb andb orb] in *; try discriminate;
        now destruct (dirent_kind entry). }
  split; [apply sortByPath_perm |]. split; [exact Hin |]. split.
  - intros e He. apply Hin in He as (entry & size & _ & _ & _ & ->).
    cbn [entry_type entry_size]. now destruct (dirent_kind entry).
  - rewrite (Permutation_length (sortByPath_perm localeCompare _)).
    apply length_pushed.
Qed.

(** ** Which files the walk reports *)

Lemma fileAt_incl (dirs : list string) (name : string) (size : Z) :
  forall entries entries',
    incl entries entries' ->
    fileAt entries dirs name size -> fileAt entries' dirs name size.
Proof.
  destruct dirs as [| dir below]; cbn [fileAt]; intros entries entries' Hincl.
  - apply Hincl.
  - intros (sub & Hin & Hsub). exists sub. split; [now apply Hincl | exact Hsub].
Qed.

Lemma walkEntry_reports (e : Entry) :
  forall dirPath p size,
    In (p, size) (walkEntry dirPath e) ->
    exists dirs name,
      p = fold_left Path.join (dirs ++ [name]) dirPath /\
      forallb entered dirs = true /\
      fileAt [e] dirs name size.
Proof.
  induction e as [name fsize | name | name entries IH | name target | name]
    using Entry_nested_ind; intros dirPath p size Hin.
  - destruct fsize as [fsize |]; cbn in Hin; [| contradiction].
    destruct Hin as [[= <- <-] | []].
    exists [], name. repeat split. now left.
  - rewrite walkEntry_unreadable in Hin. contradiction.
  - rewrite walkEntry_directory in Hin.
    destruct (has SKIP_DIRS name || startsWithDot name) eqn:Hskip;
      [contradiction |].
    unfold walkEntries in Hin. apply in_flat_map in Hin as (e & He & Hin).
    rewrite List.Forall_forall in IH.
    destruct (IH e He _ _ _ Hin) as (dirs & file & -> & Hdirs & Hfile).
    exists (name :: dirs), file. repeat split.
    + cbn [forallb]. unfold entered at 1. now rewrite Hskip, Hdirs.
    + cbn [fileAt]. exists entries. split; [now left |].
      apply (fileAt_incl dirs file size [e]); [| exact Hfile].
      intros x [<- | []]. exact He.
  - cbn in Hin. contradiction.
  - cbn in Hin. contradiction.
Qed.

Lemma walkEntries_finds (dirs : list string) (name : string) (size : Z) :
  forall dirPath entries,
    forallb entered dirs = true ->
    fileAt entries dirs name size ->
    In (fold_left Path.join (dirs ++ [name]) dirPath, size)
       (walkEntries dirPath entries).
Proof.
  induction dirs as [| dir below IH]; intros dirPath entries Hdirs Hfile;
    cbn [fileAt] in Hfile; unfold walkEntries; apply in_flat_map.
  - exists (File name (Some size)). split; [exact Hfile |]. now left.
  - destruct Hfile as (sub & Hin & Hsub).
    exists (Directory dir (Some sub)). split; [exact Hin |].
    cbn [forallb] in Hdirs. apply andb_prop in Hdirs as [Hdir Hbelow].
    rewrite walkEntry_directory. unfold entered in Hdir.
    destruct (has SKIP_DIRS dir || startsWithDot dir); [discriminate |].
    exact (IH (Path.join dirPath dir) sub Hbelow Hsub).
Qed.

(** X15. The walk reports exactly the regular files [fs.stat] succeeds on
    that lie in the root or below it through directories that are neither
    in [SKIP_DIRS] nor hidden, each under the path joined from the root; a
    hidden file of such a directory is reported like any other. *)
Theorem walk_reports_files_of_entered_directories (projectRoot : string)
    (entries : list Entry) (p : string) (size : Z) :
  In (p, size) (walkDirectory projectRoot (Some entries)) <->
  exists dirs name,
    p = fold_left Path.join (dirs ++ [name]) projectRoot /\
    forallb entered dirs = true /\
    fileAt entries dirs name size.
Proof.
  cbn [walkDirectory]. split.
  - unfold walkEntries. intros Hin. apply in_flat_map in Hin as (e & He & Hin).
    destruct (walkEntry_reports e _ _ _ Hin) as (dirs & name & -> & Hdirs & Hfile).
    exists dirs, name. repeat split; [exact Hdirs |].
    apply (fileAt_incl dirs name size [e]); [| exact Hfile].
    intros x [<- | []]. exact He.
  - intros (dirs & name & -> & Hdirs & Hfile).
    now apply walkEntries_finds.
Qed.

(** ** What the scan counts *)
















(** ** Escaping for YAML and back *)

Lemma escapeQuotes_head (s : string) :
  startsWithChar quote (escapeQuotes s) = false.
Proof.
  destruct s as [| c rest]; [reflexivity |]. cbn [escapeQuotes].
  destruct (Ascii.eqb_spec c quote) as [-> | Hc]; [reflexivity |].
  cbn [startsWithChar]. apply Ascii.eqb_neq. congruence.
Qed.

Lemma unescapeQuotes_cons (c : ascii) (s : string) :
  startsWithChar quote s = false ->
  unescapeQuotes (String c s) = String c (unescapeQuotes s).
Proof.
  destruct s as [| d rest]; [reflexivity |]. cbn [startsWithChar].
  intros Hd. cbn [unescapeQuotes]. rewrite (Ascii.eqb_sym d quote), Hd.
  now rewrite andb_false_r.
Qed.

(** Taking the backslashes out again gives the text back. *)
Lemma unescape_escapeQuotes (s : string) :
  unescapeQuotes (escapeQuotes s) = s.
Proof.
  induction s as [| c rest IH]; [reflexivity |]. cbn [escapeQuotes].
  destruct (Ascii.eqb_spec c quote) as [-> | Hc].
  - cbn [unescapeQuotes]. fold unescapeQuotes.
    change (Ascii.eqb backslash backslash && Ascii.eqb quote quote) with true.
    cbn iota. now rewrite IH.
  - rewrite unescapeQuotes_cons by apply escapeQuotes_head. now rewrite IH.
Qed.

Lemma withoutLast_snoc (s : string) (c : ascii) :
  withoutLast (s ++ String c EmptyString) = s.
Proof.
  induction s as [| d rest IH]; [reflexivity |].
  rewrite append_cons. cbn [withoutLast].
  destruct (rest ++ String c EmptyString) eqn:E.
  - destruct rest; discriminate.
  - now rewrite <- IH.
Qed.

Lemma endsWithChar_snoc (s : string) (c : ascii) :
  endsWithChar c (s ++ String c EmptyString) = true.
Proof.
  induction s as [| d rest IH]; [cbn; apply Ascii.eqb_refl |].
  rewrite append_cons. cbn [endsWithChar].
  destruct (rest ++ String c EmptyString) eqn:E; [| exact IH].
  destruct rest; discriminate.
Qed.

(** X18. Whenever [escapeForYaml] wraps the cleaned text in quotes (it has
    a special character and is not quoted already), the result starts and
    ends with a quote and [unescapeFromYaml] gives the cleaned text back,
    whatever quotes and backslashes it holds. *)
Theorem unescape_recovers_quoted_value (clean : string -> string)
    (value : string) :
  truthy (Some value) = true ->
  startsWithChar quote (clean value) && endsWithChar quote (clean value) = false ->
  needsQuotes (clean value) = true ->
  exists quoted,
    escapeForYaml clean (Some value) = Some quoted /\
    startsWithChar quote quoted = true /\
    endsWithChar quote quoted = true /\
    unescapeFromYaml quoted = clean value.
Proof.
  intros Hvalue Hplain Hspecial. unfold escapeForYaml.
  rewrite Hvalue, Hplain, Hspecial.
  eexists. split; [reflexivity |].
  split; [reflexivity |]. split; [apply (endsWithChar_snoc (String quote _)) |].
  unfold unescapeFromYaml.
  change (truthy (Some (String quote ?s))) with true.
  cbn [negb]. cbv zeta.
  change (startsWithChar quote (String quote ?s)) with true.
  rewrite (endsWithChar_snoc (String quote (escapeQuotes (clean value)))).
  cbn [andb orb slice_1_minus_1].
  now rewrite withoutLast_snoc, unescape_escapeQuotes.
Qed.

Lemma unescape_recovers_quoted_value_witness :
  exists quoted,
    escapeForYaml keepText (Some quotedSaying) = Some quoted /\
    unescapeFromYaml quoted = quotedSaying.
Proof.
  destruct (unescape_recovers_quoted_value keepText quotedSaying)
    as (quoted & Hquoted & _ & _ & Hback); try reflexivity.
  exists quoted. split; [exact Hquoted | exact Hback].
Defined.

(** ** The key files *)

Lemma allBool_spec (check : bool -> bool) :
  allBool check = true -> forall b, check b = true.
Proof.
  unfold allBool. intros H b. apply andb_prop in H as [Ht Hf].
  now destruct b.
Qed.

Lemma bounds_check (n : nat) (x y : bool) :
  (1 <=? n)%nat && (n <=? 5)%nat && Bool.eqb x y = true ->
  1 <= n <= 5 /\ x = y.
Proof.
  intros H. apply andb_prop in H as [H Hxy]. apply andb_prop in H as [H1 H5].
  apply Nat.leb_le in H1. apply Nat.leb_le in H5.
  apply Bool.eqb_prop in Hxy. split; [lia | exact Hxy].
Qed.

(** Every remaining condition is checked on both of its values. *)
Ltac check_conditions :=
  apply bounds_check;
  repeat match goal with
  | |- context [lowerIncludes ?x ?n] =>
      generalize (lowerIncludes x n); intros ?
  | |- context [contains ?n (toLowerCase ?x)] =>
      generalize (contains n (toLowerCase x)); intros ?
  | |- context [match ?t with Some _ => _ | None => false end] =>
      generalize (match t with Some u => String.eqb u "cli" | None => false end);
      intros ?
  end;
  repeat match goal with
  | b : bool |- _ => revert b; apply allBool_spec
  end;
  vm_compute; reflexivity.

(** X19. [detectKeyFiles] gives between one and five files, and
    [README.md] is among them except when five other files come first: for
    a Svelte project in JavaScript, TypeScript, C or C++, and for a Go
    project whose language also names JavaScript or TypeScript. *)
Theorem key_files_bounds (data : ProjectData) :
  let files := detectKeyFiles data in
  1 <= List.length files <= 5 /\
  includes files "README.md" = negb (readmeDropped data).
Proof.
  cbv zeta. unfold detectKeyFiles, readmeDropped. cbv zeta.
  destruct (pd_mainLanguage data) as [lang |].
  - cbn [lowerIs lowerIncludes].
    destruct (String.eqb_spec (toLowerCase lang) "c") as [-> | _];
      [| destruct (String.eqb_spec (toLowerCase lang) "c++") as [-> | _]];
      check_conditions.
  - check_conditions.
Qed.

(** ** From the scorer to the content *)

Lemma allCountsOK_true :
  forallb (fun counts =>
    forallb (fun k =>
      forallb (fun j => countsOK (fst counts) (snd counts) k j)
        (seq 0 (S (snd counts))))
      (seq 0 (S (fst counts))))
    applicableCounts = true.
Proof. vm_cast_no_check (eq_refl true). Qed.

Lemma countsOK_spec (a h k j : nat) :
  In (a, h) applicableCounts -> k <= a -> j <= h -> countsOK a h k j = true.
Proof.
  intros Hah Hk Hj. pose proof allCountsOK_true as H0.
  peel H0 (a, h) Hah.
  assert (Hink : In k (seq 0 (S a))) by (apply in_seq; lia).
  assert (Hinj : In j (seq 0 (S h))) by (apply in_seq; lia).
  peel H0 k Hink. peel H0 j Hinj. exact H0.
Qed.

(** X8. The slot counts of the generated content are those of the scorer:
    the total is the number of applicable slots (between 9 and 20, never
    the default of 21), the filled count computed back from the rounded
    percentage is the number of filled applicable slots, and the percentage
    is a whole number from 0 to 100 that is 100 exactly when all of them
    are filled. *)
Theorem content_counts_are_the_scorers (projectRoot inferredType : string)
    (slots : gmap string string) (q : QualityMetrics)
    (ts : option TypeScriptContext) (r : ScoringResult) :
  scoreSlots inferredType slots q ts = Ok r ->
  let data := fafData projectRoot slots inferredType r in
  totalSlotsCount data = float_of_Z (totalSlots r) /\
  (9 <= totalSlots r <= 20)%Z /\
  integerValue (filledSlotsCount data) =
    Some (technicalFilled r + humanFilled r)%Z /\
  (exists p,
     integerValue (slotBasedPercentage r) = Some p /\ (0 <= p <= 100)%Z /\
     (p = 100%Z <-> (technicalFilled r + humanFilled r = totalSlots r)%Z)).
Proof.
  unfold scoreSlots.
  destruct (getApplicableSlots inferredType) as [app | error] eqn:Happ;
    cbn [bind]; [| discriminate].
  intros Hr. apply Ok_inj in Hr. subst r. cbv zeta.
  pose proof (applicable_counts inferredType app Happ) as Hah.
  pose proof (filter_andb_length (includes app) (filled slots) technicalSlots)
    as Hk.
  pose proof (filter_andb_length (includes app) (filled slots) humanSlots)
    as Hj.
  unfold totalSlotsCount, filledSlotsCount, totalSlotsCount, fafData.
  cbn [pd_totalSlots pd_slotBasedPercentage].
  unfold scoreApplicable. cbv zeta.
  cbn [totalSlots technicalFilled humanFilled slotBasedPercentage].
  rewrite !countApplicable_length.
  rewrite (scoreFilled_count _ slots 4 _ technicalSlots 0 0). cbv zeta.
  cbn [fst snd].
  rewrite (scoreFilled_count _ slots 5 _ humanSlots 0 _). cbv zeta.
  cbn [fst snd].
  revert Hah Hk Hj.
  generalize (List.length (List.filter (includes app) technicalSlots)).
  generalize (List.length (List.filter (includes app) humanSlots)).
  generalize (List.length (List.filter
    (fun slot => includes app slot && filled slots slot) technicalSlots)).
  generalize (List.length (List.filter
    (fun slot => includes app slot && filled slots slot) humanSlots)).
  intros j k h a Hah Hk Hj.
  pose proof (countsOK_spec a h k j Hah Hk Hj) as Hok.
  unfold countsOK in Hok. cbv zeta in Hok.
  apply andb_prop in Hok as [Hok Hpct]. apply andb_prop in Hok as [Htotal Hfilled].
  assert (Hrange : (9 <= Z.of_nat a + Z.of_nat h <= 20)%Z).
  { unfold applicableCounts in Hah. cbn [In] in Hah.
    repeat (destruct Hah as [[= <- <-] | Hah]; [lia |]). contradiction. }
  split; [| split; [exact Hrange | split]].
  - unfold numberOr. now rewrite Htotal.
  - unfold numberOr. rewrite Htotal.
    destruct (integerValue (Math_round _)) as [n |]; [| discriminate].
    apply Z.eqb_eq in Hfilled. now rewrite Hfilled.
  - match goal with
    | |- context [integerValue ?x] =>
        destruct (integerValue x) as [p |]; [| discriminate]
    end.
    exists p. split; [reflexivity |].
    apply andb_prop in Hpct as [Hp Hfull]. apply andb_prop in Hp as [Hp0 Hp100].
    apply Bool.eqb_prop in Hfull.
    split; [lia |].
    rewrite <- !Z.eqb_eq, Hfull. reflexivity.
Qed.

Lemma content_counts_are_the_scorers_witness :
  exists r,
    scoreSlots "cli" nineFilled minimalMetrics None = Ok r /\
    integerValue
      (filledSlotsCount (fafData "project" nineFilled "cli" r)) = Some 9%Z.
Proof.
  destruct (scoreSlots "cli" nineFilled minimalMetrics None) as [r |] eqn:E;
    [| vm_compute in E; discriminate].
  exists r. split; [reflexivity |].
  destruct (content_counts_are_the_scorers "project" "cli" nineFilled
              minimalMetrics None r E) as (_ & _ & Hfilled & _).
  rewrite Hfilled. apply Ok_inj in E. subst r. vm_compute. reflexivity.
Defined.

(** ** The CLI overrides *)

Lemma leaves_id (slot : string) : leaves slot (fun slots => slots).
Proof. intros slots. reflexivity. Qed.

Lemma leaves_assign (slot s v : string) : s <> slot -> leaves slot (assign s v).
Proof. intros H slots. unfold assign. now apply lookup_insert_ne. Qed.

Lemma leaves_assignIf (slot s : string) (v : option string) :
  s <> slot -> leaves slot (assignIf v s).
Proof.
  intros H slots. unfold assignIf. destruct v as [v |]; [| reflexivity].
  destruct (truthy (Some v)); [now apply lookup_insert_ne | reflexivity].
Qed.

Lemma leaves_fillIfEmpty (slot s : string) (v : option string) :
  s <> slot -> leaves slot (fillIfEmpty v s).
Proof.
  intros H slots. unfold fillIfEmpty. destruct v as [v |]; [| reflexivity].
  destruct (truthy (Some v) && negb (filled slots s));
    [now apply lookup_insert_ne | reflexivity].
Qed.

Lemma leaves_when (slot : string) (c : bool)
    (op : gmap string string -> gmap string string) :
  leaves slot op -> leaves slot (when c op).
Proof. intros H slots. unfold when. destruct c; [apply H | reflexivity]. Qed.

Lemma leaves_if (slot : string) (c : bool)
    (op op' : gmap string string -> gmap string string) :
  leaves slot op -> leaves slot op' -> leaves slot (if c then op else op').
Proof. now destruct c. Qed.

Lemma applyAll_leaves (slot : string)
    (ops : list (gmap string string -> gmap string string)) :
  Forall (leaves slot) ops ->
  forall slots, applyAll ops slots !! slot = slots !! slot.
Proof.
  induction 1 as [| op ops Hop _ IH]; intros slots; [reflexivity |].
  cbn [applyAll fold_left]. fold (applyAll ops (op slots)).
  now rewrite IH, Hop.
Qed.

Ltac leaves_op :=
  first
    [ apply leaves_assign; discriminate
    | apply leaves_assignIf; discriminate
    | apply leaves_fillIfEmpty; discriminate
    | apply leaves_when; leaves_op
    | apply leaves_if; leaves_op
    | apply leaves_id ].

Ltac leaves_ops :=
  repeat (apply List.Forall_cons; [leaves_op |]); apply List.Forall_nil.

Lemma afterNodeCli_leaves (src : SlotSources) (slot : string) :
  In slot ["framework"; "api_type"; "hosting"; "backend"] ->
  Forall (leaves slot) (afterNodeCli src).
Proof.
  intros Hslot. unfold afterNodeCli, nodeCli, bunProject, manifests.
  cbn [In] in Hslot.
  destruct (isNodeCLI src), (isBunProject src); cbn [tl app];
    repeat (destruct Hslot as [<- | Hslot]; [leaves_ops |]);
    contradiction.
Qed.

Lemma fillSlots_nodeCli (src : SlotSources) :
  isNodeCLI src = true ->
  fillSlots src !! "framework" = Some "CLI" /\
  fillSlots src !! "api_type" = Some "CLI" /\
  fillSlots src !! "hosting" = Some "npm registry" /\
  fillSlots src !! "backend" = Some "Node.js".
Proof.
  intros Hcli. unfold fillSlots, contributions.
  do 10 rewrite applyAll_app.
  generalize (applyAll (rustCli (isRustCLI src) (cargoTomlData src))
    (applyAll (relentlessContext (humanContext src))
       (applyAll (championshipContext (fabContext src))
          (applyAll (frameworkFallback (frameworkResult src))
             (applyAll (detectedSignals (scanResult src))
                (applyAll (readmeContext (scan_readme (scanResult src)))
                   (applyAll (aiContext (aiResult src))
                      (applyAll (detectedFramework (frameworkResult src))
                         (applyAll (scannedLanguage (scanResult src))
                            (applyAll (quickMode (options src)) ∅))))))))))
    as before.
  intros before.
  assert (Hsplit : (nodeCli src ++ bunProject (isBunProject src) ++
                    manifests src)%list =
    ([ assign "framework" "CLI"; assign "api_type" "CLI";
       assign "hosting" "npm registry"; assign "backend" "Node.js" ]
     ++ afterNodeCli src)%list).
  { unfold afterNodeCli, nodeCli. rewrite Hcli. reflexivity. }
  rewrite Hsplit, applyAll_app.
  repeat split;
    (rewrite applyAll_leaves by (apply afterNodeCli_leaves; cbn; tauto));
    cbn [applyAll fold_left]; unfold assign;
    repeat (rewrite lookup_insert_ne by discriminate);
    apply lookup_insert_eq || apply lookup_insert.
Qed.

(** X9. When [package.json] is an object with a truthy [bin], every run of
    the generator that returns has [framework] and [api_type] set to [CLI],
    [hosting] to [npm registry] and [backend] to [Node.js], whatever the
    caller asked for and the detectors found. *)
Theorem package_bin_forces_cli_slots (p : Project) (data : FafData)
    (packageJsonPath : string) (fields : list (string * Json)) :
  generateFafFromProject p = Ok data ->
  p_findPackageJson p = Ok (Some packageJsonPath) ->
  p_readPackageJson p = Ok (JObject fields) ->
  truthyJson (field fields "bin") = true ->
  fafData_slots data !! "framework" = Some "CLI" /\
  fafData_slots data !! "api_type" = Some "CLI" /\
  fafData_slots data !! "hosting" = Some "npm registry" /\
  fafData_slots data !! "backend" = Some "Node.js".
Proof.
  intros Hgen Hfind Hread Hbin. unfold generateFafFromProject in Hgen.
  destruct (opt_projectRoot (p_options p)) as [projectRoot |]; [| discriminate].
  destruct (negb (truthy (Some projectRoot))); [discriminate |].
  rewrite Hfind, Hread in Hgen. cbn [bind recover] in Hgen.
  unfold nodeCliDetection, depsOf in Hgen. cbn [getProp bind] in Hgen.
  rewrite Hbin in Hgen.
  repeat match type of Hgen with
  | bind ?r _ = Ok _ =>
      let E := fresh "E" in
      destruct r eqn:E; cbn [bind] in Hgen; [| discriminate]
  end.
  apply Ok_inj in Hgen. subst data. cbn [fafData_slots].
  now apply fillSlots_nodeCli.
Qed.

Lemma package_bin_forces_cli_slots_witness :
  exists data,
    generateFafFromProject binProject = Ok data /\
    fafData_slots data !! "framework" = Some "CLI" /\
    fafData_slots data !! "hosting" = Some "npm registry".
Proof.
  destruct (generateFafFromProject binProject) as [data |] eqn:E;
    [| vm_compute in E; discriminate].
  exists data. split; [reflexivity |].
  destruct (package_bin_forces_cli_slots binProject data
              "project/package.json" [("bin", JString "./cli.js")] E
              eq_refl eq_refl eq_refl) as (Hframework & _ & Hhosting & _).
  split; [exact Hframework | exact Hhosting].
Defined.

(** ** The README probe and the read *)

Lemma find_map_first {A B : Type} (f : B -> bool) (g : A -> B)
    (before after : list A) (x : A) :
  (forall other, In other before -> f (g other) = false) ->
  f (g x) = true ->
  List.find f (map g (before ++ x :: after)) = Some (g x).
Proof.
  intros Hbefore Hx. induction before as [| other rest IH];
    cbn [app map List.find].
  - now rewrite Hx.
  - rewrite (Hbefore other (or_introl eq_refl)). apply IH.
    intros other' Hother'. apply Hbefore. now right.
Qed.

(** X20. The scanner reports a README exactly when the first accessible
    candidate name can also be read.  The first accessible name among the
    six decides: when it cannot be read (a directory named README.md, a
    file without read permission), the project is reported as having no
    README, whatever readable README follows in the list. *)
Theorem unreadable_readme_hides_the_others (fs : FileSystem)
    (parse : string -> ReadmeContext) (projectRoot : string) :
  let r := parseReadme fs parse projectRoot in
  (readme_exists r = true <->
   exists readmePath,
     findReadme fs projectRoot = Some readmePath /\
     readFile fs readmePath <> None) /\
  (forall before name after,
     README_CANDIDATES = (before ++ name :: after)%list ->
     (forall other, In other before ->
        access fs (Path.join projectRoot other) = false) ->
     access fs (Path.join projectRoot name) = true ->
     findReadme fs projectRoot = Some (Path.join projectRoot name) /\
     (readFile fs (Path.join projectRoot name) = None -> r = absentReadme)).
Proof.
  cbv zeta. split.
  - unfold parseReadme.
    destruct (findReadme fs projectRoot) as [readmePath |].
    + destruct (readFile fs readmePath) as [content |] eqn:E;
        cbn [readme_exists absentReadme].
      * split; [intros _ | reflexivity]. exists readmePath.
        split; [reflexivity | congruence].
      * split; [discriminate |]. intros (path & [= <-] & Hread). congruence.
    + cbn [readme_exists absentReadme]. split; [discriminate |].
      intros (path & [=] & _).
  - intros before name after Hsplit Hbefore Hname.
    assert (Hfound : findReadme fs projectRoot =
                     Some (Path.join projectRoot name)).
    { unfold findReadme. rewrite Hsplit.
      now apply (find_map_first (access fs) (Path.join projectRoot)). }
    split; [exact Hfound |]. intros Hread. unfold parseReadme.
    now rewrite Hfound, Hread.
Qed.

(** ** Slots stay filled *)

Lemma filled_insert (slots : gmap string string) (s v slot : string) :
  truthy (Some v) = true -> filled slots slot = true ->
  filled (<[s := v]> slots) slot = true.
Proof.
  intros Hv Hslot. unfold filled.
  destruct (String.eqb_spec s slot) as [-> | Hne].
  - now rewrite lookup_insert_eq.
  - now rewrite lookup_insert_ne.
Qed.

Lemma keepsFilled_id : keepsFilled (fun slots => slots).
Proof. intros slots slot H. exact H. Qed.

Lemma keepsFilled_assign (s v : string) :
  truthy (Some v) = true -> keepsFilled (assign s v).
Proof. intros Hv slots slot H. unfold assign. now apply filled_insert. Qed.

Lemma keepsFilled_assignIf (s : string) (v : option string) :
  keepsFilled (assignIf v s).
Proof.
  intros slots slot H. unfold assignIf. destruct v as [v |]; [| exact H].
  destruct (truthy (Some v)) eqn:Hv; [now apply filled_insert | exact H].
Qed.

Lemma keepsFilled_fillIfEmpty (s : string) (v : option string) :
  keepsFilled (fillIfEmpty v s).
Proof.
  intros slots slot H. unfold fillIfEmpty. destruct v as [v |]; [| exact H].
  destruct (truthy (Some v)) eqn:Hv; cbn [andb]; [| exact H].
  destruct (negb (filled slots s)); [now apply filled_insert | exact H].
Qed.

Lemma keepsFilled_assignIfEmpty (s v : string) :
  keepsFilled (assignIfEmpty s v).
Proof.
  intros slots slot H. unfold assignIfEmpty.
  destruct (filled slots s) eqn:Hs; [exact H |].
  unfold filled. rewrite lookup_insert_ne; [exact H |].
  intros ->. congruence.
Qed.

Lemma keepsFilled_when (c : bool)
    (op : gmap string string -> gmap string string) :
  keepsFilled op -> keepsFilled (when c op).
Proof. intros H slots slot Hs. unfold when. destruct c; [now apply H | exact Hs]. Qed.

Lemma applyAll_keepsFilled
    (ops : list (gmap string string -> gmap string string)) :
  Forall keepsFilled ops ->
  forall slots slot,
    filled slots slot = true -> filled (applyAll ops slots) slot = true.
Proof.
  induction 1 as [| op ops Hop _ IH]; intros slots slot Hs; [exact Hs |].
  cbn [applyAll fold_left]. fold (applyAll ops (op slots)).
  apply IH. now apply Hop.
Qed.

Ltac keepsFilled_op :=
  repeat match goal with
  | |- keepsFilled (if ?c then _ else _) => destruct c
  | |- keepsFilled (match ?x with _ => _ end) => destruct x
  end;
  first
    [ apply keepsFilled_fillIfEmpty
    | apply keepsFilled_assignIf
    | apply keepsFilled_id
    | apply keepsFilled_when; keepsFilled_op
    | apply keepsFilled_assign; reflexivity
    | apply keepsFilled_assignIfEmpty ].

Ltac keepsFilled_stage :=
  repeat match goal with
  | |- Forall _ (if ?c then _ else _) => destruct c
  | |- Forall _ (match ?x with _ => _ end) => destruct x
  end;
  repeat (apply List.Forall_cons; [keepsFilled_op |]);
  apply List.Forall_nil.

Lemma contributions_keepFilled (src : SlotSources) :
  Forall keepsFilled (contributions src).
Proof.
  unfold contributions.
  repeat (apply Forall_app; split).
  all: unfold quickMode, scannedLanguage, detectedFramework, aiContext,
         readmeContext, detectedSignals, frameworkFallback,
         championshipContext, relentlessContext, rustCli, nodeCli,
         bunProject, manifests.
  all: cbv zeta.
  all: keepsFilled_stage.
Qed.

(** X21. Once a step of the slot filling has given a slot a value, the
    slot has a value when the scoring starts: every later step either
    leaves the slot alone or writes a non-empty string into it.  The
    value itself may change; the slot never goes back to empty. *)
Theorem slot_filling_never_empties_a_slot (src : SlotSources)
    (n : nat) (slot : string) :
  filled (applyAll (firstn n (contributions src)) ∅) slot = true ->
  filled (fillSlots src) slot = true.
Proof.
  intros Hfilled. unfold fillSlots.
  rewrite <- (firstn_skipn n (contributions src)), applyAll_app.
  apply applyAll_keepsFilled; [| exact Hfilled].
  pose proof (contributions_keepFilled src) as Hall.
  rewrite <- (firstn_skipn n (contributions src)) in Hall.
  now apply Forall_app in Hall as [_ Hrest].
Qed.

Lemma slot_filling_never_empties_a_slot_witness :
  applyAll (firstn 10 (contributions dockerSources)) ∅ !! "hosting"
    = Some "Docker" /\
  fillSlots dockerSources !! "hosting" = Some "Fly.io" /\
  filled (fillSlots dockerSources) "hosting" = true.
Proof.
  split; [vm_compute; reflexivity |].
  split; [vm_compute; reflexivity |].
  apply (slot_filling_never_empties_a_slot dockerSources 10 "hosting").
  vm_compute. reflexivity.
Defined.

(** ** The reply of the model *)

Lemma append_empty (t : string) : EmptyString ++ t = t.
Proof. reflexivity. Qed.

Lemma indexOf_app (c : ascii) (before rest : string) :
  Analyzer.indexOf c before = None ->
  Analyzer.indexOf c (before ++ String c rest)
    = Some (String.length before).
Proof.
  induction before as [| d before IH]; intros Hnone.
  - rewrite append_empty. cbn [Analyzer.indexOf String.length].
    now rewrite Ascii.eqb_refl.
  - rewrite append_cons. cbn [Analyzer.indexOf String.length] in Hnone |- *.
    destruct (Ascii.eqb d c); [discriminate |].
    destruct (Analyzer.indexOf c before); [discriminate |].
    now rewrite IH.
Qed.

Lemma lastIndexOf_none_app (c : ascii) (before after : string) :
  Analyzer.lastIndexOf c after = None ->
  Analyzer.lastIndexOf c (before ++ String c after)
    = Some (String.length before).
Proof.
  intros Hnone. induction before as [| d before IH].
  - rewrite append_empty. cbn [Analyzer.lastIndexOf String.length].
    now rewrite Hnone, Ascii.eqb_refl.
  - rewrite append_cons. cbn [Analyzer.lastIndexOf String.length].
    now rewrite IH.
Qed.

Lemma substring_middle (before middle after : string) :
  String.substring (String.length before) (String.length middle)
    (before ++ middle ++ after) = middle.
Proof.
  induction before as [| d before IH].
  - rewrite append_empty. cbn [String.length].
    induction middle as [| e middle IHm].
    + rewrite append_empty. now destruct after.
    + rewrite append_cons. cbn [String.length String.substring].
      now rewrite IHm.
  - rewrite append_cons. cbn [String.length String.substring]. exact IH.
Qed.

(** X22. Text around the JSON object is dropped: when nothing before the
    object holds an opening brace and nothing after it holds a closing
    one, what goes to [JSON.parse] is the text from the first opening
    brace to the last closing brace, whatever lies between them. *)
Theorem braces_drop_the_surrounding_prose (before inside after : string) :
  Analyzer.indexOf "{" before = None ->
  Analyzer.lastIndexOf "}" after = None ->
  Analyzer.braces (before ++ String "{" (inside ++ String "}" after))
    = String "{" (inside ++ "}").
Proof.
  intros Hbefore Hafter. unfold Analyzer.braces.
  rewrite (indexOf_app "{" before _ Hbefore).
  replace (before ++ String "{" (inside ++ String "}" after))
    with ((before ++ String "{" inside) ++ String "}" after) at 1.
  2:{ rewrite append_assoc, append_cons. reflexivity. }
  rewrite (lastIndexOf_none_app "}" _ after Hafter).
  unfold Analyzer.substring.
  rewrite length_append. cbn [String.length].
  replace (Nat.min _ _) with (String.length before) by lia.
  replace (Nat.max _ _ - String.length before)%nat
    with (String.length (String "{" (inside ++ "}"))).
  2:{ cbn [String.length]. rewrite length_append. cbn [String.length]. lia. }
  replace (String "{" (inside ++ String "}" after))
    with (String "{" (inside ++ "}") ++ after).
  2:{ rewrite append_cons, append_assoc. reflexivity. }
  apply substring_middle.
Qed.

Lemma Json_is_null (v : Json) : {v = JNull} + {v <> JNull}.
Proof. destruct v; [now left | right; discriminate ..]. Qed.

Lemma orJson_cases (value : option Json) (fallback : Json) :
  Analyzer.orJson value fallback = fallback \/
  truthyJson (Some (Analyzer.orJson value fallback)) = true.
Proof.
  unfold Analyzer.orJson. destruct value as [v |]; [| now left].
  destruct (truthyJson (Some v)) eqn:Hv; [now right | now left].
Qed.

Lemma resultOf_primitive (parsed : Json) (source : Analyzer.Source) :
  parsed <> JNull ->
  (forall fields, parsed <> JObject fields) ->
  Analyzer.resultOf parsed source = Ok (blankResult source).
Proof.
  intros Hnull Hobject.
  destruct parsed; try reflexivity;
    [now contradiction Hnull | now contradiction (Hobject fields)].
Qed.

Lemma resultOf_fields (parsed : Json) (source : Analyzer.Source) :
  parsed <> JNull ->
  exists r,
    Analyzer.resultOf parsed source = Ok r /\
    Analyzer.ai_source r = source /\
    (Analyzer.ai_description r = JString EmptyString \/
     truthyJson (Some (Analyzer.ai_description r)) = true) /\
    Forall (fun v => v = JNull \/ truthyJson (Some v) = true)
      (nullableFields r).
Proof.
  intros Hnull.
  destruct parsed; try (now contradiction Hnull);
    try (exists (blankResult source); split; [reflexivity |];
         split; [reflexivity |]; split; [now left |];
         repeat constructor; now left).
  eexists. split; [reflexivity |]. cbn.
  split; [reflexivity |]. split; [apply orJson_cases |].
  repeat (apply List.Forall_cons; [apply orJson_cases |]).
  apply List.Forall_nil.
Qed.

(** X23. [parseAIResponse] never throws, and gives [null] only when
    [JSON.parse] throws or returns [null].  Every other reply is accepted:
    the result carries the caller's source, its description is a truthy
    value or the empty string, each other field is a truthy value or
    [null], and a reply that parses to a number, a string, a boolean or
    an array gives the result with no field at all. *)
Theorem reply_is_accepted_unless_null (unfence : string -> string)
    (JSON_parse : string -> Result Json) (text : string)
    (source : Analyzer.Source) :
  let parsed := JSON_parse (Analyzer.braces (unfence text)) in
  let result := Analyzer.parseAIResponse unfence JSON_parse text source in
  (result = None <-> parsed = Ok JNull \/ exists error, parsed = Throw error) /\
  (forall r, result = Some r ->
     Analyzer.ai_source r = source /\
     (Analyzer.ai_description r = JString EmptyString \/
      truthyJson (Some (Analyzer.ai_description r)) = true) /\
     Forall (fun v => v = JNull \/ truthyJson (Some v) = true)
       (nullableFields r) /\
     ((forall fields, parsed <> Ok (JObject fields)) ->
      r = blankResult source)).
Proof.
  cbv zeta. unfold Analyzer.parseAIResponse.
  destruct (JSON_parse (Analyzer.braces (unfence text))) as [parsed | error].
  2:{ cbn. split; [| discriminate]. split; [| reflexivity]. right. now exists error. }
  cbn [bind].
  destruct (Json_is_null parsed) as [-> | Hnull].
  { cbn. split; [| discriminate]. split; [| reflexivity]. now left. }
  destruct (resultOf_fields parsed source Hnull)
    as (r & Hr & Hsource & Hdescription & Hfields).
  split.
  - rewrite Hr. cbn. split; [discriminate |].
    intros [Hp | [error Hp]]; [| discriminate].
    apply Ok_inj in Hp. contradiction.
  - intros r' Hr'. rewrite Hr in Hr'. cbn in Hr'.
    assert (r' = r) by congruence. subst r'.
    repeat split; try assumption.
    intros Hobject.
    rewrite resultOf_primitive in Hr; [now apply Ok_inj in Hr | exact Hnull |].
    intros fields ->. now apply (Hobject fields).
Qed.

Lemma braces_drop_the_surrounding_prose_witness :
  Analyzer.braces
    ("Here is the JSON: "
     ++ String "{" (whoIsNull ++ String "}" " Anything else?"))
  = String "{" (whoIsNull ++ "}").
Proof. apply braces_drop_the_surrounding_prose; reflexivity. Defined.
